(** * FinGalaxy decision and alerting engine

    A shallow embedding of the price-baseline tracker and monitoring cycle of
    [app.py] and of the sentiment aggregator and topic extraction of
    [sentiment.py], followed by the properties of the engine.

    Number model.  Python's [float] is IEEE-754 binary64.  Prices, price
    changes and topic frequencies only go through [-], [/], [*], [abs],
    comparisons and [round]; they are embedded as Rocq's primitive binary64
    floats, so those computations are bit-exact.  The confidence computation
    of [analyze] goes through [math.exp] and [math.log], which have no
    bit-level specification; sentiment scores and confidences are embedded
    as real numbers.  On binary64 an exact identity or a strict inequality
    between two confidences can be lost to rounding, and [math.exp]
    overflows beyond the range of score averages; the properties of the
    confidence are therefore stated as orderings that rounding keeps
    (rounding is monotone), or with a margin far above the rounding error.

    Clock.  The cycle takes one reading [now] of the clock where the code
    reads the clock anew at each alert, at each snapshot and at the export:
    [now] stands for each of those readings, and what a property says of a
    time is to be read of the reading made at that place only. *)

From Stdlib Require Import ZArith List Bool Ascii String Lia.
From Stdlib Require Import PrimFloat FloatOps FloatAxioms SpecFloat Uint63.
From Stdlib Require Import Reals Lra.
From stdpp Require Import gmap strings sorting.

Import ListNotations.
Set Warnings "-inexact-float,-clear-no-such-hyp".
Local Open Scope string_scope.
Local Open Scope list_scope.

(* ===================================================================== *)
(** * Python values *)
(* ===================================================================== *)

(** The one exception the engine can raise on its own data. *)
Inductive exn : Type :=
| ZeroDivisionError.

Inductive result (A : Type) : Type :=
| Ok (a : A)
| Raise (e : exn).

Arguments Ok {A} a.
Arguments Raise {A} e.

(** [x / y] on floats: Python raises when the divisor compares equal to
    zero (either sign) and otherwise performs the IEEE division. *)
Definition py_truediv (x y : float) : result float :=
  if PrimFloat.eqb y 0%float then Raise ZeroDivisionError else Ok (x / y)%float.

(** [float(n)] for a non-negative integer below 2^53 (exact). *)
Definition float_of_Z (z : Z) : float := of_uint63 (Uint63.of_Z z).

Definition float_of_nat (n : nat) : float := float_of_Z (Z.of_nat n).

(** Nearest integer to [n / d] ([0 < d]), ties to even. *)
Definition div_half_even (n d : Z) : Z :=
  let q := (n / d)%Z in
  let r := (n mod d)%Z in
  match (2 * r ?= d)%Z with
  | Lt => q
  | Gt => (q + 1)%Z
  | Eq => if Z.even q then q else (q + 1)%Z
  end.

(** Nearest integer to [m * 2^e], ties to even. *)
Definition scaled_half_even (m e : Z) : Z :=
  if (0 <=? e)%Z then (m * 2 ^ e)%Z else div_half_even m (2 ^ (- e)).

(** [round(x, ndigits)] on a float, [ndigits >= 0]: CPython rounds the
    exact binary value of [x] to [ndigits] decimals, ties to even, and
    returns the double nearest to that decimal.  For
    [|x| * 10^ndigits < 2^53] and [ndigits <= 22] that double is the IEEE
    quotient of the rounded integer by [10^ndigits]; zeros, infinities and
    NaN are returned unchanged. *)
Definition py_round (x : float) (ndigits : nat) : float :=
  match Prim2SF x with
  | S754_finite s m e =>
      let scale := (10 ^ Z.of_nat ndigits)%Z in
      let k := scaled_half_even (Z.pos m * scale) e in
      let r := (float_of_Z k / float_of_Z scale)%float in
      if s then (- r)%float else r
  | _ => x
  end.

(* ===================================================================== *)
(** * Strings: [str.lower] and the [in] operator *)
(* ===================================================================== *)

(** [str.lower] on the ASCII range; other characters are left as they are. *)
Definition lower_ascii (c : ascii) : ascii :=
  let n := nat_of_ascii c in
  if (65 <=? n)%nat && (n <=? 90)%nat then ascii_of_nat (n + 32) else c.

Fixpoint lower (s : string) : string :=
  match s with
  | EmptyString => EmptyString
  | String c s' => String (lower_ascii c) (lower s')
  end.

(** [word in text]: [word] occurs in [text] as a contiguous substring. *)
Fixpoint is_substring (word text : string) : bool :=
  String.prefix word text ||
  match text with
  | EmptyString => false
  | String _ text' => is_substring word text'
  end.

(* ===================================================================== *)
(** * sentiment.py: topic extraction *)
(* ===================================================================== *)

(** A [collections.Counter] keeps its keys in insertion order, which
    [most_common] and the final dict comprehension observe; it is embedded
    as an association list with unique keys in insertion order. *)
Definition Counter : Type := list (string * nat).

(** [counter[word] += 1]: a present key is updated in place, a missing key
    reads as 0 and is appended. *)
Fixpoint counter_incr (word : string) (counter : Counter) : Counter :=
  match counter with
  | [] => [(word, 1%nat)]
  | (w, c) :: rest =>
      if String.eqb w word then (w, S c) :: rest
      else (w, c) :: counter_incr word rest
  end.

(** [counter[word]] (0 for a missing key). *)
Fixpoint counter_get (word : string) (counter : Counter) : nat :=
  match counter with
  | [] => 0%nat
  | (w, c) :: rest => if String.eqb w word then c else counter_get word rest
  end.

(** The body of [for text in texts]: the inner loop over the vocabulary. *)
Definition count_text (vocab : list string) (counter : Counter) (text : string)
  : Counter :=
  let text_lower := lower text in
  fold_left
    (fun cnt word => if is_substring word text_lower then counter_incr word cnt else cnt)
    vocab counter.

(** The counter after both loops of [explain_topics]. *)
Definition count_topics (texts vocab : list string) : Counter :=
  fold_left (count_text vocab) texts [].

(** Insertion into a list sorted by decreasing count, ahead of the entries
    with the same count. *)
Fixpoint insert_desc (x : string * nat) (sorted : Counter) : Counter :=
  match sorted with
  | [] => [x]
  | y :: rest =>
      if (snd y <=? snd x)%nat then x :: y :: rest
      else y :: insert_desc x rest
  end.

(** [sorted(items, key=itemgetter(1), reverse=True)]: a stable sort, equal
    counts stay in insertion order. *)
Definition sort_desc (counter : Counter) : Counter :=
  fold_right insert_desc [] counter.

(** [Counter.most_common(n)]: [heapq.nlargest(n, items, key=count)], which
    is [sorted(items, key=count, reverse=True)[:n]]. *)
Definition most_common (n : nat) (counter : Counter) : Counter :=
  firstn n (sort_desc counter).

(** [sum(counter.values())]. *)
Definition counter_total (counter : Counter) : nat :=
  fold_right (fun wc acc => (snd wc + acc)%nat) 0%nat counter.

(** [round(count / total, 3)] on integers below 2^53: the true division
    of two integers is the correctly rounded quotient, which is the IEEE
    quotient of the two exact conversions.  [total] is at least 1 where
    this is called ([... or 1]), so the division does not raise. *)
Definition frequency (count total : nat) : float :=
  py_round (float_of_nat count / float_of_nat total)%float 3.

(** [explain_topics(texts, vocab)]; the resulting dict in iteration order. *)
Definition explain_topics (texts vocab : list string) : list (string * float) :=
  let counter := count_topics texts vocab in
  let top_topics := most_common 5 counter in
  let total := (if Nat.eqb (counter_total counter) 0 then 1 else counter_total counter)%nat in
  map (fun wc => (fst wc, frequency (snd wc) total)) top_topics.

Definition news_vocab : list string :=
  ["etf"; "approval"; "ban"; "partnership"; "surge"; "drop";
   "adoption"; "guidance"; "earnings"; "revenue"; "profit"].

Definition reddit_vocab : list string :=
  ["halving"; "bullish"; "bearish"; "regulation"; "pump"; "dump";
   "inflation"; "macro"; "moon"; "crash"; "rally"].

(* ===================================================================== *)
(** * sentiment.py: scoring and aggregation *)
(* ===================================================================== *)

Inductive Decision : Type :=
| BUY
| SELL
| HOLD.

(** The loaded classifier: for a batch of texts, the softmax probability of
    each label for each row, and the indices of the positive and negative
    labels. *)
Record FinBERT : Type := {
  softmax_probs : list string -> nat -> nat -> R;
  idx_pos : nat;
  idx_neg : nat
}.

(** The dictionary returned by [analyze]. *)
Record Analysis : Type := {
  decision : Decision;
  confidence : R;
  news_count : nat;
  reddit_count : nat;
  total_analyzed : nat;
  positive : nat;
  negative : nat;
  avg_sentiment : R;
  news_topics : list (string * float);
  reddit_topics : list (string * float);
  sample_titles : list string
}.

Definition sigmoid (x : R) : R := (1 / (1 + exp (- x)))%R.

(** [batch_score_texts]: one score, positive minus negative probability,
    per text of the batch; the empty batch is not sent to the model. *)
Definition batch_score_texts (finbert : FinBERT) (texts : list string) : list R :=
  match texts with
  | [] => []
  | _ =>
      map (fun i => (softmax_probs finbert texts i (idx_pos finbert)
                     - softmax_probs finbert texts i (idx_neg finbert))%R)
          (seq 0 (List.length texts))
  end.

(** [sum(all_scores)], from the left, starting at 0. *)
Definition py_sum (scores : list R) : R := fold_left Rplus scores 0%R.

(** Nearest integer to a real, ties to even. *)
Definition Rnearest_even (x : R) : Z :=
  let f := Int_part x in
  let r := frac_part x in
  if Rlt_dec r (1 / 2) then f
  else if Rlt_dec (1 / 2) r then (f + 1)%Z
  else if Z.even f then f else (f + 1)%Z.

(** [round(x, ndigits)] on the real-number model. *)
Definition Rround (x : R) (ndigits : nat) : R :=
  (IZR (Rnearest_even (x * 10 ^ ndigits)) / 10 ^ ndigits)%R.

(** The locals of [analyze], as functions of the score list. *)
Definition avg_sentiment_of (all_scores : list R) : R :=
  (py_sum all_scores / INR (List.length all_scores))%R.

Definition base_confidence_of (all_scores : list R) : R :=
  sigmoid (2.0 * avg_sentiment_of all_scores).

Definition reliability_of (n : nat) : R :=
  Rmin 1.0 (ln (INR (1 + n)) / ln 51).

Definition final_confidence_of (all_scores : list R) : R :=
  (0.5 + (base_confidence_of all_scores - 0.5)
         * reliability_of (List.length all_scores))%R.

Definition decision_of (final_confidence buy sell : R) : Decision :=
  if Rge_dec final_confidence buy then BUY
  else if Rle_dec final_confidence sell then SELL
  else HOLD.

(** [sum(1 for s in all_scores if ...)]. *)
Definition count_if (P : R -> bool) (scores : list R) : nat :=
  List.length (List.filter P scores).

Definition is_positive (s : R) : bool := if Rgt_dec s 0 then true else false.
Definition is_negative (s : R) : bool := if Rlt_dec s 0 then true else false.

Definition analyze (finbert : FinBERT) (symbol : string)
    (news_titles reddit_texts : list string) (buy sell : R) : option Analysis :=
  let news_scores := batch_score_texts finbert news_titles in
  let reddit_scores := batch_score_texts finbert reddit_texts in
  let all_scores := news_scores ++ reddit_scores in
  match all_scores with
  | [] => None
  | _ :: _ =>
      let final_confidence := final_confidence_of all_scores in
      Some {| decision := decision_of final_confidence buy sell;
              confidence := Rround (final_confidence * 100) 1;
              news_count := List.length news_titles;
              reddit_count := List.length reddit_texts;
              total_analyzed := List.length all_scores;
              positive := count_if is_positive all_scores;
              negative := count_if is_negative all_scores;
              avg_sentiment := Rround (avg_sentiment_of all_scores) 3;
              news_topics := explain_topics news_titles news_vocab;
              reddit_topics := explain_topics reddit_texts reddit_vocab;
              sample_titles := firstn 3 news_titles |}
  end.

(* ===================================================================== *)
(** * app.py: tracker state *)
(* ===================================================================== *)

(** A reading of the clock ([datetime.now], [time.time]). *)
Definition timestamp : Type := Z.

Inductive Direction : Type :=
| Up
| Down.

(** One entry of the dictionary returned by [get_prices]. *)
Record PriceData : Type := {
  pd_price : float;
  pd_trading_date : string;
  pd_is_live : bool
}.

(** [alert_bus.PriceAlert]. *)
Record PriceAlert : Type := {
  alert_symbol : string;
  alert_direction : Direction;
  alert_change_pct : float;
  alert_price : float;
  alert_prev_close : float;
  alert_ts : timestamp;
  alert_trading_date : string
}.

(** One value of [LATEST_ANALYSIS]. *)
Record Snapshot : Type := {
  snap_decision : Decision;
  snap_confidence : R;
  snap_price : option float;
  snap_change_from_baseline : float;
  snap_news_count : nat;
  snap_reddit_count : nat;
  snap_positive : nat;
  snap_negative : nat;
  snap_avg_sentiment : R;
  snap_news_topics : list (string * float);
  snap_reddit_topics : list (string * float);
  snap_sample_titles : list string;
  snap_last_updated : timestamp
}.

(** The module-level dictionaries of [app.py], the alerts handed to [emit]
    so far, and the document last written by [export_to_json]. *)
Record State : Type := {
  LAST_ALERT : gmap string timestamp;
  BASELINE_PRICES : gmap string float;
  LATEST_ANALYSIS : gmap string Snapshot;
  emitted : list PriceAlert;
  exported : option (timestamp * gmap string Snapshot)
}.

Definition empty_state : State :=
  {| LAST_ALERT := ∅; BASELINE_PRICES := ∅; LATEST_ANALYSIS := ∅;
     emitted := []; exported := None |}.

(** Statements of [app.py]: they read and write the globals and either
    complete or raise; the globals written before a raise stay written. *)
Definition M (A : Type) : Type := State -> result A * State.

Definition ret {A : Type} (a : A) : M A := fun st => (Ok a, st).

Definition bind {A B : Type} (m : M A) (k : A -> M B) : M B :=
  fun st =>
    match m st with
    | (Ok a, st') => k a st'
    | (Raise e, st') => (Raise e, st')
    end.

Definition lift {A : Type} (r : result A) : M A := fun st => (r, st).

Definition get_state : M State := fun st => (Ok st, st).

Declare Scope py_scope.
Delimit Scope py_scope with py.
Notation "x <- m ;; k" := (bind m (fun x => k))
  (at level 100, m at next level, right associativity) : py_scope.
Notation "m ;; k" := (bind m (fun _ => k))
  (at level 100, right associativity) : py_scope.
Local Open Scope py_scope.

(** [for x in l: body(x)]. *)
Fixpoint for_each {A : Type} (body : A -> M unit) (l : list A) : M unit :=
  match l with
  | [] => ret tt
  | x :: l' => body x ;; for_each body l'
  end.

Definition set_baseline (symbol : string) (price : float) : M unit :=
  fun st =>
    (Ok tt, {| LAST_ALERT := LAST_ALERT st;
               BASELINE_PRICES := <[symbol := price]> (BASELINE_PRICES st);
               LATEST_ANALYSIS := LATEST_ANALYSIS st;
               emitted := emitted st;
               exported := exported st |}).

Definition set_last_alert (key : string) (now : timestamp) : M unit :=
  fun st =>
    (Ok tt, {| LAST_ALERT := <[key := now]> (LAST_ALERT st);
               BASELINE_PRICES := BASELINE_PRICES st;
               LATEST_ANALYSIS := LATEST_ANALYSIS st;
               emitted := emitted st;
               exported := exported st |}).

Definition set_latest_analysis (symbol : string) (snap : Snapshot) : M unit :=
  fun st =>
    (Ok tt, {| LAST_ALERT := LAST_ALERT st;
               BASELINE_PRICES := BASELINE_PRICES st;
               LATEST_ANALYSIS := <[symbol := snap]> (LATEST_ANALYSIS st);
               emitted := emitted st;
               exported := exported st |}).

(** [alert_bus.emit]: the alert is printed; here it joins the output. *)
Definition emit (alert : PriceAlert) : M unit :=
  fun st =>
    (Ok tt, {| LAST_ALERT := LAST_ALERT st;
               BASELINE_PRICES := BASELINE_PRICES st;
               LATEST_ANALYSIS := LATEST_ANALYSIS st;
               emitted := emitted st ++ [alert];
               exported := exported st |}).

(** [export_data.export_to_json]: the whole of [LATEST_ANALYSIS] is written
    under one timestamp, replacing the previous document. *)
Definition export_to_json (now : timestamp) : M unit :=
  fun st =>
    (Ok tt, {| LAST_ALERT := LAST_ALERT st;
               BASELINE_PRICES := BASELINE_PRICES st;
               LATEST_ANALYSIS := LATEST_ANALYSIS st;
               emitted := emitted st;
               exported := Some (now, LATEST_ANALYSIS st) |}).

(* ===================================================================== *)
(** * app.py: baseline tracking and the monitoring cycle *)
(* ===================================================================== *)

(** The configuration read from the environment when [app.py] is loaded. *)
Record Config : Type := {
  WATCH : list string;
  PRICE_THRESH : float;
  BUY_THRESH : R;
  SELL_THRESH : R
}.

Definition reset_baseline (symbol : string) (price : float) (now : timestamp)
  : M unit :=
  set_baseline symbol price ;;
  set_last_alert ("price_" ++ symbol) now.

Definition get_cumulative_change (symbol : string) (current_price : float)
  : M float :=
  st <- get_state ;;
  match BASELINE_PRICES st !! symbol with
  | None => set_baseline symbol current_price ;; ret 0%float
  | Some baseline => lift (py_truediv (current_price - baseline)%float baseline)
  end.

Definition should_alert_price (symbol : string) (change_pct threshold : float)
  : bool :=
  (threshold <=? abs change_pct)%float.

(** [prices.get(symbol)] on the dictionary of quotes, kept in the order
    [get_prices] filled it. *)
Fixpoint prices_get (prices : list (string * PriceData)) (symbol : string)
  : option PriceData :=
  match prices with
  | [] => None
  | (s, price_data) :: rest =>
      if String.eqb s symbol then Some price_data else prices_get rest symbol
  end.

Section Cycle.

Variable cfg : Config.
Variable finbert : FinBERT.

(** [analyze_symbol], given the headlines and posts the two fetches
    returned for the symbol. *)
Definition analyze_symbol (symbol : string) (fetched : list string * list string)
  : option Analysis * list string * list string :=
  let news_titles := fst fetched in
  let reddit_texts := snd fetched in
  (analyze finbert symbol news_titles reddit_texts (BUY_THRESH cfg) (SELL_THRESH cfg),
   news_titles, reddit_texts).

(** The body of the price-alert loop of [run_cycle_async]. *)
Definition price_step (now : timestamp) (item : string * PriceData) : M unit :=
  let symbol := fst item in
  let price_data := snd item in
  let current_price := pd_price price_data in
  let trading_date := pd_trading_date price_data in
  cumulative_change <- get_cumulative_change symbol current_price ;;
  st <- get_state ;;
  let baseline := default current_price (BASELINE_PRICES st !! symbol) in
  if should_alert_price symbol cumulative_change (PRICE_THRESH cfg) then
    let direction := if (0 <? cumulative_change)%float then Up else Down in
    emit {| alert_symbol := symbol;
            alert_direction := direction;
            alert_change_pct := py_round (cumulative_change * 100)%float 2;
            alert_price := py_round current_price 2;
            alert_prev_close := py_round baseline 2;
            alert_ts := now;
            alert_trading_date := trading_date |} ;;
    reset_baseline symbol current_price now
  else ret tt.

(** The body of the sentiment loop of [run_cycle_async]. *)
Definition sentiment_step (now : timestamp) (prices : list (string * PriceData))
    (item : string * (option Analysis * list string * list string)) : M unit :=
  let symbol := fst item in
  match fst (fst (snd item)) with
  | None => ret tt
  | Some result =>
      let price := pd_price <$> prices_get prices symbol in
      change <- get_cumulative_change symbol (default 0%float price) ;;
      set_latest_analysis symbol
        {| snap_decision := decision result;
           snap_confidence := confidence result;
           snap_price := price;
           snap_change_from_baseline := (change * 100)%float;
           snap_news_count := news_count result;
           snap_reddit_count := reddit_count result;
           snap_positive := positive result;
           snap_negative := negative result;
           snap_avg_sentiment := avg_sentiment result;
           snap_news_topics := news_topics result;
           snap_reddit_topics := reddit_topics result;
           snap_sample_titles := sample_titles result;
           snap_last_updated := now |}
  end.

(** [run_cycle_async]: [prices] is what [get_prices(WATCH)] returned,
    [fetch i] the headlines and posts fetched for the [i]-th watched symbol,
    [now] the clock. *)
Definition run_cycle_async (now : timestamp) (prices : list (string * PriceData))
    (fetch : nat -> list string * list string) : M unit :=
  for_each (price_step now) prices ;;
  let results := imap (fun i symbol => (symbol, analyze_symbol symbol (fetch i)))
                      (WATCH cfg) in
  for_each (sentiment_step now prices) results ;;
  export_to_json now.

End Cycle.

(** A run of successive cycles from a state; stops at the first raise. *)
Fixpoint run_cycles (cfg : Config) (finbert : FinBERT)
    (inputs : list (timestamp * list (string * PriceData)
                    * (nat -> list string * list string)))
  : M unit :=
  match inputs with
  | [] => ret tt
  | (now, prices, fetch) :: rest =>
      run_cycle_async cfg finbert now prices fetch ;;
      run_cycles cfg finbert rest
  end.

(* ===================================================================== *)
(** * data_sources.py: de-duplication and quotes *)
(* ===================================================================== *)

(** One pass of [for item in items: if item not in seen: ...] over the set
    [seen] and the list [output]. *)
Definition dedupe_step (acc : gset string * list string) (item : string)
  : gset string * list string :=
  if decide (item ∈ fst acc) then acc
  else ({[ item ]} ∪ fst acc, snd acc ++ [item]).

(** [dedupe_list(items)]. *)
Definition dedupe_list (items : list string) : list string :=
  snd (fold_left dedupe_step items (∅, [])).

(** [ALIASES]. *)
Definition ALIASES : list (string * list string) :=
  [("BTC-USD", ["bitcoin"; "btc"]); ("ETH-USD", ["ethereum"; "eth"])].

Fixpoint aliases_get (aliases : list (string * list string)) (symbol : string)
  : option (list string) :=
  match aliases with
  | [] => None
  | (s, terms) :: rest =>
      if String.eqb s symbol then Some terms else aliases_get rest symbol
  end.

(** [get_news(symbol)]: [fetch_google_news q] is what the gathered task of
    query [q] produced, [None] when the task ended in an exception
    ([return_exceptions=True] hands the exception over as the result, and
    the loop skips whatever is not a list). *)
Definition get_news (fetch_google_news : string -> option (list string))
    (symbol : string) : list string :=
  let queries := default [symbol] (aliases_get ALIASES symbol) in
  let results := map fetch_google_news queries in
  let merged :=
    fold_left
      (fun acc result =>
         match result with
         | Some titles => fold_left dedupe_step titles acc
         | None => acc
         end)
      results (∅, []) in
  firstn 30 (snd merged).

(** The value both [return] statements of [get_reddit] compute from the
    texts collected from the subreddits. *)
Definition get_reddit_result (texts : list string) : list string :=
  firstn 60 (dedupe_list texts).

(** One row of the frame returned by [ticker.history(period="5d")]. *)
Record HistoryRow : Type := {
  row_open : float;
  row_close : float;
  row_date : string;
  row_is_today : bool
}.

(** An attribute of [ticker.fast_info] as [getattr] sees it. *)
Inductive Attribute : Type :=
| Missing
| IsNone
| Value (v : float).

Record FastInfo : Type := {
  last_price : Attribute;
  previous_close : Attribute
}.

(** What the quote service holds for one symbol: either [history] raises,
    or it returns rows, oldest first, and [fast_info] is [None] when
    reading it raises. *)
Inductive TickerData : Type :=
| HistoryFails
| Ticker (hist : list HistoryRow) (fast_info : option FastInfo).

(** One value of the dictionary returned by [get_prices]. *)
Record PriceEntry : Type := {
  entry_price : float;
  entry_prev : float;
  entry_change_pct : float;
  entry_trading_date : string;
  entry_comparison : string;
  entry_is_live : bool
}.

(** [output[sym] = entry] on a dictionary kept in insertion order. *)
Fixpoint dict_set {V : Type} (d : list (string * V)) (key : string) (v : V)
  : list (string * V) :=
  match d with
  | [] => [(key, v)]
  | (k, v') :: rest =>
      if String.eqb k key then (k, v) :: rest else (k, v') :: dict_set rest key v
  end.

(** Whether a float is true in a condition: non-zero (NaN is true). *)
Definition float_truthy (x : float) : bool := negb (PrimFloat.eqb x 0%float).

Section Prices.

(** [f"{x:.2f}"]: the text of a float with two decimals. *)
Variable format_2f : float -> string.

(** The body of the [try] block of [get_prices] for one symbol: the entry
    stored for the symbol, [None] when nothing is stored, either because
    an exception was caught or because the fall-back had no usable price. *)
Definition quote_symbol (data : TickerData) (intraday : bool)
  : option PriceEntry :=
  match data with
  | HistoryFails => None
  | Ticker hist fast_info =>
      match List.rev hist with
      | latest :: earlier =>
          let price := row_close latest in
          if intraday then
            let open_price := row_open latest in
            match py_truediv (price - open_price)%float open_price with
            | Raise _ => None
            | Ok change_pct =>
                Some {| entry_price := price;
                        entry_prev := open_price;
                        entry_change_pct := change_pct;
                        entry_trading_date := row_date latest;
                        entry_comparison :=
                          "Open: $" +:+ format_2f open_price
                          +:+ " → Close: $" +:+ format_2f price;
                        entry_is_live := row_is_today latest |}
            end
          else
            let prev :=
              match earlier with
              | previous :: _ => Some (row_close previous)
              | [] =>
                  match fast_info with
                  | None => None
                  | Some fi =>
                      match previous_close fi with
                      | Missing => Some price
                      | IsNone => None
                      | Value v => Some v
                      end
                  end
              end in
            match prev with
            | None => None
            | Some prev =>
                match py_truediv (price - prev)%float prev with
                | Raise _ => None
                | Ok change_pct =>
                    Some {| entry_price := price;
                            entry_prev := prev;
                            entry_change_pct := change_pct;
                            entry_trading_date := row_date latest;
                            entry_comparison :=
                              "Prev Close: $" +:+ format_2f prev
                              +:+ " → Close: $" +:+ format_2f price;
                            entry_is_live := row_is_today latest |}
                end
            end
      | [] =>
          match fast_info with
          | None => None
          | Some fi =>
              match last_price fi, previous_close fi with
              | Value price, Value prev =>
                  if float_truthy price && float_truthy prev then
                    Some {| entry_price := price;
                            entry_prev := prev;
                            entry_change_pct := ((price - prev) / prev)%float;
                            entry_trading_date := "unknown";
                            entry_comparison := "unknown";
                            entry_is_live := false |}
                  else None
              | _, _ => None
              end
          end
      end
  end.

(** [get_prices(symbols, intraday=...)]: [service sym] is what the quote
    service holds for [sym] during the call. *)
Definition get_prices (service : string -> TickerData) (intraday : bool)
    (symbols : list string) : list (string * PriceEntry) :=
  fold_left
    (fun output sym =>
       match quote_symbol (service sym) intraday with
       | Some entry => dict_set output sym entry
       | None => output
       end)
    symbols [].

End Prices.

(** The three keys of an entry that [run_cycle_async] reads. *)
Definition price_data_of (entry : PriceEntry) : PriceData :=
  {| pd_price := entry_price entry;
     pd_trading_date := entry_trading_date entry;
     pd_is_live := entry_is_live entry |}.

(* ===================================================================== *)
(** * alexa_queries.py and chat_sambanova.py: answers from the snapshots *)
(* ===================================================================== *)

(** The facts [get_buy_sell_recommendation] hands to the chat. *)
Record RecommendationFacts : Type := {
  rec_symbol : string;
  rec_decision : Decision;
  rec_confidence_pct : R;
  rec_price : option float;
  rec_change_pct : float;
  rec_news_count : nat;
  rec_reddit_count : nat;
  rec_top_topic : string;
  rec_avg_sentiment : R;
  rec_positive : nat;
  rec_negative : nat
}.

(** The facts [get_news_summary] hands to the chat. *)
Record NewsFacts : Type := {
  nf_symbol : string;
  nf_price : option float;
  nf_change_pct : float;
  nf_news_count : nat;
  nf_reddit_count : nat;
  nf_decision : Decision;
  nf_confidence : R;
  nf_positive : nat;
  nf_negative : nat;
  nf_sample_title : string;
  nf_news_topics : list (string * float);
  nf_reddit_topics : list (string * float)
}.

(** [say_from_facts]: without a client (no API key) the fixed off-line
    text; otherwise whatever the [try] block returns for the facts and the
    prompt, which is the business of the chat service. *)
Definition say_from_facts {Facts : Type}
    (client : option (Facts -> string -> string)) (facts : Facts)
    (user_prompt : string) : string :=
  match client with
  | None => "[Chat offline – SAMBA_API_KEY missing]"
  | Some chat => chat facts user_prompt
  end.

Definition recommendation_facts (symbol : string) (data : Snapshot)
  : RecommendationFacts :=
  {| rec_symbol := symbol;
     rec_decision := snap_decision data;
     rec_confidence_pct := snap_confidence data;
     rec_price := snap_price data;
     rec_change_pct := snap_change_from_baseline data;
     rec_news_count := snap_news_count data;
     rec_reddit_count := snap_reddit_count data;
     rec_top_topic :=
       match snap_news_topics data with
       | (word, _) :: _ => word
       | [] => "market sentiment"
       end;
     rec_avg_sentiment := snap_avg_sentiment data;
     rec_positive := snap_positive data;
     rec_negative := snap_negative data |}.

Definition news_facts (symbol : string) (data : Snapshot) : NewsFacts :=
  {| nf_symbol := symbol;
     nf_price := snap_price data;
     nf_change_pct := snap_change_from_baseline data;
     nf_news_count := snap_news_count data;
     nf_reddit_count := snap_reddit_count data;
     nf_decision := snap_decision data;
     nf_confidence := snap_confidence data;
     nf_positive := snap_positive data;
     nf_negative := snap_negative data;
     nf_sample_title :=
       match snap_sample_titles data with
       | title :: _ => title
       | [] => "recent market activity"
       end;
     nf_news_topics := snap_news_topics data;
     nf_reddit_topics := snap_reddit_topics data |}.

Definition get_news_summary (client : option (NewsFacts -> string -> string))
    (symbol : string) (latest_analysis : gmap string Snapshot) : string :=
  match latest_analysis !! symbol with
  | None =>
      "I don't have recent data for " +:+ symbol
      +:+ ". Please try again in a moment."
  | Some data =>
      say_from_facts client (news_facts symbol data)
        ("Summarize the latest news and market sentiment for " +:+ symbol +:+ ".")
  end.

Definition get_buy_sell_recommendation
    (client : option (RecommendationFacts -> string -> string))
    (symbol : string) (latest_analysis : gmap string Snapshot) : string :=
  match latest_analysis !! symbol with
  | None =>
      "I don't have enough data to make a recommendation for " +:+ symbol
      +:+ " right now."
  | Some data =>
      say_from_facts client (recommendation_facts symbol data)
        ("Should I buy or sell " +:+ symbol +:+ "? Give me your recommendation.")
  end.

Definition get_detailed_analysis (symbol : string)
    (latest_analysis : gmap string Snapshot) : option Snapshot :=
  latest_analysis !! symbol.

(* ===================================================================== *)
(** * interactive_cli.py: symbols and the conversation loop *)
(* ===================================================================== *)

(** [symbols_map], in the order it is written. *)
Definition symbols_map : list (string * string) :=
  [("apple", "AAPL"); ("microsoft", "MSFT"); ("nvidia", "NVDA");
   ("bitcoin", "BTC-USD"); ("btc", "BTC-USD"); ("ethereum", "ETH-USD");
   ("eth", "ETH-USD"); ("aapl", "AAPL"); ("msft", "MSFT"); ("nvda", "NVDA")].

(** The [for key, symbol in symbols_map.items()] loop of [parse_symbol]. *)
Fixpoint first_symbol (user_lower : string) (items : list (string * string))
  : option string :=
  match items with
  | [] => None
  | (key, symbol) :: rest =>
      if is_substring key user_lower then Some symbol
      else first_symbol user_lower rest
  end.

Definition parse_symbol (user_input : string) : option string :=
  first_symbol (lower user_input) symbols_map.

(** White space for [str.strip] in the ASCII range. *)
Definition is_space (c : ascii) : bool :=
  let n := nat_of_ascii c in
  ((9 <=? n)%nat && (n <=? 13)%nat)
  || ((28 <=? n)%nat && (n <=? 32)%nat).

Fixpoint lstrip (s : string) : string :=
  match s with
  | EmptyString => EmptyString
  | String c s' => if is_space c then lstrip s' else s
  end.

Fixpoint rstrip (s : string) : string :=
  match s with
  | EmptyString => EmptyString
  | String c s' =>
      match rstrip s' with
      | EmptyString => if is_space c then EmptyString else String c EmptyString
      | kept => String c kept
      end
  end.

Definition strip (s : string) : string := rstrip (lstrip s).

Inductive Role : Type :=
| User
| Assistant.

Record Message : Type := {
  msg_role : Role;
  msg_content : string
}.

Definition no_data_reply : string :=
  "⚠️  No data available yet. Please wait for the backend to run at least one cycle.".

(** [handle_query]: [latest_analysis] is what [load_latest_analysis]
    returned ([None] when the file is missing or unreadable);
    [have_conversation] is the chat, [None] when it raised. *)
Definition handle_query
    (have_conversation :
       list Message -> gmap string Snapshot -> string -> option string)
    (user_input : string) (latest_analysis : option (gmap string Snapshot))
    (conversation_history : list Message) : option string :=
  match latest_analysis with
  | None => Some no_data_reply
  | Some analysis =>
      if Nat.eqb (size analysis) 0 then Some no_data_reply
      else have_conversation conversation_history analysis user_input
  end.

Inductive Control : Type :=
| KeepGoing
| Leave.

(** One pass of the [while True] loop of [main] on the line read by
    [input], with the analysis on disk at that moment. *)
Definition cli_turn
    (have_conversation :
       list Message -> gmap string Snapshot -> string -> option string)
    (latest_analysis : option (gmap string Snapshot)) (line : string)
    (conversation_history : list Message) : Control * list Message :=
  let user_input := strip line in
  if String.eqb user_input "" then (KeepGoing, conversation_history)
  else if existsb (String.eqb (lower user_input)) ["exit"; "quit"; "bye"; "stop"]
  then (Leave, conversation_history)
  else if existsb (String.eqb (lower user_input)) ["clear"; "reset"; "restart"]
  then (KeepGoing, [])
  else
    match handle_query have_conversation user_input latest_analysis
                       conversation_history with
    | None => (KeepGoing, conversation_history)
    | Some response =>
        let extended :=
          conversation_history
          ++ [{| msg_role := User; msg_content := user_input |};
              {| msg_role := Assistant; msg_content := response |}] in
        (KeepGoing,
         if (20 <? List.length extended)%nat
         then skipn (List.length extended - 20) extended
         else extended)
    end.

(** The loop over the lines typed, from a given history, until it is left
    or the lines run out. *)
Fixpoint cli_run
    (have_conversation :
       list Message -> gmap string Snapshot -> string -> option string)
    (inputs : list (string * option (gmap string Snapshot)))
    (conversation_history : list Message) : list Message :=
  match inputs with
  | [] => conversation_history
  | (line, latest_analysis) :: rest =>
      match cli_turn have_conversation latest_analysis line
                     conversation_history with
      | (Leave, history) => history
      | (KeepGoing, history) => cli_run have_conversation rest history
      end
  end.

(* ===================================================================== *)
(** * Notions used to state the properties *)
(* ===================================================================== *)

(** ** Topic counts and kept words *)

(** The spec's reading of a topic count: the number of positions of the
    lower-cased text at which the word starts, summed over the texts. *)
Fixpoint occurrences (word text : string) : nat :=
  ((if String.prefix word text then 1 else 0) +
   match text with
   | EmptyString => 0
   | String _ text' => occurrences word text'
   end)%nat.

Definition total_occurrences (word : string) (texts : list string) : nat :=
  fold_right (fun text acc => (occurrences word (lower text) + acc)%nat) 0%nat texts.

(** The number of texts that contain the word, once lower-cased. *)
Definition matching_texts (word : string) (texts : list string) : nat :=
  List.length (List.filter (fun text => is_substring word (lower text)) texts).

(** How many times a word is listed in a vocabulary. *)
Definition listed (word : string) (vocab : list string) : nat :=
  List.length (List.filter (String.eqb word) vocab).

(** The order of [sorted(..., reverse=True)] on counter entries. *)
Definition count_ge (x y : string * nat) : Prop := (snd y <= snd x)%nat.

(** The spec's reading of the frequencies: each kept count over the total
    of the kept counts only. *)
Definition explain_topics_kept_total (texts vocab : list string)
  : list (string * float) :=
  let top_topics := most_common 5 (count_topics texts vocab) in
  let total := counter_total top_topics in
  map (fun wc => (fst wc, frequency (snd wc) total)) top_topics.

(** The vocabulary words found, text after text, in vocabulary order
    within a text. *)
Definition hits (texts vocab : list string) : list string :=
  flat_map (fun text => List.filter (fun word => is_substring word (lower text)) vocab)
           texts.

(** The distinct elements of a list, each at its first occurrence. *)
Definition first_seen (words : list string) : list string :=
  fold_left
    (fun seen w => if existsb (String.eqb w) seen then seen else seen ++ [w])
    words [].

(** ** The formulas of the spec for the confidence *)

Definition mean (scores : list R) : R :=
  (fold_right Rplus 0 scores / INR (List.length scores))%R.

Definition spec_base_confidence (avg : R) : R :=
  (1 / (1 + exp (-2.0 * avg)))%R.

Definition spec_reliability (n : nat) : R :=
  Rmin 1 (ln (1 + INR n) / ln 51).

Definition spec_final_confidence (scores : list R) : R :=
  (0.5 + (spec_base_confidence (mean scores) - 0.5)
         * spec_reliability (List.length scores))%R.

(** ** De-duplication *)

(** The elements of a list that are not in [seen], each at its first
    occurrence. *)
Fixpoint nub_from (seen : gset string) (items : list string) : list string :=
  match items with
  | [] => []
  | x :: rest =>
      if decide (x ∈ seen) then nub_from seen rest
      else x :: nub_from ({[ x ]} ∪ seen) rest
  end.

(** ** Sample quote service *)

Definition sample_row (open_price close : float) (today : bool) : HistoryRow :=
  {| row_open := open_price; row_close := close;
     row_date := "2025-01-02 Thu"; row_is_today := today |}.

(** Two days of history for AAPL, a failing fetch for MSFT, no history and
    no usable fall-back for anything else. *)
Definition sample_service (sym : string) : TickerData :=
  if String.eqb sym "AAPL" then
    Ticker [sample_row 99%float 100%float false;
            sample_row 100%float 101%float true] None
  else if String.eqb sym "MSFT" then HistoryFails
  else Ticker [] (Some {| last_price := IsNone; previous_close := Missing |}).

(** ** Conversation histories *)

(** A history made of whole exchanges: a user message, then the reply. *)
Definition exchanges_history (exchanges : list (string * string)) : list Message :=
  flat_map
    (fun qa => [{| msg_role := User; msg_content := fst qa |};
                {| msg_role := Assistant; msg_content := snd qa |}])
    exchanges.

(** ** Floats *)

(** A float that is neither a zero, nor an infinity, nor NaN. *)
Definition is_finite_nonzero (x : float) : bool :=
  match Prim2SF x with
  | S754_finite _ _ _ => true
  | _ => false
  end.

(** ** Frames *)

(** A statement keeps a property of the globals, whether it completes or
    raises. *)
Definition preserves {A : Type} (P : State -> Prop) (m : M A) : Prop :=
  forall st, P st -> P (snd (m st)).

(** The tracker records a last-alert time only under the key of a symbol
    that has a baseline. *)
Definition alert_keys_have_baseline (st : State) : Prop :=
  forall (key : string) (t : timestamp),
    LAST_ALERT st !! key = Some t ->
    exists symbol : string,
      key = "price_" +:+ symbol /\ is_Some (BASELINE_PRICES st !! symbol).

(** ** Sample inputs *)

Definition quote (p : float) : PriceData :=
  {| pd_price := p; pd_trading_date := "2025-01-02 Thu"; pd_is_live := false |}.

(** The defaults of [app.py] for the thresholds. *)
Definition default_config (watch : list string) : Config :=
  {| WATCH := watch; PRICE_THRESH := 0.005%float;
     BUY_THRESH := 0.65%R; SELL_THRESH := 0.35%R |}.

(** A state in which one symbol has a baseline and nothing else is set. *)
Definition state_with_baseline (symbol : string) (b : float) : State :=
  {| LAST_ALERT := ∅; BASELINE_PRICES := {[ symbol := b ]};
     LATEST_ANALYSIS := ∅; emitted := []; exported := None |}.

(** A classifier that gives every text the same probabilities. *)
Definition constant_model : FinBERT :=
  {| softmax_probs := fun _ _ label => if Nat.eqb label 0 then 0.9%R else 0.05%R;
     idx_pos := 0; idx_neg := 1 |}.

Definition sample_snapshot : Snapshot :=
  {| snap_decision := BUY; snap_confidence := 70%R;
     snap_price := Some 100%float; snap_change_from_baseline := 0%float;
     snap_news_count := 4; snap_reddit_count := 0;
     snap_positive := 4; snap_negative := 0; snap_avg_sentiment := 0.85%R;
     snap_news_topics := [("surge", 1%float)]; snap_reddit_topics := [];
     snap_sample_titles := ["Apple surge"]; snap_last_updated := 1%Z |}.

Definition state_with_snapshot (symbol : string) (snap : Snapshot) : State :=
  {| LAST_ALERT := ∅; BASELINE_PRICES := ∅;
     LATEST_ANALYSIS := {[ symbol := snap ]}; emitted := []; exported := None |}.

(** A snapshot holding the topics and sample of some headlines. *)
Definition snapshot_of_headlines (news_titles : list string) : Snapshot :=
  {| snap_decision := HOLD; snap_confidence := 50%R;
     snap_price := None; snap_change_from_baseline := 0%float;
     snap_news_count := List.length news_titles; snap_reddit_count := 0;
     snap_positive := 0; snap_negative := 0; snap_avg_sentiment := 0%R;
     snap_news_topics := explain_topics news_titles news_vocab;
     snap_reddit_topics := [];
     snap_sample_titles := firstn 3 news_titles; snap_last_updated := 1%Z |}.

(** A chat that answers every message with the same text. *)
Definition echo_chat (history : list Message) (analysis : gmap string Snapshot)
    (user_message : string) : option string :=
  Some "noted".

(** No news for the first watched symbol, one headline for the others. *)
Definition fetch_first_empty (i : nat) : list string * list string :=
  match i with
  | O => ([], [])
  | S _ => (["Microsoft earnings surge"], [])
  end.

(* ===================================================================== *)
(** * Properties of topic extraction *)
(* ===================================================================== *)

Lemma counter_get_incr (word w : string) (counter : Counter) :
  counter_get word (counter_incr w counter) =
  ((if String.eqb w word then 1 else 0) + counter_get word counter)%nat.
Proof.
  induction counter as [|[w' c] rest IH]; simpl.
  - destruct (String.eqb w word); reflexivity.
  - destruct (String.eqb w' w) eqn:Eww; simpl.
    + apply String.eqb_eq in Eww. subst w'.
      destruct (String.eqb w word); reflexivity.
    + destruct (String.eqb w' word) eqn:Ew'.
      * apply String.eqb_eq in Ew'. subst w'.
        rewrite String.eqb_sym in Eww. rewrite Eww. reflexivity.
      * exact IH.
Qed.

Lemma counter_get_count_text (word text : string) (vocab : list string)
    (counter : Counter) :
  counter_get word (count_text vocab counter text) =
  ((if is_substring word (lower text) then listed word vocab else 0)
   + counter_get word counter)%nat.
Proof.
  unfold count_text, listed.
  revert counter.
  induction vocab as [|w vocab IH]; intros counter; simpl.
  - destruct (is_substring word (lower text)); reflexivity.
  - rewrite IH. clear IH.
    destruct (String.eqb word w) eqn:Ew.
    + apply String.eqb_eq in Ew. subst w.
      destruct (is_substring word (lower text)); [|reflexivity].
      rewrite counter_get_incr, String.eqb_refl. simpl. lia.
    + destruct (is_substring w (lower text)); [|reflexivity].
      rewrite counter_get_incr, String.eqb_sym, Ew. reflexivity.
Qed.

Lemma counter_get_fold_texts (word : string) (texts vocab : list string)
    (counter : Counter) :
  counter_get word (fold_left (count_text vocab) texts counter) =
  (listed word vocab * matching_texts word texts + counter_get word counter)%nat.
Proof.
  unfold matching_texts.
  revert counter.
  induction texts as [|text texts IH]; intros counter; simpl.
  - lia.
  - rewrite IH, counter_get_count_text.
    destruct (is_substring word (lower text)); simpl; lia.
Qed.

(** The count of a word is the number of texts containing it (times the
    number of times the vocabulary lists it). *)
Lemma counter_get_count_topics (word : string) (texts vocab : list string) :
  counter_get word (count_topics texts vocab) =
  (listed word vocab * matching_texts word texts)%nat.
Proof.
  unfold count_topics. rewrite counter_get_fold_texts. simpl. lia.
Qed.

(** C3, as stated, fails: a word occurring twice within one text is
    counted once, so the reported frequencies differ from those of
    occurrence counts. *)
Lemma count_is_not_occurrences :
  ~ (forall (texts vocab : list string) (word : string),
        In word vocab ->
        counter_get word (count_topics texts vocab) = total_occurrences word texts).
Proof.
  intros H.
  specialize (H ["surge surge drop"] ["surge"; "drop"] "surge").
  vm_compute in H.
  assert (1 = 2)%nat as E by (apply H; left; reflexivity).
  discriminate E.
Qed.

(** C3, amended: the topic count of a vocabulary word is the number of
    texts of the source whose lower-cased form contains the word (a word
    occurring twice within one text contributes 1), a word the vocabulary
    does not list has count 0, and the example of the spec yields
    surge 0.667 and drop 0.333. *)
Theorem topic_count_is_matching_texts :
  (forall (texts vocab : list string) (word : string),
      counter_get word (count_topics texts vocab) =
      (listed word vocab * matching_texts word texts)%nat)
  /\ counter_get "surge" (count_topics ["surge surge drop"] ["surge"; "drop"]) = 1%nat
  /\ explain_topics ["Stock surge reported"; "another surge"; "price drop"]
                    ["surge"; "drop"]
     = [("surge", 0.667%float); ("drop", 0.333%float)].
Proof.
  split; [|split].
  - intros texts vocab word. apply counter_get_count_topics.
  - vm_compute. reflexivity.
  - vm_compute. reflexivity.
Qed.

(** ** The counter: unique keys, positive counts *)

Lemma counter_incr_keys (word w : string) (counter : Counter) :
  In w (map fst (counter_incr word counter)) ->
  w = word \/ In w (map fst counter).
Proof.
  induction counter as [|[w' c] rest IH]; simpl.
  - intros [E|[]]. left. symmetry. exact E.
  - destruct (String.eqb w' word) eqn:E; simpl.
    + intros H. right. exact H.
    + intros [H|H]; [right; left; exact H|].
      destruct (IH H) as [H'|H']; [left; exact H'|right; right; exact H'].
Qed.

Lemma counter_incr_NoDup (word : string) (counter : Counter) :
  List.NoDup (map fst counter) -> List.NoDup (map fst (counter_incr word counter)).
Proof.
  induction counter as [|[w' c] rest IH]; simpl; intros H.
  - constructor; [intros []|constructor].
  - inversion H as [|? ? Hnotin Hrest]; subst.
    destruct (String.eqb w' word) eqn:E; simpl.
    + constructor; assumption.
    + constructor; [|apply IH; exact Hrest].
      intros Hin. apply counter_incr_keys in Hin as [Hin|Hin].
      * subst w'. rewrite String.eqb_refl in E. discriminate E.
      * exact (Hnotin Hin).
Qed.

Lemma counter_incr_positive (word : string) (counter : Counter) :
  List.Forall (fun wc => 1 <= snd wc)%nat counter ->
  List.Forall (fun wc => 1 <= snd wc)%nat (counter_incr word counter).
Proof.
  induction counter as [|[w' c] rest IH]; simpl; intros H.
  - constructor; [simpl; lia|constructor].
  - inversion H as [|? ? Hc Hrest]; subst.
    destruct (String.eqb w' word); constructor; simpl in *; auto; lia.
Qed.

(** An invariant of the counter kept by both loops. *)
Lemma count_topics_invariant (P : Counter -> Prop) (texts vocab : list string) :
  P [] ->
  (forall word counter, P counter -> P (counter_incr word counter)) ->
  P (count_topics texts vocab).
Proof.
  intros Hnil Hincr. unfold count_topics.
  assert (forall text counter, P counter -> P (count_text vocab counter text))
    as Htext.
  { intros text. unfold count_text.
    induction vocab as [|w vocab IH]; intros counter Hc; simpl; [exact Hc|].
    apply IH. destruct (is_substring w (lower text)); auto. }
  generalize (@nil (string * nat)) Hnil.
  induction texts as [|text texts IH]; intros counter Hc; simpl; auto.
Qed.

Lemma count_topics_NoDup (texts vocab : list string) :
  List.NoDup (map fst (count_topics texts vocab)).
Proof.
  apply count_topics_invariant with (P := fun c => List.NoDup (map fst c)).
  - constructor.
  - intros word counter. apply counter_incr_NoDup.
Qed.

Lemma count_topics_positive (texts vocab : list string) :
  List.Forall (fun wc => 1 <= snd wc)%nat (count_topics texts vocab).
Proof.
  apply count_topics_invariant
    with (P := List.Forall (fun wc => 1 <= snd wc)%nat).
  - constructor.
  - intros word counter. apply counter_incr_positive.
Qed.

Lemma counter_get_In (w : string) (c : nat) (counter : Counter) :
  List.NoDup (map fst counter) -> In (w, c) counter -> counter_get w counter = c.
Proof.
  induction counter as [|[w' c'] rest IH]; simpl; intros Hnd Hin; [contradiction|].
  inversion Hnd as [|? ? Hnotin Hrest]; subst.
  destruct Hin as [E|Hin].
  - inversion E; subst. rewrite String.eqb_refl. reflexivity.
  - destruct (String.eqb w' w) eqn:E.
    + apply String.eqb_eq in E. subst w'.
      exfalso. apply Hnotin. apply (in_map fst) in Hin. exact Hin.
    + apply IH; assumption.
Qed.

Lemma counter_total_ge (w : string) (c : nat) (counter : Counter) :
  In (w, c) counter -> (c <= counter_total counter)%nat.
Proof.
  unfold counter_total.
  induction counter as [|[w' c'] rest IH]; simpl; intros Hin; [contradiction|].
  destruct Hin as [E|Hin].
  - inversion E; subst. lia.
  - specialize (IH Hin). lia.
Qed.

Lemma listed_positive_In (word : string) (vocab : list string) :
  (0 < listed word vocab)%nat -> In word vocab.
Proof.
  unfold listed. induction vocab as [|w vocab IH]; simpl; [lia|].
  destruct (String.eqb word w) eqn:E.
  - apply String.eqb_eq in E. intros _. left. symmetry. exact E.
  - intros H. right. apply IH. exact H.
Qed.

(** ** [sorted]: a stable permutation in decreasing order of count *)

Lemma insert_desc_Permutation (x : string * nat) (sorted : Counter) :
  Permutation (insert_desc x sorted) (x :: sorted).
Proof.
  induction sorted as [|y rest IH]; simpl; [reflexivity|].
  destruct (snd y <=? snd x)%nat; [reflexivity|].
  rewrite IH. apply perm_swap.
Qed.

Lemma sort_desc_Permutation (counter : Counter) :
  Permutation (sort_desc counter) counter.
Proof.
  unfold sort_desc.
  induction counter as [|x counter IH]; simpl; [reflexivity|].
  rewrite insert_desc_Permutation. constructor. exact IH.
Qed.

Lemma insert_desc_sorted (x : string * nat) (sorted : Counter) :
  StronglySorted count_ge sorted -> StronglySorted count_ge (insert_desc x sorted).
Proof.
  induction sorted as [|y rest IH]; simpl; intros Hs.
  - repeat constructor.
  - inversion Hs as [|? ? Hrest Hall]; subst.
    destruct (snd y <=? snd x)%nat eqn:E.
    + apply Nat.leb_le in E. constructor; [exact Hs|].
      constructor; [exact E|].
      eapply List.Forall_impl; [|exact Hall].
      intros z Hz. unfold count_ge in *. lia.
    + apply Nat.leb_gt in E. constructor; [apply IH; exact Hrest|].
      apply List.Forall_forall. intros z Hz.
      apply (Permutation_in _ (insert_desc_Permutation x rest)) in Hz.
      destruct Hz as [Hz|Hz].
      * subst z. unfold count_ge. lia.
      * rewrite List.Forall_forall in Hall. apply Hall. exact Hz.
Qed.

Lemma sort_desc_sorted (counter : Counter) :
  StronglySorted count_ge (sort_desc counter).
Proof.
  unfold sort_desc.
  induction counter as [|x counter IH]; simpl; [constructor|].
  apply insert_desc_sorted. exact IH.
Qed.

(** ** Reported frequencies *)

Lemma most_common_In (n : nat) (wc : string * nat) (counter : Counter) :
  In wc (most_common n counter) -> In wc counter.
Proof.
  unfold most_common. intros H.
  apply (Permutation_in _ (sort_desc_Permutation counter)).
  rewrite <- (firstn_skipn n (sort_desc counter)).
  apply in_or_app. left. exact H.
Qed.

Lemma counter_total_Permutation (c1 c2 : Counter) :
  Permutation c1 c2 -> counter_total c1 = counter_total c2.
Proof.
  unfold counter_total.
  induction 1 as [|x l l' _ IH|x y l|l l' l'' _ IH1 _ IH2]; simpl; lia.
Qed.

Lemma count_topics_no_match (texts vocab : list string) :
  (forall w t, In w vocab -> In t texts -> is_substring w (lower t) = false) ->
  count_topics texts vocab = [].
Proof.
  intros Hno. unfold count_topics.
  assert (forall t counter, In t texts -> count_text vocab counter t = counter)
    as Htext.
  { intros t counter Ht. unfold count_text.
    assert (forall w, In w vocab -> is_substring w (lower t) = false) as Hw
      by (intros w Hin; apply Hno; assumption).
    clear Hno. revert counter.
    induction vocab as [|w vocab IH]; intros counter; simpl; [reflexivity|].
    rewrite (Hw w) by (left; reflexivity).
    apply IH. intros w' Hin. apply Hw. right. exact Hin. }
  clear Hno. generalize (@nil (string * nat)).
  induction texts as [|t texts IH]; intros counter; simpl; [reflexivity|].
  rewrite Htext by (left; reflexivity).
  apply IH. intros t' c Hin. apply Htext. right. exact Hin.
Qed.

(** C4, as stated, fails: with six vocabulary words counted once each, the
    five kept words are reported as 1/6, not as 1/5 of the kept total. *)
Lemma frequency_not_over_kept_total :
  explain_topics ["ETF approval ban partnership surge drop"] news_vocab
  <> explain_topics_kept_total ["ETF approval ban partnership surge drop"] news_vocab.
Proof.
  intros H.
  apply (f_equal (fun l => match l with
                           | (_, f) :: _ => PrimFloat.eqb f 0.167%float
                           | [] => false
                           end)) in H.
  vm_compute in H. discriminate H.
Qed.

(** C4, amended: every reported word is a vocabulary word that was counted,
    reported with its count divided by the total of the counts of all the
    counted vocabulary words (kept or not), rounded to 3 decimals; this is
    the total of the kept words when at most five words were counted; and
    when no vocabulary word occurs in any text the mapping is empty. *)
Theorem topic_frequency_over_all_counts (texts vocab : list string) :
  (forall (w : string) (f : float),
      In (w, f) (explain_topics texts vocab) ->
      In w vocab
      /\ (1 <= counter_get w (count_topics texts vocab))%nat
      /\ f = py_round (float_of_nat (counter_get w (count_topics texts vocab))
                       / float_of_nat (counter_total (count_topics texts vocab)))%float 3)
  /\ ((List.length (count_topics texts vocab) <= 5)%nat ->
      explain_topics texts vocab = explain_topics_kept_total texts vocab)
  /\ ((forall w t, In w vocab -> In t texts -> is_substring w (lower t) = false) ->
      explain_topics texts vocab = []).
Proof.
  split; [|split].
  - intros w f Hin. unfold explain_topics in Hin.
    apply in_map_iff in Hin as [[w' c] [E Hin]]. simpl in E.
    inversion E; subst w' f. clear E.
    apply most_common_In in Hin.
    pose proof (counter_get_In w c _ (count_topics_NoDup texts vocab) Hin) as Hget.
    pose proof (count_topics_positive texts vocab) as Hpos.
    rewrite List.Forall_forall in Hpos. specialize (Hpos _ Hin). simpl in Hpos.
    pose proof (counter_total_ge w c _ Hin) as Htot.
    rewrite Hget. split; [|split].
    + apply listed_positive_In with (vocab := vocab).
      pose proof (counter_get_count_topics w texts vocab) as Hc.
      rewrite Hget in Hc.
      destruct (listed w vocab); [simpl in Hc; lia|lia].
    + exact Hpos.
    + unfold frequency.
      destruct (Nat.eqb (counter_total (count_topics texts vocab)) 0) eqn:E.
      * apply Nat.eqb_eq in E. lia.
      * reflexivity.
  - intros Hlen. unfold explain_topics, explain_topics_kept_total, most_common.
    pose proof (sort_desc_Permutation (count_topics texts vocab)) as Hperm.
    rewrite firstn_all2
      by (rewrite (Permutation_length Hperm); exact Hlen).
    rewrite (counter_total_Permutation _ _ Hperm).
    destruct (Nat.eqb (counter_total (count_topics texts vocab)) 0) eqn:E;
      [|reflexivity].
    apply Nat.eqb_eq in E.
    destruct (sort_desc (count_topics texts vocab)) as [|[w c] rest] eqn:Es;
      [reflexivity|].
    exfalso.
    assert (In (w, c) (count_topics texts vocab)) as Hin
      by (apply (Permutation_in _ Hperm); left; reflexivity).
    pose proof (count_topics_positive texts vocab) as Hpos.
    rewrite List.Forall_forall in Hpos. specialize (Hpos _ Hin). simpl in Hpos.
    pose proof (counter_total_ge w c _ Hin). lia.
  - intros Hno. unfold explain_topics.
    rewrite (count_topics_no_match texts vocab Hno). reflexivity.
Qed.

Lemma topic_frequency_over_all_counts_witness :
  In ("etf", 0.167%float)
     (explain_topics ["ETF approval ban partnership surge drop"] news_vocab)
  /\ In "etf" news_vocab
  /\ explain_topics ["Stock surge reported"; "price drop"] ["surge"; "drop"]
     = explain_topics_kept_total ["Stock surge reported"; "price drop"] ["surge"; "drop"]
  /\ explain_topics ["Markets were quiet"] news_vocab = [].
Proof.
  assert (In ("etf", 0.167%float)
             (explain_topics ["ETF approval ban partnership surge drop"] news_vocab))
    as Hin by (vm_compute; left; reflexivity).
  split; [exact Hin|]. split; [|split].
  - exact (proj1 (proj1 (topic_frequency_over_all_counts
                           ["ETF approval ban partnership surge drop"] news_vocab)
                        "etf" 0.167%float Hin)).
  - apply (proj1 (proj2 (topic_frequency_over_all_counts
                           ["Stock surge reported"; "price drop"] ["surge"; "drop"]))).
    vm_compute. lia.
  - apply (proj2 (proj2 (topic_frequency_over_all_counts
                           ["Markets were quiet"] news_vocab))).
    intros w t Hw Ht. simpl in Ht. destruct Ht as [Ht|[]]. subst t.
    simpl in Hw.
    repeat (destruct Hw as [Hw|Hw]; [subst w; vm_compute; reflexivity|]).
    contradiction.
Defined.

(** ** Which words are kept *)

Lemma counter_incr_key_order (word : string) (counter : Counter) :
  map fst (counter_incr word counter) =
  if existsb (String.eqb word) (map fst counter) then map fst counter
  else map fst counter ++ [word].
Proof.
  induction counter as [|[w c] rest IH]; simpl; [reflexivity|].
  rewrite (String.eqb_sym word w).
  destruct (String.eqb w word); simpl; [reflexivity|].
  rewrite IH. destruct (existsb (String.eqb word) (map fst rest)); reflexivity.
Qed.

Lemma count_text_key_order (text : string) (vocab : list string)
    (counter : Counter) :
  map fst (count_text vocab counter text) =
  fold_left
    (fun seen w => if existsb (String.eqb w) seen then seen else seen ++ [w])
    (List.filter (fun word => is_substring word (lower text)) vocab)
    (map fst counter).
Proof.
  unfold count_text. revert counter.
  induction vocab as [|w vocab IHv]; intros counter; simpl; [reflexivity|].
  destruct (is_substring w (lower text)); simpl; [|apply IHv].
  rewrite IHv, counter_incr_key_order. reflexivity.
Qed.

Lemma fold_texts_key_order (texts vocab : list string) (counter : Counter) :
  map fst (fold_left (count_text vocab) texts counter) =
  fold_left
    (fun seen w => if existsb (String.eqb w) seen then seen else seen ++ [w])
    (hits texts vocab) (map fst counter).
Proof.
  unfold hits. revert counter.
  induction texts as [|text texts IH]; intros counter; simpl; [reflexivity|].
  rewrite fold_left_app, IH, count_text_key_order. reflexivity.
Qed.

(** The counter lists the words in the order they were first found. *)
Lemma count_topics_key_order (texts vocab : list string) :
  map fst (count_topics texts vocab) = first_seen (hits texts vocab).
Proof.
  unfold count_topics, first_seen. apply fold_texts_key_order.
Qed.

Lemma insert_desc_filter (k : nat) (x : string * nat) (sorted : Counter) :
  List.filter (fun y => snd y =? k)%nat (insert_desc x sorted) =
  (if (snd x =? k)%nat then [x] else [])
  ++ List.filter (fun y => snd y =? k)%nat sorted.
Proof.
  induction sorted as [|y rest IH]; simpl.
  - destruct (snd x =? k)%nat; reflexivity.
  - destruct (snd y <=? snd x)%nat eqn:E; simpl.
    + destruct (snd x =? k)%nat; reflexivity.
    + rewrite IH. apply Nat.leb_gt in E.
      destruct (snd y =? k)%nat eqn:Ey; [|reflexivity].
      apply Nat.eqb_eq in Ey.
      destruct (snd x =? k)%nat eqn:Ex; [|reflexivity].
      apply Nat.eqb_eq in Ex. lia.
Qed.

(** Stability: the entries of one count are in the order they had. *)
Lemma sort_desc_stable (k : nat) (counter : Counter) :
  List.filter (fun y => snd y =? k)%nat (sort_desc counter) =
  List.filter (fun y => snd y =? k)%nat counter.
Proof.
  unfold sort_desc.
  induction counter as [|x counter IH]; simpl; [reflexivity|].
  rewrite insert_desc_filter, IH.
  destruct (snd x =? k)%nat; reflexivity.
Qed.

Lemma filter_split {A : Type} (f : A -> bool) (l m1 m2 : list A) :
  List.filter f l = m1 ++ m2 ->
  exists l1 l2, l = l1 ++ l2 /\ List.filter f l1 = m1 /\ List.filter f l2 = m2.
Proof.
  revert m1. induction l as [|x l IH]; intros m1 H; simpl in H.
  - symmetry in H. apply app_eq_nil in H as [-> ->].
    exists [], []. repeat split.
  - destruct (f x) eqn:E.
    + destruct m1 as [|y m1]; simpl in H.
      * exists [], (x :: l). simpl. rewrite E. repeat split. exact H.
      * injection H as Hy Hrest. subst y.
        destruct (IH m1 Hrest) as (l1 & l2 & -> & F1 & F2).
        exists (x :: l1), l2. simpl. rewrite E, F1. repeat split. exact F2.
    + destruct (IH m1 H) as (l1 & l2 & -> & H1 & H2).
      exists (x :: l1), l2. simpl. rewrite E. repeat split; assumption.
Qed.

Lemma firstn_closed_left {A : Type} (n : nat) (l1 l2 : list A) (x y : A) :
  List.NoDup (l1 ++ l2) -> In x l1 -> In y l2 ->
  In y (firstn n (l1 ++ l2)) -> In x (firstn n (l1 ++ l2)).
Proof.
  intros Hnd Hx Hy Hin.
  rewrite firstn_app in *.
  apply in_app_or in Hin as [Hin|Hin].
  - exfalso.
    assert (In y l1) as Hy1.
    { rewrite <- (firstn_skipn n l1). apply in_or_app. left. exact Hin. }
    apply NoDup_ListNoDup, NoDup_app in Hnd as (_ & Hdisj & _).
    apply (Hdisj y); apply list_elem_of_In; assumption.
  - apply in_or_app. left.
    destruct (Nat.le_gt_cases (List.length l1) n) as [Hle|Hgt].
    + rewrite firstn_all2 by exact Hle. exact Hx.
    + exfalso. replace (n - List.length l1)%nat with 0%nat in Hin by lia.
      simpl in Hin. exact Hin.
Qed.

Lemma explain_topics_keys (texts vocab : list string) :
  map fst (explain_topics texts vocab) =
  map fst (most_common 5 (count_topics texts vocab)).
Proof.
  unfold explain_topics. rewrite map_map. reflexivity.
Qed.

Lemma sort_desc_NoDup (counter : Counter) :
  List.NoDup (map fst counter) -> List.NoDup (sort_desc counter).
Proof.
  intros H. apply NoDup_map_inv in H.
  eapply Permutation_NoDup; [|exact H].
  symmetry. apply sort_desc_Permutation.
Qed.

(** C9, as stated, fails: "profit" is the last word of the news vocabulary
    and "surge" the fifth, both are counted once, and "profit" is kept
    while "surge" is dropped, because "profit" was found in an earlier
    text. *)
Lemma tie_not_broken_by_vocabulary_order :
  ~ (forall (texts vocab earlier later : list string) (w1 w2 : string),
        vocab = earlier ++ later -> In w1 earlier -> In w2 later ->
        counter_get w1 (count_topics texts vocab)
        = counter_get w2 (count_topics texts vocab) ->
        In w2 (map fst (explain_topics texts vocab)) ->
        In w1 (map fst (explain_topics texts vocab))).
Proof.
  intros H.
  specialize (H ["profit"; "ETF approval ban partnership surge"] news_vocab
                ["etf"; "approval"; "ban"; "partnership"; "surge"]
                ["drop"; "adoption"; "guidance"; "earnings"; "revenue"; "profit"]
                "surge" "profit").
  assert (In "surge"
             (map fst (explain_topics
                         ["profit"; "ETF approval ban partnership surge"]
                         news_vocab))) as Hin.
  { apply H.
    - reflexivity.
    - simpl. tauto.
    - simpl. tauto.
    - vm_compute. reflexivity.
    - vm_compute. tauto. }
  vm_compute in Hin.
  repeat (destruct Hin as [Hin|Hin]; [discriminate Hin|]).
  exact Hin.
Qed.

(** C9, amended: the kept words are as many as were counted, up to five,
    each a counted word and none twice; a kept word has a count at least
    that of every counted word that is not kept; among words of equal count
    the one entered earlier in the counter is preferred, and the counter
    holds the words in the order they were first found (text after text, in
    vocabulary order within one text) -- not in the order of the vocabulary
    across texts, and not alphabetically. *)
Theorem top_topics_highest_first_found (texts vocab : list string) :
  List.length (explain_topics texts vocab)
  = Nat.min 5 (List.length (count_topics texts vocab))
  /\ List.NoDup (map fst (explain_topics texts vocab))
  /\ (forall w : string,
        In w (map fst (explain_topics texts vocab)) ->
        In w vocab /\ (1 <= counter_get w (count_topics texts vocab))%nat)
  /\ (forall w1 w2 : string,
        In w1 (map fst (explain_topics texts vocab)) ->
        In w2 (map fst (count_topics texts vocab)) ->
        ~ In w2 (map fst (explain_topics texts vocab)) ->
        (counter_get w2 (count_topics texts vocab)
         <= counter_get w1 (count_topics texts vocab))%nat)
  /\ (forall (before after : Counter) (w1 w2 : string) (c : nat),
        count_topics texts vocab = before ++ after ->
        In (w1, c) before -> In (w2, c) after ->
        In w2 (map fst (explain_topics texts vocab)) ->
        In w1 (map fst (explain_topics texts vocab)))
  /\ map fst (count_topics texts vocab) = first_seen (hits texts vocab).
Proof.
  pose proof (count_topics_NoDup texts vocab) as Hkeys.
  pose proof (sort_desc_Permutation (count_topics texts vocab)) as Hperm.
  pose proof (sort_desc_NoDup _ Hkeys) as Hnd.
  split; [|split; [|split; [|split; [|split]]]].
  - unfold explain_topics, most_common.
    rewrite length_map, length_firstn, (Permutation_length Hperm). reflexivity.
  - rewrite explain_topics_keys. unfold most_common.
    assert (List.NoDup (map fst (sort_desc (count_topics texts vocab)))) as Hsk.
    { eapply Permutation_NoDup; [|exact Hkeys].
      apply Permutation_map, Permutation_sym, Hperm. }
    rewrite <- (firstn_skipn 5 (sort_desc (count_topics texts vocab))) in Hsk.
    rewrite map_app in Hsk. apply NoDup_app_remove_r in Hsk. exact Hsk.
  - intros w Hw.
    rewrite explain_topics_keys in Hw.
    apply in_map_iff in Hw as [[w' c] [E Hw]]. simpl in E. subst w'.
    apply most_common_In in Hw.
    pose proof (counter_get_In w c _ Hkeys Hw) as Hget.
    pose proof (count_topics_positive texts vocab) as Hpos.
    rewrite List.Forall_forall in Hpos. specialize (Hpos _ Hw). simpl in Hpos.
    rewrite Hget. split; [|exact Hpos].
    apply listed_positive_In with (vocab := vocab).
    pose proof (counter_get_count_topics w texts vocab) as Hc.
    rewrite Hget in Hc.
    destruct (listed w vocab); [simpl in Hc; lia|lia].
  - intros w1 w2 H1 H2 Hnot.
    rewrite explain_topics_keys in H1, Hnot.
    apply in_map_iff in H1 as [[w1' c1] [E1 H1]]. simpl in E1. subst w1'.
    apply in_map_iff in H2 as [[w2' c2] [E2 H2]]. simpl in E2. subst w2'.
    rewrite (counter_get_In w1 c1 _ Hkeys (most_common_In _ _ _ H1)).
    rewrite (counter_get_In w2 c2 _ Hkeys H2).
    unfold most_common in *.
    assert (In (w2, c2) (skipn 5 (sort_desc (count_topics texts vocab)))) as H2'.
    { apply (Permutation_in _ (Permutation_sym Hperm)) in H2.
      rewrite <- (firstn_skipn 5 (sort_desc (count_topics texts vocab))) in H2.
      apply in_app_or in H2 as [H2|H2]; [|exact H2].
      exfalso. apply Hnot. apply (in_map fst) in H2. exact H2. }
    pose proof (sort_desc_sorted (count_topics texts vocab)) as Hsorted.
    rewrite <- (firstn_skipn 5 (sort_desc (count_topics texts vocab))) in Hsorted.
    apply (StronglySorted_app_1_elem_of _ _ _ (w1, c1) (w2, c2)) in Hsorted;
      [exact Hsorted| |]; apply list_elem_of_In; assumption.
  - intros before after w1 w2 c Hsplit Hb Ha Hkept.
    rewrite explain_topics_keys in *.
    apply in_map_iff in Hkept as [[w2' c2] [E2 Hkept]]. simpl in E2. subst w2'.
    assert (c2 = c) as ->.
    { rewrite <- (counter_get_In w2 c2 _ Hkeys (most_common_In _ _ _ Hkept)).
      apply counter_get_In; [exact Hkeys|].
      rewrite Hsplit. apply in_or_app. right. exact Ha. }
    apply in_map_iff. exists (w1, c). split; [reflexivity|].
    unfold most_common in *.
    assert (List.filter (fun y => snd y =? c)%nat
                        (sort_desc (count_topics texts vocab))
            = List.filter (fun y => snd y =? c)%nat before
              ++ List.filter (fun y => snd y =? c)%nat after) as Hst
      by (rewrite sort_desc_stable, Hsplit, List.filter_app; reflexivity).
    apply filter_split in Hst as (s1 & s2 & Hs & F1 & F2).
    rewrite Hs in *.
    apply firstn_closed_left with (y := (w2, c)); [exact Hnd| | |exact Hkept].
    + assert (In (w1, c) (List.filter (fun y => snd y =? c)%nat s1)) as H
        by (rewrite F1; apply filter_In; split; [exact Hb|apply Nat.eqb_refl]).
      apply filter_In in H as [H _]. exact H.
    + assert (In (w2, c) (List.filter (fun y => snd y =? c)%nat s2)) as H
        by (rewrite F2; apply filter_In; split; [exact Ha|apply Nat.eqb_refl]).
      apply filter_In in H as [H _]. exact H.
  - apply count_topics_key_order.
Qed.

Lemma top_topics_highest_first_found_witness :
  In "etf" (map fst (explain_topics
                       ["Profit warning"; "ETF approval ban partnership surge"]
                       news_vocab))
  /\ (counter_get "surge" (count_topics
                             ["Profit warning"; "ETF approval ban partnership surge"]
                             news_vocab)
      <= counter_get "etf" (count_topics
                              ["Profit warning"; "ETF approval ban partnership surge"]
                              news_vocab))%nat
  /\ In "profit" (map fst (explain_topics
                             ["Profit warning"; "ETF approval ban partnership surge"]
                             news_vocab))
  /\ (1 <= counter_get "etf" (count_topics
                                ["Profit warning"; "ETF approval ban partnership surge"]
                                news_vocab))%nat.
Proof.
  pose proof (top_topics_highest_first_found
                ["Profit warning"; "ETF approval ban partnership surge"]
                news_vocab) as (_ & _ & Hcounted & Hhigh & Htie & _).
  assert (In "etf" (map fst (explain_topics
                               ["Profit warning"; "ETF approval ban partnership surge"]
                               news_vocab))) as Hetf
    by (vm_compute; tauto).
  split; [exact Hetf|]. split; [|split].
  - apply Hhigh; [exact Hetf|vm_compute; tauto|].
    vm_compute. intros H.
    repeat (destruct H as [H|H]; [discriminate H|]). exact H.
  - apply (Htie [("profit", 1%nat)]
                [("etf", 1%nat); ("approval", 1%nat); ("ban", 1%nat);
                 ("partnership", 1%nat); ("surge", 1%nat)]
                "profit" "etf" 1%nat).
    + vm_compute. reflexivity.
    + left. reflexivity.
    + left. reflexivity.
    + exact Hetf.
  - exact (proj2 (Hcounted "etf" Hetf)).
Defined.

(* ===================================================================== *)
(** * Properties of the baseline tracker *)
(* ===================================================================== *)

Lemma abs_opp (c : float) : abs (- c)%float = abs c.
Proof.
  apply Prim2SF_inj. rewrite !FloatAxioms.abs_spec, FloatAxioms.opp_spec.
  destruct (Prim2SF c); reflexivity.
Qed.

(** C10: with the baseline of the symbol set, [get_cumulative_change]
    returns the value of [(current_price - baseline) / baseline] (a raise
    when that division raises) and leaves every global as it was; without
    a baseline it seeds the baseline with the price it was given, returns
    0 and changes nothing else; [reset_baseline] sets the baseline and the
    last-alert time of the symbol and nothing else. *)
Theorem get_cumulative_change_frame (symbol : string) (current_price : float)
    (st : State) :
  (forall baseline : float,
      BASELINE_PRICES st !! symbol = Some baseline ->
      get_cumulative_change symbol current_price st
      = (py_truediv (current_price - baseline)%float baseline, st)
      /\ (PrimFloat.eqb baseline 0 = false ->
          get_cumulative_change symbol current_price st
          = (Ok ((current_price - baseline) / baseline)%float, st)))
  /\ (BASELINE_PRICES st !! symbol = None ->
      get_cumulative_change symbol current_price st
      = (Ok 0%float,
         {| LAST_ALERT := LAST_ALERT st;
            BASELINE_PRICES := <[symbol := current_price]> (BASELINE_PRICES st);
            LATEST_ANALYSIS := LATEST_ANALYSIS st;
            emitted := emitted st;
            exported := exported st |}))
  /\ (forall (price : float) (now : timestamp),
      reset_baseline symbol price now st
      = (Ok tt,
         {| LAST_ALERT := <["price_" +:+ symbol := now]> (LAST_ALERT st);
            BASELINE_PRICES := <[symbol := price]> (BASELINE_PRICES st);
            LATEST_ANALYSIS := LATEST_ANALYSIS st;
            emitted := emitted st;
            exported := exported st |})).
Proof.
  split; [|split].
  - intros baseline Hb.
    assert (get_cumulative_change symbol current_price st
            = (py_truediv (current_price - baseline)%float baseline, st)) as E.
    { unfold get_cumulative_change, bind, get_state, lift. rewrite Hb.
      reflexivity. }
    split; [exact E|].
    intros Hnz. rewrite E. unfold py_truediv. rewrite Hnz. reflexivity.
  - intros Hb. unfold get_cumulative_change, bind, get_state.
    rewrite Hb. reflexivity.
  - intros price now. reflexivity.
Qed.

Lemma get_cumulative_change_frame_witness :
  get_cumulative_change "AAPL" 100.6%float (state_with_baseline "AAPL" 100%float)
  = (Ok 0.0059999999999999429%float, state_with_baseline "AAPL" 100%float)
  /\ BASELINE_PRICES
       (snd (get_cumulative_change "AAPL" 100%float empty_state)) !! "AAPL"
     = Some 100%float.
Proof.
  split.
  - destruct (get_cumulative_change_frame
                "AAPL" 100.6%float (state_with_baseline "AAPL" 100%float))
      as (Hset & _ & _).
    destruct (Hset 100%float ltac:(reflexivity)) as [_ Hnz].
    rewrite Hnz by reflexivity.
    f_equal.
  - destruct (get_cumulative_change_frame "AAPL" 100%float empty_state)
      as (_ & Hunset & _).
    rewrite Hunset by reflexivity. reflexivity.
Defined.

(** C5: for a symbol with baseline [b] and a quote [p], the price step
    evaluates [change = (p - b) / b]; an alert is emitted exactly when
    [abs change >= PRICE_THRESH], whatever the sign of the change; the
    alert's direction is up when [change > 0] and down otherwise; and the
    stored baseline becomes [p] itself, while the alert carries the
    2-decimal roundings. *)
Theorem price_alert_rule (cfg : Config) (now : timestamp) (symbol : string)
    (price_data : PriceData) (st : State) (b : float) :
  BASELINE_PRICES st !! symbol = Some b ->
  match py_truediv (pd_price price_data - b)%float b with
  | Ok change =>
      if (PRICE_THRESH cfg <=? abs change)%float
      then
        price_step cfg now (symbol, price_data) st
        = (Ok tt,
           {| LAST_ALERT := <["price_" +:+ symbol := now]> (LAST_ALERT st);
              BASELINE_PRICES :=
                <[symbol := pd_price price_data]> (BASELINE_PRICES st);
              LATEST_ANALYSIS := LATEST_ANALYSIS st;
              emitted :=
                emitted st ++
                [{| alert_symbol := symbol;
                    alert_direction := if (0 <? change)%float then Up else Down;
                    alert_change_pct := py_round (change * 100)%float 2;
                    alert_price := py_round (pd_price price_data) 2;
                    alert_prev_close := py_round b 2;
                    alert_ts := now;
                    alert_trading_date := pd_trading_date price_data |}];
              exported := exported st |})
      else price_step cfg now (symbol, price_data) st = (Ok tt, st)
  | Raise e => price_step cfg now (symbol, price_data) st = (Raise e, st)
  end
  /\ (forall change threshold : float,
        should_alert_price symbol (- change)%float threshold
        = should_alert_price symbol change threshold).
Proof.
  intros Hb. split.
  - unfold price_step, get_cumulative_change, bind, get_state, lift. simpl.
    rewrite Hb.
    destruct (py_truediv (pd_price price_data - b)%float b) as [change|e];
      [|reflexivity].
    rewrite Hb. unfold should_alert_price.
    destruct (PRICE_THRESH cfg <=? abs change)%float; reflexivity.
  - intros change threshold. unfold should_alert_price.
    rewrite abs_opp. reflexivity.
Qed.

Lemma price_alert_rule_witness :
  BASELINE_PRICES (state_with_baseline "AAPL" 100%float) !! "AAPL" = Some 100%float
  /\ price_step (default_config ["AAPL"]) 7%Z ("AAPL", quote 101.126%float)
                (state_with_baseline "AAPL" 100%float)
     = (Ok tt,
        {| LAST_ALERT := {[ "price_AAPL" := 7%Z ]};
           BASELINE_PRICES := <["AAPL" := 101.126%float]> {[ "AAPL" := 100%float ]};
           LATEST_ANALYSIS := ∅;
           emitted := [{| alert_symbol := "AAPL"; alert_direction := Up;
                          alert_change_pct := 1.13%float;
                          alert_price := 101.13%float;
                          alert_prev_close := 100%float;
                          alert_ts := 7%Z;
                          alert_trading_date := "2025-01-02 Thu" |}];
           exported := None |})
  /\ price_step (default_config ["AAPL"]) 7%Z ("AAPL", quote 100.4%float)
                (state_with_baseline "AAPL" 100%float)
     = (Ok tt, state_with_baseline "AAPL" 100%float).
Proof.
  split; [reflexivity|]. split.
  - exact (proj1 (price_alert_rule (default_config ["AAPL"]) 7%Z "AAPL"
                    (quote 101.126%float) (state_with_baseline "AAPL" 100%float)
                    100%float eq_refl)).
  - exact (proj1 (price_alert_rule (default_config ["AAPL"]) 7%Z "AAPL"
                    (quote 100.4%float) (state_with_baseline "AAPL" 100%float)
                    100%float eq_refl)).
Defined.

(** The example of the spec: prices 100 then 100.6 with threshold 0.005. *)
Example first_observation_then_alert :
  let cfg := default_config ["AAPL"] in
  let first := price_step cfg 1%Z ("AAPL", quote 100%float) empty_state in
  let second := price_step cfg 2%Z ("AAPL", quote 100.6%float) (snd first) in
  fst first = Ok tt
  /\ emitted (snd first) = []
  /\ BASELINE_PRICES (snd first) !! "AAPL" = Some 100%float
  /\ fst second = Ok tt
  /\ map alert_direction (emitted (snd second)) = [Up]
  /\ map alert_change_pct (emitted (snd second)) = [0.6%float]
  /\ BASELINE_PRICES (snd second) !! "AAPL" = Some 100.6%float.
Proof. vm_compute. repeat split. Qed.

(* ===================================================================== *)
(** * Properties of the monitoring cycle *)
(* ===================================================================== *)

Lemma preserves_ret {A : Type} (P : State -> Prop) (a : A) : preserves P (ret a).
Proof. intros st H. exact H. Qed.

Lemma preserves_lift {A : Type} (P : State -> Prop) (r : result A) :
  preserves P (lift r).
Proof. intros st H. exact H. Qed.

Lemma preserves_get_state (P : State -> Prop) : preserves P get_state.
Proof. intros st H. exact H. Qed.

Lemma preserves_bind {A B : Type} (P : State -> Prop) (m : M A) (k : A -> M B) :
  preserves P m -> (forall a, preserves P (k a)) -> preserves P (bind m k).
Proof.
  intros Hm Hk st H. unfold bind.
  specialize (Hm st H).
  destruct (m st) as [[a|e] st']; simpl in *.
  - apply Hk. exact Hm.
  - exact Hm.
Qed.

Lemma preserves_for_each {A : Type} (P : State -> Prop) (body : A -> M unit)
    (l : list A) :
  (forall x, In x l -> preserves P (body x)) -> preserves P (for_each body l).
Proof.
  induction l as [|x l IH]; intros Hbody; simpl.
  - apply preserves_ret.
  - apply preserves_bind.
    + apply Hbody. left. reflexivity.
    + intros _. apply IH. intros y Hy. apply Hbody. right. exact Hy.
Qed.

Create HintDb frame.
#[local] Hint Resolve preserves_ret preserves_lift preserves_get_state : frame.

(** What the tracker writes does not reach [LATEST_ANALYSIS]. *)
Lemma set_baseline_latest (Q : gmap string Snapshot -> Prop) (symbol : string)
    (p : float) :
  preserves (fun st => Q (LATEST_ANALYSIS st)) (set_baseline symbol p).
Proof. intros st H. exact H. Qed.

Lemma set_last_alert_latest (Q : gmap string Snapshot -> Prop) (key : string)
    (now : timestamp) :
  preserves (fun st => Q (LATEST_ANALYSIS st)) (set_last_alert key now).
Proof. intros st H. exact H. Qed.

Lemma emit_latest (Q : gmap string Snapshot -> Prop) (alert : PriceAlert) :
  preserves (fun st => Q (LATEST_ANALYSIS st)) (emit alert).
Proof. intros st H. exact H. Qed.

Lemma export_latest (Q : gmap string Snapshot -> Prop) (now : timestamp) :
  preserves (fun st => Q (LATEST_ANALYSIS st)) (export_to_json now).
Proof. intros st H. exact H. Qed.

#[local] Hint Resolve set_baseline_latest set_last_alert_latest emit_latest
  export_latest : frame.

Lemma get_cumulative_change_latest (Q : gmap string Snapshot -> Prop)
    (symbol : string) (p : float) :
  preserves (fun st => Q (LATEST_ANALYSIS st)) (get_cumulative_change symbol p).
Proof.
  unfold get_cumulative_change.
  apply preserves_bind; [auto with frame|].
  intros st. destruct (BASELINE_PRICES st !! symbol).
  - auto with frame.
  - apply preserves_bind; auto with frame.
Qed.

Lemma price_step_latest (Q : gmap string Snapshot -> Prop) (cfg : Config)
    (now : timestamp) (item : string * PriceData) :
  preserves (fun st => Q (LATEST_ANALYSIS st)) (price_step cfg now item).
Proof.
  unfold price_step.
  apply preserves_bind; [apply get_cumulative_change_latest|].
  intros change. apply preserves_bind; [auto with frame|].
  intros st.
  destruct (should_alert_price (fst item) change (PRICE_THRESH cfg));
    [|auto with frame].
  apply preserves_bind; [auto with frame|].
  intros _. unfold reset_baseline.
  apply preserves_bind; auto with frame.
Qed.

Lemma analyze_absent (finbert : FinBERT) (symbol : string)
    (news_titles reddit_texts : list string) (buy sell : R) :
  batch_score_texts finbert news_titles ++ batch_score_texts finbert reddit_texts = [] ->
  analyze finbert symbol news_titles reddit_texts buy sell = None.
Proof.
  intros H. unfold analyze. rewrite H. reflexivity.
Qed.

Lemma batch_score_texts_length (finbert : FinBERT) (texts : list string) :
  List.length (batch_score_texts finbert texts) = List.length texts.
Proof.
  unfold batch_score_texts. destruct texts as [|t texts]; [reflexivity|].
  rewrite length_map, length_seq. reflexivity.
Qed.

Lemma sentiment_step_absent (P : State -> Prop) (now : timestamp)
    (prices : list (string * PriceData))
    (item : string * (option Analysis * list string * list string)) :
  fst (fst (snd item)) = None -> preserves P (sentiment_step now prices item).
Proof.
  intros H. unfold sentiment_step. rewrite H. apply preserves_ret.
Qed.

Lemma sentiment_step_other (symbol : string) (v : option Snapshot)
    (now : timestamp) (prices : list (string * PriceData))
    (item : string * (option Analysis * list string * list string)) :
  fst item <> symbol ->
  preserves (fun st => LATEST_ANALYSIS st !! symbol = v)
            (sentiment_step now prices item).
Proof.
  intros Hne. unfold sentiment_step.
  destruct (fst (fst (snd item))) as [result|]; [|apply preserves_ret].
  apply preserves_bind.
  - apply (get_cumulative_change_latest (fun la => la !! symbol = v)).
  - intros change st H. unfold set_latest_analysis. simpl.
    rewrite lookup_insert_ne by exact Hne. exact H.
Qed.

(** C7: when the combined score sequence is empty (which is when there is
    neither a headline nor a post) [analyze] returns no result, and a cycle
    in which that happens for every position of a symbol in the watch list
    leaves the stored snapshot of that symbol exactly as it was, whether
    the cycle completes or raises. *)
Theorem empty_batch_keeps_snapshot (cfg : Config) (finbert : FinBERT) :
  (forall (symbol : string) (news_titles reddit_texts : list string) (buy sell : R),
      batch_score_texts finbert news_titles ++ batch_score_texts finbert reddit_texts = []
      <-> news_titles = [] /\ reddit_texts = [])
  /\ (forall (symbol : string) (news_titles reddit_texts : list string) (buy sell : R),
      batch_score_texts finbert news_titles ++ batch_score_texts finbert reddit_texts = [] ->
      analyze finbert symbol news_titles reddit_texts buy sell = None)
  /\ (forall (now : timestamp) (prices : list (string * PriceData))
             (fetch : nat -> list string * list string) (symbol : string)
             (st : State),
      (forall i : nat,
          WATCH cfg !! i = Some symbol ->
          batch_score_texts finbert (fst (fetch i))
          ++ batch_score_texts finbert (snd (fetch i)) = []) ->
      LATEST_ANALYSIS (snd (run_cycle_async cfg finbert now prices fetch st)) !! symbol
      = LATEST_ANALYSIS st !! symbol).
Proof.
  split; [|split].
  - intros _ news_titles reddit_texts _ _. split.
    + intros H. apply (f_equal (@List.length R)) in H.
      rewrite length_app, !batch_score_texts_length in H. simpl in H.
      destruct news_titles, reddit_texts; simpl in H; try lia. split; reflexivity.
    + intros [-> ->]. reflexivity.
  - intros symbol news_titles reddit_texts buy sell. apply analyze_absent.
  - intros now prices fetch symbol st Hempty.
    assert (preserves (fun st' => LATEST_ANALYSIS st' !! symbol
                                  = LATEST_ANALYSIS st !! symbol)
                      (run_cycle_async cfg finbert now prices fetch)) as Hcycle;
      [|exact (Hcycle st eq_refl)].
    unfold run_cycle_async.
    apply preserves_bind.
    { apply preserves_for_each. intros item _.
      apply (price_step_latest
               (fun la => la !! symbol = LATEST_ANALYSIS st !! symbol)). }
    intros _. apply preserves_bind.
    { apply preserves_for_each. intros item Hin.
      apply list_elem_of_In, elem_of_lookup_imap in Hin as (i & s & -> & Hi).
      destruct (String.eqb s symbol) eqn:E.
      - apply String.eqb_eq in E. subst s.
        apply sentiment_step_absent. simpl.
        apply analyze_absent, Hempty, Hi.
      - apply sentiment_step_other. simpl. intros ->.
        rewrite String.eqb_refl in E. discriminate E. }
    intros _.
    apply (export_latest (fun la => la !! symbol = LATEST_ANALYSIS st !! symbol)).
Qed.

Lemma empty_batch_keeps_snapshot_witness :
  LATEST_ANALYSIS
    (snd (run_cycle_async (default_config ["AAPL"; "MSFT"]) constant_model 5%Z
            [("AAPL", quote 101%float); ("MSFT", quote 400%float)]
            fetch_first_empty
            (state_with_snapshot "AAPL" sample_snapshot))) !! "AAPL"
  = Some sample_snapshot.
Proof.
  rewrite (proj2 (proj2 (empty_batch_keeps_snapshot
                           (default_config ["AAPL"; "MSFT"]) constant_model))).
  - reflexivity.
  - intros [|[|i]] Hi.
    + reflexivity.
    + discriminate Hi.
    + discriminate Hi.
Defined.

(* ===================================================================== *)
(** * Properties of the sentiment aggregator *)
(* ===================================================================== *)

Local Open Scope R_scope.

Lemma fold_left_Rplus (scores : list R) (a : R) :
  fold_left Rplus scores a = a + fold_right Rplus 0 scores.
Proof.
  revert a. induction scores as [|s scores IH]; intros a; simpl.
  - lra.
  - rewrite IH. lra.
Qed.

Lemma avg_sentiment_is_mean (scores : list R) :
  avg_sentiment_of scores = mean scores.
Proof.
  unfold avg_sentiment_of, mean, py_sum. rewrite fold_left_Rplus.
  f_equal. lra.
Qed.

Lemma base_confidence_is_spec (scores : list R) :
  base_confidence_of scores = spec_base_confidence (mean scores).
Proof.
  unfold base_confidence_of, spec_base_confidence, sigmoid.
  rewrite avg_sentiment_is_mean.
  replace (- (2.0 * mean scores)) with (-2.0 * mean scores) by lra.
  reflexivity.
Qed.

Lemma reliability_is_spec (n : nat) : reliability_of n = spec_reliability n.
Proof.
  unfold reliability_of, spec_reliability.
  rewrite plus_INR. simpl (INR 1).
  replace 1.0 with 1 by lra. reflexivity.
Qed.

Lemma final_confidence_is_spec (scores : list R) :
  final_confidence_of scores = spec_final_confidence scores.
Proof.
  unfold final_confidence_of, spec_final_confidence.
  rewrite base_confidence_is_spec, reliability_is_spec. reflexivity.
Qed.

(** What [analyze] returns when there is at least one score. *)
Lemma analyze_present (finbert : FinBERT) (symbol : string)
    (news_titles reddit_texts : list string) (buy sell : R) :
  let all_scores :=
    (batch_score_texts finbert news_titles
     ++ batch_score_texts finbert reddit_texts)%list in
  all_scores <> [] ->
  analyze finbert symbol news_titles reddit_texts buy sell
  = Some {| decision := decision_of (final_confidence_of all_scores) buy sell;
            confidence := Rround (final_confidence_of all_scores * 100) 1;
            news_count := List.length news_titles;
            reddit_count := List.length reddit_texts;
            total_analyzed := List.length all_scores;
            positive := count_if is_positive all_scores;
            negative := count_if is_negative all_scores;
            avg_sentiment := Rround (avg_sentiment_of all_scores) 3;
            news_topics := explain_topics news_titles news_vocab;
            reddit_topics := explain_topics reddit_texts reddit_vocab;
            sample_titles := firstn 3 news_titles |}.
Proof.
  intros all_scores Hne. unfold analyze. fold all_scores.
  destruct all_scores as [|s rest]; [contradiction|reflexivity].
Qed.

(** C2: on a non-empty score list the aggregator's average, base
    confidence, reliability and final confidence are the formulas of the
    spec; the reliability multiplies the deviation of the base confidence
    from 0.5 only; and the decision and the confidence of the result are
    computed from that final confidence. *)
Theorem confidence_formula (finbert : FinBERT) (symbol : string)
    (news_titles reddit_texts : list string) (buy sell : R) :
  let all_scores :=
    (batch_score_texts finbert news_titles
     ++ batch_score_texts finbert reddit_texts)%list in
  all_scores <> [] ->
  avg_sentiment_of all_scores = mean all_scores
  /\ base_confidence_of all_scores = 1 / (1 + exp (-2.0 * mean all_scores))
  /\ reliability_of (List.length all_scores)
     = Rmin 1 (ln (1 + INR (List.length all_scores)) / ln 51)
  /\ final_confidence_of all_scores
     = 0.5 + (base_confidence_of all_scores - 0.5)
             * reliability_of (List.length all_scores)
  /\ final_confidence_of all_scores = spec_final_confidence all_scores
  /\ final_confidence_of all_scores - 0.5
     = (base_confidence_of all_scores - 0.5)
       * reliability_of (List.length all_scores)
  /\ exists result : Analysis,
       analyze finbert symbol news_titles reddit_texts buy sell = Some result
       /\ decision result = decision_of (spec_final_confidence all_scores) buy sell
       /\ confidence result = Rround (spec_final_confidence all_scores * 100) 1
       /\ avg_sentiment result = Rround (mean all_scores) 3.
Proof.
  intros all_scores Hne.
  split; [apply avg_sentiment_is_mean|].
  split; [apply base_confidence_is_spec|].
  split; [apply reliability_is_spec|].
  split; [reflexivity|].
  split; [apply final_confidence_is_spec|].
  split; [unfold final_confidence_of; lra|].
  eexists. split; [apply analyze_present; exact Hne|]. simpl.
  fold all_scores.
  rewrite final_confidence_is_spec, avg_sentiment_is_mean.
  repeat split.
Qed.

Lemma confidence_formula_witness :
  exists result : Analysis,
    analyze constant_model "AAPL" ["Apple surge"; "Apple earnings"] ["to the moon"]
            0.65 0.35 = Some result
    /\ decision result
       = decision_of (spec_final_confidence [0.9 - 0.05; 0.9 - 0.05; 0.9 - 0.05])
                     0.65 0.35.
Proof.
  destruct (confidence_formula constant_model "AAPL"
              ["Apple surge"; "Apple earnings"] ["to the moon"] 0.65 0.35)
    as (_ & _ & _ & _ & _ & _ & result & Hresult & Hdecision & _).
  - simpl. discriminate.
  - exists result. split; [exact Hresult|exact Hdecision].
Defined.

(** C6: on a non-empty score list and for any two thresholds the decision
    of the result is BUY exactly when [final_confidence >= buy], SELL
    exactly when that fails and [final_confidence <= sell], and HOLD
    exactly when both fail; so BUY wins at [final_confidence = buy] and
    SELL applies at [final_confidence = sell] when BUY does not. *)
Theorem decision_partition (finbert : FinBERT) (symbol : string)
    (news_titles reddit_texts : list string) (buy sell : R) :
  let all_scores :=
    (batch_score_texts finbert news_titles
     ++ batch_score_texts finbert reddit_texts)%list in
  let final_confidence := final_confidence_of all_scores in
  all_scores <> [] ->
  exists result : Analysis,
    analyze finbert symbol news_titles reddit_texts buy sell = Some result
    /\ (decision result = BUY <-> final_confidence >= buy)
    /\ (decision result = SELL <->
        ~ final_confidence >= buy /\ final_confidence <= sell)
    /\ (decision result = HOLD <->
        ~ final_confidence >= buy /\ ~ final_confidence <= sell)
    /\ (final_confidence = buy -> decision result = BUY)
    /\ (final_confidence = sell -> sell < buy -> decision result = SELL).
Proof.
  intros all_scores final_confidence Hne.
  eexists. split; [apply analyze_present; exact Hne|]. simpl.
  fold all_scores. fold final_confidence. unfold decision_of.
  destruct (Rge_dec final_confidence buy) as [Hb|Hb];
    [|destruct (Rle_dec final_confidence sell) as [Hs|Hs]].
  - repeat split; try discriminate; try tauto. intros Heq Hlt. lra.
  - repeat split; try discriminate; try tauto. intros Heq. lra.
  - repeat split; try discriminate; try tauto.
    + intros Heq. lra.
    + intros Heq. lra.
Qed.

Lemma decision_partition_witness :
  exists result : Analysis,
    analyze constant_model "AAPL" ["Apple surge"] [] 0.65 0.35 = Some result
    /\ (decision result = BUY <-> final_confidence_of [0.9 - 0.05] >= 0.65).
Proof.
  destruct (decision_partition constant_model "AAPL" ["Apple surge"] [] 0.65 0.35)
    as (result & Hresult & Hbuy & _).
  - simpl. discriminate.
  - exists result. split; [exact Hresult|exact Hbuy].
Defined.

(** ** Reliability and the pull toward 0.5 *)

Lemma ln_51_pos : 0 < ln 51.
Proof. rewrite <- ln_1. apply ln_increasing; lra. Qed.

Lemma INR_succ_pos (n : nat) : 1 <= INR (1 + n).
Proof.
  rewrite plus_INR. simpl (INR 1). pose proof (pos_INR n). lra.
Qed.

Lemma INR_51 : INR 51 = 51.
Proof. rewrite INR_IZR_INZ. reflexivity. Qed.

(** Below 50 samples the reliability is the ratio of logarithms. *)
Lemma reliability_below_50 (n : nat) :
  (n < 50)%nat ->
  reliability_of n = ln (INR (1 + n)) / ln 51 /\ reliability_of n < 1.
Proof.
  intros Hn. pose proof ln_51_pos as H51. pose proof (INR_succ_pos n) as Hpos.
  assert (ln (INR (1 + n)) / ln 51 < 1) as Hlt.
  { apply (Rmult_lt_reg_r (ln 51)); [exact H51|].
    unfold Rdiv. rewrite Rmult_assoc, Rinv_l, Rmult_1_r, Rmult_1_l by lra.
    apply ln_increasing; [lra|].
    rewrite <- INR_51. apply lt_INR. lia. }
  unfold reliability_of. rewrite Rmin_right by lra. split; [reflexivity|exact Hlt].
Qed.

(** From 50 samples on the reliability is 1. *)
Lemma reliability_saturated (n : nat) : (50 <= n)%nat -> reliability_of n = 1.
Proof.
  intros Hn. pose proof ln_51_pos as H51.
  assert (1 <= ln (INR (1 + n)) / ln 51) as Hge.
  { apply (Rmult_le_reg_r (ln 51)); [exact H51|].
    unfold Rdiv. rewrite Rmult_assoc, Rinv_l, Rmult_1_r, Rmult_1_l by lra.
    assert (51 <= INR (1 + n)) as Hle
      by (rewrite <- INR_51; apply le_INR; lia).
    destruct Hle as [Hlt|Heq].
    - left. apply ln_increasing; lra.
    - right. rewrite Heq. reflexivity. }
  unfold reliability_of. rewrite Rmin_left by lra. lra.
Qed.

Lemma reliability_pos (n : nat) : (1 <= n)%nat -> 0 < reliability_of n.
Proof.
  intros Hn. pose proof ln_51_pos as H51.
  unfold reliability_of. apply Rmin_glb_lt; [lra|].
  apply Rdiv_lt_0_compat; [|exact H51].
  rewrite <- ln_1. apply ln_increasing; [lra|].
  rewrite plus_INR. simpl (INR 1).
  assert (1 <= INR n) by (change 1 with (INR 1); apply le_INR; exact Hn).
  lra.
Qed.

Lemma reliability_strictly_increasing (n1 n2 : nat) :
  (n1 < n2)%nat -> (n1 < 50)%nat -> reliability_of n1 < reliability_of n2.
Proof.
  intros Hlt H50. pose proof ln_51_pos as H51.
  destruct (reliability_below_50 n1 H50) as [E1 Hlt1].
  destruct (Nat.lt_ge_cases n2 50) as [H2|H2].
  - destruct (reliability_below_50 n2 H2) as [E2 _].
    rewrite E1, E2. unfold Rdiv.
    apply Rmult_lt_compat_r; [apply Rinv_0_lt_compat; exact H51|].
    apply ln_increasing; [pose proof (INR_succ_pos n1); lra|].
    apply lt_INR. lia.
  - rewrite (reliability_saturated n2 H2). exact Hlt1.
Qed.

(** The base confidence is on the side of 0.5 given by the sign of the
    average. *)
Lemma sigmoid_above_half (x : R) : 0 < x -> 0.5 < sigmoid x.
Proof.
  intros Hx. unfold sigmoid.
  assert (exp (- x) < 1) as He by (rewrite <- exp_0; apply exp_increasing; lra).
  pose proof (exp_pos (- x)) as Hp.
  apply (Rmult_lt_reg_r (1 + exp (- x))); [lra|].
  unfold Rdiv. rewrite Rmult_assoc, Rinv_l by lra. lra.
Qed.

Lemma sigmoid_below_half (x : R) : x < 0 -> sigmoid x < 0.5.
Proof.
  intros Hx. unfold sigmoid.
  assert (1 < exp (- x)) as He by (rewrite <- exp_0; apply exp_increasing; lra).
  apply (Rmult_lt_reg_r (1 + exp (- x))); [lra|].
  unfold Rdiv. rewrite Rmult_assoc, Rinv_l by lra. lra.
Qed.

Lemma py_sum_repeat (x : R) (n : nat) : py_sum (repeat x n) = INR n * x.
Proof.
  unfold py_sum. rewrite fold_left_Rplus.
  induction n as [|n IH].
  - simpl. lra.
  - rewrite S_INR. simpl repeat. simpl fold_right.
    simpl in IH. lra.
Qed.

Lemma avg_sentiment_repeat (x : R) (n : nat) :
  (1 <= n)%nat -> avg_sentiment_of (repeat x n) = x.
Proof.
  intros Hn. unfold avg_sentiment_of.
  rewrite py_sum_repeat, repeat_length.
  assert (0 < INR n) by (apply lt_0_INR; lia).
  field. lra.
Qed.

Lemma final_confidence_saturated (scores : list R) :
  (50 <= List.length scores)%nat ->
  final_confidence_of scores = base_confidence_of scores.
Proof.
  intros H. unfold final_confidence_of.
  rewrite (reliability_saturated _ H). lra.
Qed.

Lemma final_confidence_repeat_08 (n : nat) :
  (50 <= n)%nat -> final_confidence_of (repeat 0.8 n) = sigmoid 1.6.
Proof.
  intros Hn.
  rewrite final_confidence_saturated by (rewrite repeat_length; exact Hn).
  unfold base_confidence_of.
  rewrite avg_sentiment_repeat by lia.
  f_equal. lra.
Qed.

Lemma avg_sentiment_pair : avg_sentiment_of [0.8; 0.9] = 0.85.
Proof.
  unfold avg_sentiment_of, py_sum. simpl. lra.
Qed.

Lemma sigmoid_lt_1 (x : R) : sigmoid x < 1.
Proof.
  unfold sigmoid. pose proof (exp_pos (- x)) as Hp.
  apply (Rmult_lt_reg_r (1 + exp (- x))); [lra|].
  unfold Rdiv. rewrite Rmult_assoc, Rinv_l by lra. lra.
Qed.

Lemma sigmoid_lower (x : R) : 3 < exp x -> 0.75 < sigmoid x.
Proof.
  intros H3. unfold sigmoid.
  assert (exp (- x) * exp x = 1) as Hinv
    by (rewrite <- exp_plus, Rplus_opp_l; apply exp_0).
  pose proof (exp_pos (- x)) as Hp.
  assert (exp (- x) < 1 / 3) as Hsmall by nra.
  apply (Rmult_lt_reg_r (1 + exp (- x))); [lra|].
  unfold Rdiv. rewrite Rmult_assoc, Rinv_l by lra. lra.
Qed.

Lemma sigmoid_16_above : 0.75 < sigmoid 1.6.
Proof.
  apply sigmoid_lower.
  replace 1.6 with (0.8 + 0.8) by lra. rewrite exp_plus.
  assert (1 + 0.8 < exp 0.8) as H by (apply exp_ineq1; lra).
  nra.
Qed.

Lemma reliability_2_below_half : reliability_of 2 < 0.5.
Proof.
  destruct (reliability_below_50 2 ltac:(lia)) as [E _]. rewrite E.
  pose proof ln_51_pos as H51.
  replace (INR (1 + 2)) with 3 by (simpl; lra).
  assert (ln 3 + ln 3 < ln 51) as H.
  { rewrite <- ln_mult by lra. apply ln_increasing; lra. }
  apply (Rmult_lt_reg_r (ln 51)); [exact H51|].
  unfold Rdiv. rewrite Rmult_assoc, Rinv_l by lra. lra.
Qed.

Lemma final_confidence_pair_below : final_confidence_of [0.8; 0.9] < 0.75.
Proof.
  unfold final_confidence_of, base_confidence_of.
  rewrite avg_sentiment_pair. simpl List.length.
  pose proof (sigmoid_lt_1 (2.0 * 0.85)) as H1.
  pose proof (sigmoid_above_half (2.0 * 0.85) ltac:(lra)) as H2.
  pose proof reliability_2_below_half as H3.
  pose proof (reliability_pos 2 ltac:(lia)) as H4.
  nra.
Qed.

(** C8, as stated, fails: the scores 0.8 and 0.9 average to 0.85 and not
    to 0.8, and the batch of fifty scores 0.8 has reliability 1, so its
    final confidence is the saturation value [sigmoid 1.6] itself, not a
    value strictly below it; nor does the confidence move between 51 and
    50 samples. *)
Lemma saturated_batch_not_below :
  avg_sentiment_of [0.8; 0.9] <> 0.8
  /\ ~ final_confidence_of (repeat 0.8 50) < sigmoid 1.6
  /\ final_confidence_of (repeat 0.8 50) = final_confidence_of (repeat 0.8 51).
Proof.
  split; [|split].
  - rewrite avg_sentiment_pair. lra.
  - rewrite final_confidence_repeat_08 by lia. lra.
  - rewrite !final_confidence_repeat_08 by lia. reflexivity.
Qed.

Lemma reliability_monotone (n1 n2 : nat) :
  (n1 <= n2)%nat -> reliability_of n1 <= reliability_of n2.
Proof.
  intros Hle. destruct (Nat.eq_dec n1 n2) as [->|Hne]; [lra|].
  destruct (Nat.lt_ge_cases n1 50) as [H50|H50].
  - left. apply reliability_strictly_increasing; lia.
  - rewrite !reliability_saturated by lia. lra.
Qed.

Lemma reliability_le_1 (n : nat) : reliability_of n <= 1.
Proof. unfold reliability_of. pose proof (Rmin_l 1.0 (ln (INR (1 + n)) / ln 51)). lra. Qed.

Lemma reliability_nonneg (n : nat) : 0 <= reliability_of n.
Proof.
  destruct n as [|n].
  - unfold reliability_of. simpl (INR (1 + 0)). rewrite ln_1.
    unfold Rdiv. rewrite Rmult_0_l. apply Rmin_glb; lra.
  - left. apply reliability_pos. lia.
Qed.

Lemma sigmoid_zero : sigmoid 0 = 0.5.
Proof. unfold sigmoid. rewrite Ropp_0, exp_0. lra. Qed.

(** The base confidence is on the side of 0.5 given by the sign of the
    average, and the weighting keeps it there. *)
Lemma base_confidence_side (scores : list R) :
  (0 <= avg_sentiment_of scores -> 0.5 <= base_confidence_of scores)
  /\ (avg_sentiment_of scores <= 0 -> base_confidence_of scores <= 0.5).
Proof.
  unfold base_confidence_of. split; intros [H|H].
  - left. apply sigmoid_above_half. lra.
  - rewrite <- H, Rmult_0_r, sigmoid_zero. lra.
  - left. apply sigmoid_below_half. lra.
  - rewrite H, Rmult_0_r, sigmoid_zero. lra.
Qed.

Lemma final_confidence_side (scores : list R) :
  (0 <= avg_sentiment_of scores -> 0.5 <= final_confidence_of scores)
  /\ (avg_sentiment_of scores <= 0 -> final_confidence_of scores <= 0.5).
Proof.
  destruct (base_confidence_side scores) as [Hup Hdown].
  pose proof (reliability_nonneg (List.length scores)) as Hr.
  unfold final_confidence_of.
  split; intros H; [specialize (Hup H)|specialize (Hdown H)]; nra.
Qed.

(** C8, amended: for two non-empty score lists with the same average in
    [-1, 1], the final confidence of the shorter list lies between 0.5 and
    that of the longer list, so it never moves away from 0.5 as the count
    decreases; the move is strict when the shorter list has fewer than 50
    scores and the average is at least 0.001 in magnitude; from 50 scores
    on the reliability is 1 and the count no longer changes the final
    confidence.  The scores 0.8, 0.9 average to about 0.85, not to 0.8;
    their final confidence is strictly below that of fifty scores 0.8 and
    strictly below [sigmoid 1.6]; the fifty scores have reliability 1 and
    their final confidence is their base confidence. *)
Theorem confidence_shrinks_toward_half (s1 s2 : list R) :
  (s1 <> [] ->
   avg_sentiment_of s1 = avg_sentiment_of s2 ->
   -1 <= avg_sentiment_of s1 <= 1 ->
   (List.length s1 <= List.length s2)%nat ->
   (0 <= avg_sentiment_of s1 ->
    0.5 <= final_confidence_of s1 <= final_confidence_of s2)
   /\ (avg_sentiment_of s1 <= 0 ->
       final_confidence_of s2 <= final_confidence_of s1 <= 0.5)
   /\ ((List.length s1 < List.length s2)%nat ->
       (List.length s1 < 50)%nat ->
       0.001 <= Rabs (avg_sentiment_of s1) ->
       Rabs (final_confidence_of s1 - 0.5) < Rabs (final_confidence_of s2 - 0.5))
   /\ ((50 <= List.length s1)%nat ->
       reliability_of (List.length s1) = 1
       /\ final_confidence_of s1 = final_confidence_of s2))
  /\ 0.84 < avg_sentiment_of [0.8; 0.9] < 0.86
  /\ final_confidence_of [0.8; 0.9] < final_confidence_of (repeat 0.8 50)
  /\ final_confidence_of [0.8; 0.9] < sigmoid 1.6
  /\ reliability_of 50 = 1
  /\ final_confidence_of (repeat 0.8 50) = base_confidence_of (repeat 0.8 50).
Proof.
  split; [|split; [|split; [|split; [|split]]]].
  - intros Hne Havg Hrange Hlen.
    assert (1 <= List.length s1)%nat as H1
      by (destruct s1; [contradiction|simpl; lia]).
    pose proof (reliability_pos _ H1) as Hpos.
    pose proof (reliability_monotone _ _ Hlen) as Hmono.
    destruct (base_confidence_side s1) as [Hup Hdown].
    assert (0 < avg_sentiment_of s1 -> 0.5 < base_confidence_of s1) as Habove
      by (intros H; apply sigmoid_above_half; lra).
    assert (avg_sentiment_of s1 < 0 -> base_confidence_of s1 < 0.5) as Hbelow
      by (intros H; apply sigmoid_below_half; lra).
    assert ((List.length s1 < List.length s2)%nat ->
            (List.length s1 < 50)%nat ->
            reliability_of (List.length s1) < reliability_of (List.length s2))
      as Hinc by apply reliability_strictly_increasing.
    assert ((50 <= List.length s1)%nat ->
            reliability_of (List.length s1) = 1
            /\ reliability_of (List.length s2) = 1) as Hsat
      by (intros H; split; apply reliability_saturated; lia).
    unfold final_confidence_of.
    replace (base_confidence_of s2) with (base_confidence_of s1)
      by (unfold base_confidence_of; rewrite Havg; reflexivity).
    set (r1 := reliability_of (List.length s1)) in *.
    set (r2 := reliability_of (List.length s2)) in *.
    set (b := base_confidence_of s1) in *.
    split; [|split; [|split]].
    + intros H. specialize (Hup H). split; nra.
    + intros H. specialize (Hdown H). split; nra.
    + intros Hlt H50 Habs. specialize (Hinc Hlt H50).
      destruct (Rle_or_lt 0 (avg_sentiment_of s1)) as [H|H].
      * rewrite Rabs_right in Habs by lra.
        assert (0.5 < b) as Hb by (apply Habove; lra).
        rewrite !Rabs_right by nra. nra.
      * specialize (Hbelow H).
        rewrite !Rabs_left by nra. nra.
    + intros H50. destruct (Hsat H50) as [E1 E2].
      split; [exact E1|]. rewrite E1, E2. reflexivity.
  - rewrite avg_sentiment_pair. split; lra.
  - rewrite final_confidence_repeat_08 by lia.
    pose proof final_confidence_pair_below.
    pose proof sigmoid_16_above. lra.
  - pose proof final_confidence_pair_below.
    pose proof sigmoid_16_above. lra.
  - apply reliability_saturated. lia.
  - apply final_confidence_saturated. rewrite repeat_length. lia.
Qed.

Lemma confidence_shrinks_toward_half_witness :
  0.5 <= final_confidence_of [0.8] <= final_confidence_of [0.8; 0.8]
  /\ Rabs (final_confidence_of [0.8] - 0.5)
     < Rabs (final_confidence_of [0.8; 0.8] - 0.5).
Proof.
  assert (avg_sentiment_of [0.8] = 0.8) as E1
    by (unfold avg_sentiment_of, py_sum; simpl; lra).
  assert (avg_sentiment_of [0.8; 0.8] = 0.8) as E2
    by (unfold avg_sentiment_of, py_sum; simpl; lra).
  destruct (proj1 (confidence_shrinks_toward_half [0.8] [0.8; 0.8]))
    as (Hbetween & _ & Hstrict & _).
  - discriminate.
  - rewrite E1, E2. reflexivity.
  - rewrite E1. lra.
  - simpl. lia.
  - split.
    + apply Hbetween. rewrite E1. lra.
    + apply Hstrict.
      * simpl. lia.
      * simpl. lia.
      * rewrite E1, Rabs_right by lra. lra.
Defined.

(* ===================================================================== *)
(** * A zero baseline *)
(* ===================================================================== *)

Lemma bind_completes {A B : Type} (m : M A) (k : A -> M B) (st : State) (a : A) :
  fst (m st) = Ok a -> bind m k st = k a (snd (m st)).
Proof.
  intros H. unfold bind. destruct (m st) as [[a'|e] st']; simpl in *.
  - injection H as ->. reflexivity.
  - discriminate H.
Qed.

Lemma bind_raises {A B : Type} (m : M A) (k : A -> M B) (st : State) (e : exn) :
  fst (m st) = Raise e -> bind m k st = (Raise e, snd (m st)).
Proof.
  intros H. unfold bind. destruct (m st) as [[a|e'] st']; simpl in *.
  - discriminate H.
  - injection H as ->. reflexivity.
Qed.

(** A price step on a zero baseline raises and changes nothing. *)
Lemma price_step_zero_baseline (cfg : Config) (now : timestamp) (symbol : string)
    (price_data : PriceData) (st : State) (b : float) :
  BASELINE_PRICES st !! symbol = Some b ->
  PrimFloat.eqb b 0 = true ->
  price_step cfg now (symbol, price_data) st = (Raise ZeroDivisionError, st).
Proof.
  intros Hb Hz.
  unfold price_step, get_cumulative_change, bind, get_state, lift. simpl.
  rewrite Hb. unfold py_truediv. rewrite Hz. reflexivity.
Qed.

(** With a result for a symbol that has neither a quote nor a baseline,
    the sentiment step seeds the baseline with the default price 0. *)
Lemma sentiment_step_absent_quote (now : timestamp)
    (prices : list (string * PriceData)) (symbol : string) (result : Analysis)
    (news_titles reddit_texts : list string) (st : State) :
  prices_get prices symbol = None ->
  BASELINE_PRICES st !! symbol = None ->
  let after :=
    sentiment_step now prices (symbol, (Some result, news_titles, reddit_texts)) st in
  fst after = Ok tt
  /\ BASELINE_PRICES (snd after) = <[symbol := 0%float]> (BASELINE_PRICES st)
  /\ emitted (snd after) = emitted st.
Proof.
  intros Hp Hb.
  unfold sentiment_step, get_cumulative_change, bind, get_state. simpl.
  rewrite Hp, Hb. simpl. repeat split.
Qed.

(** C1 fails on the code.  In a cycle where the quote of a watched symbol
    is absent but its texts are not, the sentiment loop calls
    [get_cumulative_change] with the default price 0; for a symbol without
    a baseline this seeds the baseline with 0, and the next cycle that has
    a quote for the symbol divides by that baseline and raises. *)
Theorem absent_quote_seeds_zero_baseline (finbert : FinBERT) :
  let cfg := default_config ["AAPL"] in
  let fetch := fun _ : nat => (["Apple earnings beat estimates"], @nil string) in
  let cycle1 := run_cycle_async cfg finbert 1%Z [] fetch empty_state in
  let cycle2 :=
    run_cycle_async cfg finbert 2%Z [("AAPL", quote 150%float)] fetch (snd cycle1) in
  fst cycle1 = Ok tt
  /\ BASELINE_PRICES (snd cycle1) !! "AAPL" = Some 0%float
  /\ fst cycle2 = Raise ZeroDivisionError
  /\ emitted (snd cycle2) = []
  /\ fst (run_cycles cfg finbert
            [(1%Z, [], fetch); (2%Z, [("AAPL", quote 150%float)], fetch)]
            empty_state)
     = Raise ZeroDivisionError.
Proof.
  intros cfg fetch cycle1 cycle2.
  cut (fst cycle1 = Ok tt
       /\ BASELINE_PRICES (snd cycle1) !! "AAPL" = Some 0%float
       /\ fst cycle2 = Raise ZeroDivisionError
       /\ emitted (snd cycle2) = []).
  { intros (H1 & H2 & H3 & H4). repeat (split; [assumption|]).
    unfold run_cycles.
    rewrite (bind_completes _ _ _ tt H1). fold cycle1.
    rewrite (bind_raises _ _ _ ZeroDivisionError H3). reflexivity. }
  destruct (analyze finbert "AAPL" ["Apple earnings beat estimates"] []
                    (BUY_THRESH cfg) (SELL_THRESH cfg)) as [result|] eqn:Hresult.
  2: { rewrite analyze_present in Hresult; [discriminate Hresult|].
       simpl. discriminate. }
  destruct (sentiment_step_absent_quote 1%Z [] "AAPL" result
              ["Apple earnings beat estimates"] [] empty_state
              eq_refl eq_refl) as (Hok & Hbase & Hout).
  assert (fst cycle1 = Ok tt
          /\ BASELINE_PRICES (snd cycle1) = <["AAPL" := 0%float]> ∅
          /\ emitted (snd cycle1) = []) as (H1 & H2 & H3).
  { subst cycle1. unfold run_cycle_async, analyze_symbol.
    change (imap _ (WATCH cfg))
      with [("AAPL",
             (analyze finbert "AAPL" ["Apple earnings beat estimates"] []
                      (BUY_THRESH cfg) (SELL_THRESH cfg),
              ["Apple earnings beat estimates"], @nil string))].
    rewrite Hresult.
    unfold for_each, bind at 1 2 3, ret at 1.
    destruct (sentiment_step 1%Z [] _ empty_state) as [[[]|e] st1];
      simpl in Hok, Hbase, Hout; [|discriminate Hok].
    simpl. repeat split; assumption. }
  split; [exact H1|]. split; [rewrite H2; reflexivity|].
  subst cycle2. unfold run_cycle_async. unfold for_each at 1.
  unfold bind at 1 2.
  rewrite (price_step_zero_baseline cfg 2%Z "AAPL" (quote 150%float)
             (snd cycle1) 0%float)
    by (rewrite ?H2; reflexivity).
  split; [reflexivity|exact H3].
Qed.

(* ===================================================================== *)
(** * Properties of de-duplication and of the news merge *)
(* ===================================================================== *)

Lemma dedupe_fold_nub (items : list string) (seen : gset string)
    (output : list string) :
  fold_left dedupe_step items (seen, output)
  = (list_to_set (nub_from seen items) ∪ seen, output ++ nub_from seen items).
Proof.
  revert seen output.
  induction items as [|x items IH]; intros seen output; simpl.
  - rewrite app_nil_r. f_equal. set_solver.
  - unfold dedupe_step at 2. simpl.
    destruct (decide (x ∈ seen)) as [Hin|Hnot].
    + apply IH.
    + rewrite IH. rewrite <- app_assoc. simpl. f_equal. set_solver.
Qed.

Lemma dedupe_list_nub (items : list string) :
  dedupe_list items = nub_from ∅ items.
Proof.
  unfold dedupe_list. rewrite dedupe_fold_nub. reflexivity.
Qed.

Lemma nub_from_elem (items : list string) (seen : gset string) (x : string) :
  x ∈ nub_from seen items <-> x ∈ items /\ x ∉ seen.
Proof.
  revert seen. induction items as [|y items IH]; intros seen; simpl.
  - set_solver.
  - destruct (decide (y ∈ seen)) as [Hin|Hnot].
    + rewrite IH. set_solver.
    + rewrite elem_of_cons, IH. split.
      * intros [->|[H1 H2]]; [set_solver|]. split; set_solver.
      * intros [H1 H2]. destruct (decide (x = y)) as [->|Hne]; [left; reflexivity|].
        right. split; set_solver.
Qed.

Lemma nub_from_NoDup (items : list string) (seen : gset string) :
  NoDup (nub_from seen items).
Proof.
  revert seen. induction items as [|y items IH]; intros seen; simpl.
  - constructor.
  - destruct (decide (y ∈ seen)); [apply IH|].
    constructor; [|apply IH].
    rewrite nub_from_elem. set_solver.
Qed.

Lemma nub_from_sublist (items : list string) (seen : gset string) :
  sublist (nub_from seen items) items.
Proof.
  revert seen. induction items as [|y items IH]; intros seen; simpl.
  - constructor.
  - destruct (decide (y ∈ seen)).
    + apply sublist_cons. apply IH.
    + apply sublist_skip. apply IH.
Qed.

Lemma nub_from_union (items : list string) (s1 s2 : gset string) :
  nub_from (s1 ∪ s2) items = nub_from s1 (filter (fun y => y ∉ s2) items).
Proof.
  revert s1. induction items as [|x items IH]; intros s1; simpl; [reflexivity|].
  rewrite filter_cons.
  destruct (decide (x ∉ s2)) as [Hn2|Hi2]; simpl.
  - destruct (decide (x ∈ s1)) as [H1|H1].
    + rewrite decide_True by set_solver. apply IH.
    + rewrite decide_False by set_solver.
      f_equal. rewrite <- IH. f_equal. set_solver.
  - rewrite decide_True by (apply dec_stable in Hi2; set_solver). apply IH.
Qed.

Lemma nub_from_fresh (items : list string) (seen : gset string) :
  NoDup items -> (forall x, x ∈ items -> x ∉ seen) -> nub_from seen items = items.
Proof.
  revert seen. induction items as [|x items IH]; intros seen Hnd Hfresh; simpl;
    [reflexivity|].
  apply NoDup_cons in Hnd as [Hx Hnd].
  rewrite decide_False by (apply Hfresh; left).
  f_equal. apply IH; [exact Hnd|].
  intros y Hy. specialize (Hfresh y ltac:(right; exact Hy)). set_solver.
Qed.

Lemma dedupe_list_NoDup (items : list string) : NoDup (dedupe_list items).
Proof. rewrite dedupe_list_nub. apply nub_from_NoDup. Qed.

Lemma dedupe_list_elem (items : list string) (x : string) :
  x ∈ dedupe_list items <-> x ∈ items.
Proof. rewrite dedupe_list_nub, nub_from_elem. set_solver. Qed.

(** X1: [dedupe_list] returns a list without duplicates that has exactly
    the elements of its input, in the order of the input. *)
Theorem dedupe_list_nodup_same_elements (items : list string) :
  NoDup (dedupe_list items)
  /\ (forall x : string, x ∈ dedupe_list items <-> x ∈ items)
  /\ sublist (dedupe_list items) items
  /\ (List.length (dedupe_list items) <= List.length items)%nat.
Proof.
  split; [apply dedupe_list_NoDup|].
  split; [intros x; apply dedupe_list_elem|].
  rewrite dedupe_list_nub.
  split; [apply nub_from_sublist|].
  apply sublist_length, nub_from_sublist.
Qed.

(** X2: [dedupe_list] keeps the first occurrence of each item: the head of
    the input is the head of the output and every later copy of it is
    dropped; a list without duplicates is returned as it is, so running
    [dedupe_list] twice changes nothing more. *)
Theorem dedupe_list_first_occurrence (x : string) (items : list string) :
  dedupe_list (x :: items) = x :: dedupe_list (filter (fun y => y ≠ x) items)
  /\ (NoDup items -> dedupe_list items = items)
  /\ dedupe_list (dedupe_list items) = dedupe_list items.
Proof.
  rewrite !dedupe_list_nub. split; [|split].
  - simpl. rewrite decide_False by set_solver. f_equal.
    replace ({[x]} ∪ ∅ : gset string) with (∅ ∪ {[x]} : gset string)
      by set_solver.
    rewrite nub_from_union. f_equal.
    apply list_filter_iff. intros y. set_solver.
  - intros Hnd. apply nub_from_fresh; [exact Hnd|set_solver].
  - apply nub_from_fresh; [apply nub_from_NoDup|set_solver].
Qed.

Lemma dedupe_list_first_occurrence_witness :
  NoDup ["a"; "b"; "c"] /\ dedupe_list ["a"; "b"; "c"] = ["a"; "b"; "c"].
Proof.
  assert (NoDup ["a"; "b"; "c"]) as Hnd
    by (apply NoDup_ListNoDup; repeat constructor; simpl; intuition discriminate).
  split; [exact Hnd|].
  exact (proj1 (proj2 (dedupe_list_first_occurrence "a" ["a"; "b"; "c"])) Hnd).
Defined.

Lemma merge_results_concat (results : list (option (list string)))
    (acc : gset string * list string) :
  fold_left
    (fun acc result =>
       match result with
       | Some titles => fold_left dedupe_step titles acc
       | None => acc
       end)
    results acc
  = fold_left dedupe_step
      (concat (omap (fun result : option (list string) => result) results)) acc.
Proof.
  revert acc. induction results as [|[titles|] results IH]; intros acc; simpl.
  - reflexivity.
  - rewrite fold_left_app. apply IH.
  - apply IH.
Qed.

Lemma omap_map_results {A B : Type} (f : A -> option B) (l : list A) :
  omap (fun result : option B => result) (map f l) = omap f l.
Proof.
  induction l as [|x l IH]; [reflexivity|].
  cbn. destruct (f x); cbn; [f_equal|]; exact IH.
Qed.

(** X3: [get_news] returns the de-duplicated concatenation of the titles
    of the queries that succeeded, cut to 30: at most 30 titles, no title
    twice, every title from a query of the symbol that returned a list; a
    query that ended in an exception contributes nothing and stops
    nothing. *)
Theorem get_news_merges_successful_queries
    (fetch_google_news : string -> option (list string)) (symbol : string) :
  let queries := default [symbol] (aliases_get ALIASES symbol) in
  get_news fetch_google_news symbol
  = firstn 30 (dedupe_list (concat (omap fetch_google_news queries)))
  /\ (List.length (get_news fetch_google_news symbol) <= 30)%nat
  /\ NoDup (get_news fetch_google_news symbol)
  /\ (forall title : string,
        title ∈ get_news fetch_google_news symbol ->
        exists (query : string) (titles : list string),
          query ∈ queries
          /\ fetch_google_news query = Some titles
          /\ title ∈ titles).
Proof.
  intros queries.
  assert (get_news fetch_google_news symbol
          = firstn 30 (dedupe_list (concat (omap fetch_google_news queries))))
    as E.
  { unfold get_news, dedupe_list. fold queries.
    rewrite merge_results_concat, omap_map_results. reflexivity. }
  split; [exact E|]. rewrite E.
  pose proof (dedupe_list_NoDup (concat (omap fetch_google_news queries)))
    as Hnd.
  pose proof (dedupe_list_elem (concat (omap fetch_google_news queries)))
    as Helem.
  split; [rewrite length_firstn; lia|].
  split.
  - eapply sublist_NoDup; [exact Hnd|apply sublist_take].
  - intros title Hin.
    pose proof (elem_of_sublist _ _ _ Hin (sublist_take _ _)) as Hall.
    apply Helem, list_elem_of_In, in_concat in Hall as (titles & Hts & Ht).
    apply list_elem_of_In, list_elem_of_omap in Hts as (query & Hq & Hf).
    exists query, titles. repeat split; [assumption..|].
    apply list_elem_of_In. exact Ht.
Qed.

(* ===================================================================== *)
(** * Properties of the quotes *)
(* ===================================================================== *)

Lemma dict_set_keys {V : Type} (d : list (string * V)) (key : string) (v : V) :
  map fst (dict_set d key v)
  = if decide (key ∈ map fst d) then map fst d else map fst d ++ [key].
Proof.
  induction d as [|[k v'] rest IH].
  - destruct (decide (key ∈ map fst (@nil (string * V)))) as [Hin|Hnot];
      [apply elem_of_nil in Hin; contradiction|reflexivity].
  - cbn [dict_set].
    destruct (String.eqb k key) eqn:E.
    + apply String.eqb_eq in E. subst k.
      destruct (decide (key ∈ map fst ((key, v') :: rest))) as [Hin|Hnot];
        [reflexivity|].
      exfalso. apply Hnot. left.
    + assert (k <> key) as Hne
        by (intros ->; rewrite String.eqb_refl in E; discriminate E).
      cbn [map fst]. rewrite IH.
      destruct (decide (key ∈ map fst rest)) as [Hin|Hnot];
        destruct (decide (key ∈ k :: map fst rest)) as [Hin'|Hnot'];
        try reflexivity.
      * exfalso. apply Hnot'. right. exact Hin.
      * exfalso. apply elem_of_cons in Hin' as [->|Hin']; [exact (Hne eq_refl)|].
        exact (Hnot Hin').
Qed.

Lemma dict_set_elem {V : Type} (d : list (string * V)) (key : string) (v : V)
    (k : string) (e : V) :
  (k, e) ∈ dict_set d key v -> (k = key /\ e = v) \/ (k, e) ∈ d.
Proof.
  induction d as [|[k' v'] rest IH]; simpl.
  - intros H. apply list_elem_of_singleton in H. injection H as -> ->.
    left. split; reflexivity.
  - destruct (String.eqb k' key) eqn:E.
    + apply String.eqb_eq in E. subst k'.
      rewrite !elem_of_cons. intros [H|H].
      * injection H as -> ->. left. split; reflexivity.
      * right. right. exact H.
    + rewrite !elem_of_cons. intros [H|H].
      * right. left. exact H.
      * destruct (IH H) as [H'|H']; [left; exact H'|right; right; exact H'].
Qed.

Lemma dict_set_NoDup {V : Type} (d : list (string * V)) (key : string) (v : V) :
  NoDup (map fst d) -> NoDup (map fst (dict_set d key v)).
Proof.
  intros H. rewrite dict_set_keys.
  destruct (decide (key ∈ map fst d)) as [Hin|Hnot]; [exact H|].
  apply NoDup_app. split; [exact H|]. split.
  - intros x Hx Hk. apply list_elem_of_singleton in Hk. subst x. exact (Hnot Hx).
  - apply NoDup_singleton.
Qed.

(** Every stored entry was computed by a division that did not raise. *)
Lemma quote_symbol_sound (format_2f : float -> string) (data : TickerData)
    (intraday : bool) (entry : PriceEntry) :
  quote_symbol format_2f data intraday = Some entry ->
  PrimFloat.eqb (entry_prev entry) 0 = false
  /\ entry_change_pct entry
     = ((entry_price entry - entry_prev entry) / entry_prev entry)%float.
Proof.
  unfold quote_symbol.
  destruct data as [|hist fast_info]; [discriminate|].
  assert (forall x y c, py_truediv x y = Ok c ->
                        PrimFloat.eqb y 0 = false /\ c = (x / y)%float) as Hdiv.
  { intros x y c. unfold py_truediv.
    destruct (PrimFloat.eqb y 0); [discriminate|].
    intros H. injection H as <-. split; reflexivity. }
  destruct (List.rev hist) as [|latest earlier].
  - destruct fast_info as [fi|]; [|discriminate].
    destruct (last_price fi) as [| |price]; try discriminate.
    destruct (previous_close fi) as [| |prev]; try discriminate.
    destruct (float_truthy price && float_truthy prev) eqn:E; [|discriminate].
    intros H. injection H as <-. simpl.
    apply andb_true_iff in E as [_ E]. unfold float_truthy in E.
    apply negb_true_iff in E. split; [exact E|reflexivity].
  - destruct intraday.
    + destruct (py_truediv _ _) as [c|e] eqn:E; [|discriminate].
      intros H. injection H as <-. simpl. apply Hdiv. exact E.
    + match goal with
      | |- match ?p with _ => _ end = _ -> _ => destruct p as [prev|]
      end; [|discriminate].
      destruct (py_truediv _ _) as [c|e] eqn:E; [|discriminate].
      intros H. injection H as <-. simpl. apply Hdiv. exact E.
Qed.

Lemma get_prices_fold (format_2f : float -> string)
    (service : string -> TickerData) (intraday : bool)
    (symbols : list string) (output : list (string * PriceEntry)) :
  let final :=
    fold_left
      (fun output sym =>
         match quote_symbol format_2f (service sym) intraday with
         | Some entry => dict_set output sym entry
         | None => output
         end)
      symbols output in
  (NoDup (map fst output) -> NoDup (map fst final))
  /\ (forall sym entry,
        (sym, entry) ∈ final ->
        (sym, entry) ∈ output
        \/ (sym ∈ symbols
            /\ quote_symbol format_2f (service sym) intraday = Some entry)).
Proof.
  revert output. induction symbols as [|s symbols IH]; intros output; simpl.
  - split; [tauto|]. intros sym entry H. left. exact H.
  - destruct (quote_symbol format_2f (service s) intraday) as [e|] eqn:E.
    + destruct (IH (dict_set output s e)) as [IH1 IH2]. split.
      * intros Hnd. apply IH1, dict_set_NoDup, Hnd.
      * intros sym entry H. destruct (IH2 sym entry H) as [H'|[H1 H2]].
        -- apply dict_set_elem in H' as [[-> ->]|H'].
           ++ right. split; [left|exact E].
           ++ left. exact H'.
        -- right. split; [right; exact H1|exact H2].
    + destruct (IH output) as [IH1 IH2]. split; [exact IH1|].
      intros sym entry H. destruct (IH2 sym entry H) as [H'|[H1 H2]].
      * left. exact H'.
      * right. split; [right; exact H1|exact H2].
Qed.

(** X4: every entry of the dictionary returned by [get_prices] belongs to
    a requested symbol, is what the quote service alone holds for that
    symbol (a failing symbol changes nothing for the others), has a
    reference price [prev] that is not zero and a [change_pct] equal to
    [(price - prev) / prev]; and no symbol has two entries. *)
Theorem get_prices_entries (format_2f : float -> string)
    (service : string -> TickerData) (intraday : bool) (symbols : list string) :
  NoDup (map fst (get_prices format_2f service intraday symbols))
  /\ (forall (sym : string) (entry : PriceEntry),
        (sym, entry) ∈ get_prices format_2f service intraday symbols ->
        sym ∈ symbols
        /\ quote_symbol format_2f (service sym) intraday = Some entry
        /\ PrimFloat.eqb (entry_prev entry) 0 = false
        /\ entry_change_pct entry
           = ((entry_price entry - entry_prev entry) / entry_prev entry)%float).
Proof.
  unfold get_prices.
  destruct (get_prices_fold format_2f service intraday symbols []) as [H1 H2].
  split; [apply H1; constructor|].
  intros sym entry H. destruct (H2 sym entry H) as [H'|[Hs Hq]].
  - apply elem_of_nil in H'. contradiction.
  - split; [exact Hs|]. split; [exact Hq|].
    apply (quote_symbol_sound format_2f _ _ _ Hq).
Qed.

Lemma dict_set_fresh {V : Type} (d : list (string * V)) (key : string) (v : V) :
  key ∉ map fst d -> dict_set d key v = d ++ [(key, v)].
Proof.
  induction d as [|[k v'] rest IH]; intros Hfresh; [reflexivity|].
  cbn [dict_set].
  destruct (String.eqb k key) eqn:E.
  - apply String.eqb_eq in E. subst k. exfalso. apply Hfresh. left.
  - cbn [app]. f_equal. apply IH. intros Hin. apply Hfresh. right. exact Hin.
Qed.

(** X5: when no symbol is requested twice, [get_prices] returns, in the
    order of the request, exactly the symbols for which an entry could be
    computed, each with that entry. *)
Theorem get_prices_keeps_request_order (format_2f : float -> string)
    (service : string -> TickerData) (intraday : bool) (symbols : list string) :
  NoDup symbols ->
  get_prices format_2f service intraday symbols
  = omap (fun sym =>
            match quote_symbol format_2f (service sym) intraday with
            | Some entry => Some (sym, entry)
            | None => None
            end)
         symbols.
Proof.
  intros Hnd. unfold get_prices.
  change (omap _ symbols) with ([] ++ omap
    (fun sym => match quote_symbol format_2f (service sym) intraday with
                | Some entry => Some (sym, entry)
                | None => None
                end) symbols).
  assert (forall sym, sym ∈ map fst (@nil (string * PriceEntry)) -> sym ∉ symbols)
    as Hdisj by (intros sym H; apply elem_of_nil in H; contradiction).
  revert Hdisj. generalize (@nil (string * PriceEntry)).
  induction symbols as [|s symbols IH]; intros output Hdisj.
  - simpl. rewrite app_nil_r. reflexivity.
  - apply NoDup_cons in Hnd as [Hs Hnd].
    cbn [fold_left omap list_omap].
    destruct (quote_symbol format_2f (service s) intraday) as [e|].
    + rewrite dict_set_fresh
        by (intros Hin; apply (Hdisj s Hin); left).
      rewrite IH; [rewrite <- app_assoc; reflexivity|exact Hnd|].
      intros sym Hin. rewrite map_app in Hin. apply elem_of_app in Hin as [Hin|Hin].
      * intros Hsym. apply (Hdisj sym Hin). right. exact Hsym.
      * apply list_elem_of_singleton in Hin. simpl in Hin. subst sym. exact Hs.
    + apply IH; [exact Hnd|].
      intros sym Hin Hsym. apply (Hdisj sym Hin). right. exact Hsym.
Qed.

Lemma get_prices_keeps_request_order_witness :
  NoDup ["MSFT"; "AAPL"; "NVDA"]
  /\ map fst (get_prices (fun _ => "") sample_service false ["MSFT"; "AAPL"; "NVDA"])
     = ["AAPL"].
Proof.
  assert (NoDup ["MSFT"; "AAPL"; "NVDA"]) as Hnd
    by (apply NoDup_ListNoDup; repeat constructor; simpl; intuition discriminate).
  split; [exact Hnd|].
  rewrite (get_prices_keeps_request_order (fun _ => "") sample_service false
             ["MSFT"; "AAPL"; "NVDA"] Hnd).
  reflexivity.
Defined.

(* ===================================================================== *)
(** * More properties of the monitoring cycle *)
(* ===================================================================== *)

(** Unfolds one price step into its branches. *)
Ltac price_step_cases cfg item st :=
  unfold price_step, get_cumulative_change, reset_baseline, emit,
    set_baseline, set_last_alert, bind, get_state, lift, ret;
  cbn [fst snd BASELINE_PRICES LAST_ALERT LATEST_ANALYSIS emitted exported];
  let Hb := fresh "Hbase" in
  destruct (BASELINE_PRICES st !! fst item) as [?b|] eqn:Hb;
  cbn [fst snd BASELINE_PRICES LAST_ALERT LATEST_ANALYSIS emitted exported];
  [ let Hd := fresh "Hdiv" in
    destruct (py_truediv (pd_price (snd item) - b)%float b) as [?c|?e] eqn:Hd;
    cbn [fst snd BASELINE_PRICES LAST_ALERT LATEST_ANALYSIS emitted exported];
    [ match goal with
      | |- context [should_alert_price ?s ?c ?t] =>
          let Ha := fresh "Halert" in
          destruct (should_alert_price s c t) eqn:Ha
      end
    | ]
  | match goal with
    | |- context [should_alert_price ?s ?c ?t] =>
        let Ha := fresh "Halert" in
        destruct (should_alert_price s c t) eqn:Ha
    end ];
  cbn [fst snd BASELINE_PRICES LAST_ALERT LATEST_ANALYSIS emitted exported].

(** The price step writes neither the snapshots nor the exported document. *)
Lemma price_step_frame (Q : gmap string Snapshot ->
                            option (timestamp * gmap string Snapshot) -> Prop)
    (cfg : Config) (now : timestamp) (item : string * PriceData) :
  preserves (fun st => Q (LATEST_ANALYSIS st) (exported st))
            (price_step cfg now item).
Proof.
  intros st H. price_step_cases cfg item st; exact H.
Qed.

(** The sentiment step writes only baselines and snapshots. *)
Lemma sentiment_step_frame
    (Q : gmap string timestamp -> list PriceAlert ->
         option (timestamp * gmap string Snapshot) -> Prop)
    (now : timestamp) (prices : list (string * PriceData))
    (item : string * (option Analysis * list string * list string)) :
  preserves (fun st => Q (LAST_ALERT st) (emitted st) (exported st))
            (sentiment_step now prices item).
Proof.
  intros st H.
  unfold sentiment_step, get_cumulative_change, set_latest_analysis,
    set_baseline, bind, get_state, lift, ret.
  destruct (fst (fst (snd item))) as [result|]; [|exact H].
  cbn [fst snd BASELINE_PRICES].
  destruct (BASELINE_PRICES st !! fst item) as [b|]; cbn [fst snd].
  - destruct (py_truediv _ b); exact H.
  - exact H.
Qed.

(** What one price step adds to the emitted alerts. *)
Lemma price_step_emitted (cfg : Config) (now : timestamp)
    (item : string * PriceData) (st : State) :
  emitted (snd (price_step cfg now item st)) = emitted st
  \/ exists alert : PriceAlert,
       emitted (snd (price_step cfg now item st)) = emitted st ++ [alert]
       /\ alert_symbol alert = fst item
       /\ alert_price alert = py_round (pd_price (snd item)) 2
       /\ alert_trading_date alert = pd_trading_date (snd item).
Proof.
  price_step_cases cfg item st;
    try (left; reflexivity);
    right; eexists; repeat split.
Qed.

Lemma price_loop_emitted (cfg : Config) (now : timestamp)
    (prices : list (string * PriceData)) (st : State) :
  exists alerts : list PriceAlert,
    emitted (snd (for_each (price_step cfg now) prices st)) = emitted st ++ alerts
    /\ sublist (map (fun alert => (alert_symbol alert, alert_price alert,
                                   alert_trading_date alert)) alerts)
               (map (fun item => (fst item, py_round (pd_price (snd item)) 2,
                                  pd_trading_date (snd item))) prices).
Proof.
  revert st. induction prices as [|item prices IH]; intros st.
  - exists []. simpl. rewrite app_nil_r. split; constructor.
  - cbn [for_each]. unfold bind.
    pose proof (price_step_emitted cfg now item st) as Hstep.
    destruct (price_step cfg now item st) as [[[]|e] st1]; cbn [snd] in *.
    + destruct (IH st1) as (alerts & E & Hsub).
      destruct Hstep as [Hsame|(alert & Hadd & Hsym & Hprice & Hdate)].
      * exists alerts. rewrite E, Hsame. split; [reflexivity|].
        cbn [map]. apply sublist_cons. exact Hsub.
      * exists (alert :: alerts). rewrite E, Hadd, <- app_assoc.
        split; [reflexivity|].
        cbn [map]. rewrite Hsym, Hprice, Hdate. apply sublist_skip. exact Hsub.
    + destruct Hstep as [Hsame|(alert & Hadd & Hsym & Hprice & Hdate)].
      * exists []. rewrite app_nil_r. split; [exact Hsame|apply sublist_nil_l].
      * exists [alert]. split; [exact Hadd|].
        cbn [map]. rewrite Hsym, Hprice, Hdate. apply sublist_skip, sublist_nil_l.
Qed.

(** X6: whatever a cycle does, the alerts emitted before it stay as they
    were, and the alerts it adds belong to quotes of the cycle, in the
    order of the quotes and at most one for each quote: an alert names the
    symbol of its quote and carries its price rounded to 2 decimals and
    its trading date; the sentiment pass and the export emit nothing. *)
Theorem cycle_alerts_follow_quotes (cfg : Config) (finbert : FinBERT)
    (now : timestamp) (prices : list (string * PriceData))
    (fetch : nat -> list string * list string) (st : State) :
  exists alerts : list PriceAlert,
    emitted (snd (run_cycle_async cfg finbert now prices fetch st))
    = emitted st ++ alerts
    /\ sublist (map (fun alert => (alert_symbol alert, alert_price alert,
                                   alert_trading_date alert)) alerts)
               (map (fun item => (fst item, py_round (pd_price (snd item)) 2,
                                  pd_trading_date (snd item))) prices).
Proof.
  destruct (price_loop_emitted cfg now prices st) as (alerts & E & Hsub).
  exists alerts. split; [|exact Hsub].
  unfold run_cycle_async, bind at 1.
  destruct (for_each (price_step cfg now) prices st) as [[[]|e] st1];
    cbn [snd] in *; [|exact E].
  rewrite <- E.
  apply (preserves_bind (fun st' => emitted st' = emitted st1)); [| |reflexivity].
  - apply preserves_for_each. intros item _.
    apply (sentiment_step_frame (fun _ out _ => out = emitted st1)).
  - intros _ st2 H. exact H.
Qed.

Lemma price_key_inj (s1 s2 : string) :
  "price_" +:+ s1 = "price_" +:+ s2 -> s1 = s2.
Proof. intros H. simpl in H. injection H as H. exact H. Qed.

(** X7: a cycle changes the baseline and the last-alert time only of
    symbols that are quoted or watched: for any other symbol both entries
    are after the cycle what they were before it, whether the cycle
    completes or raises. *)
Theorem cycle_leaves_other_symbols (cfg : Config) (finbert : FinBERT)
    (now : timestamp) (prices : list (string * PriceData))
    (fetch : nat -> list string * list string) (symbol : string) (st : State) :
  symbol ∉ map fst prices ->
  symbol ∉ WATCH cfg ->
  BASELINE_PRICES (snd (run_cycle_async cfg finbert now prices fetch st)) !! symbol
  = BASELINE_PRICES st !! symbol
  /\ LAST_ALERT (snd (run_cycle_async cfg finbert now prices fetch st))
       !! ("price_" +:+ symbol)
     = LAST_ALERT st !! ("price_" +:+ symbol).
Proof.
  intros Hquoted Hwatched.
  set (P := fun st' : State =>
              BASELINE_PRICES st' !! symbol = BASELINE_PRICES st !! symbol
              /\ LAST_ALERT st' !! ("price_" +:+ symbol)
                 = LAST_ALERT st !! ("price_" +:+ symbol)).
  assert (preserves P (run_cycle_async cfg finbert now prices fetch)) as Hcycle;
    [|exact (Hcycle st (conj eq_refl eq_refl))].
  unfold run_cycle_async.
  apply preserves_bind; [|intros _; apply preserves_bind].
  - apply preserves_for_each. intros item Hin st1 [H1 H2].
    assert (fst item <> symbol) as Hne.
    { intros <-. apply Hquoted, list_elem_of_In, in_map, Hin. }
    assert ("price_" +:+ fst item <> "price_" +:+ symbol) as Hkey
      by (intros E; apply Hne, price_key_inj, E).
    unfold P. price_step_cases cfg item st1;
      rewrite ?lookup_insert_ne by assumption; split; assumption.
  - apply preserves_for_each. intros item Hin st1 [H1 H2].
    apply list_elem_of_In, elem_of_lookup_imap in Hin as (i & s & -> & Hi).
    assert (s <> symbol) as Hne.
    { intros ->. apply Hwatched. eapply list_elem_of_lookup_2, Hi. }
    unfold P, sentiment_step, analyze_symbol, get_cumulative_change,
      set_latest_analysis, set_baseline, bind, get_state, lift, ret.
    cbn [fst snd].
    destruct (analyze finbert s (fetch i).1 (fetch i).2 (BUY_THRESH cfg)
                      (SELL_THRESH cfg)) as [result|];
      [|split; assumption].
    cbn [fst snd BASELINE_PRICES].
    destruct (BASELINE_PRICES st1 !! s) as [b|]; cbn [fst snd].
    + destruct (py_truediv _ b); cbn [snd BASELINE_PRICES LAST_ALERT];
        split; assumption.
    + cbn [snd BASELINE_PRICES LAST_ALERT].
      rewrite lookup_insert_ne by assumption. split; assumption.
  - intros _ st1 H. exact H.
Qed.

Lemma cycle_leaves_other_symbols_witness :
  BASELINE_PRICES
    (snd (run_cycle_async (default_config ["AAPL"]) constant_model 9%Z
            [("AAPL", quote 120%float)] fetch_first_empty
            (state_with_baseline "TSLA" 250%float))) !! "TSLA"
  = Some 250%float.
Proof.
  destruct (cycle_leaves_other_symbols (default_config ["AAPL"]) constant_model
              9%Z [("AAPL", quote 120%float)] fetch_first_empty "TSLA"
              (state_with_baseline "TSLA" 250%float)) as [Hbase _].
  - intros H. apply list_elem_of_singleton in H. discriminate H.
  - intros H. apply list_elem_of_singleton in H. discriminate H.
  - rewrite Hbase. reflexivity.
Defined.

(** X8: the invariant that a last-alert time is recorded only under the
    key of a symbol that has a baseline holds at start-up and is kept by
    every cycle, completed or not, hence along any run of cycles; and a
    symbol that has a baseline keeps having one. *)
Theorem alert_times_only_for_tracked_symbols (cfg : Config) (finbert : FinBERT) :
  alert_keys_have_baseline empty_state
  /\ (forall (now : timestamp) (prices : list (string * PriceData))
             (fetch : nat -> list string * list string),
        preserves alert_keys_have_baseline
                  (run_cycle_async cfg finbert now prices fetch))
  /\ (forall inputs,
        alert_keys_have_baseline (snd (run_cycles cfg finbert inputs empty_state)))
  /\ (forall (now : timestamp) (prices : list (string * PriceData))
             (fetch : nat -> list string * list string) (symbol : string),
        preserves (fun st => is_Some (BASELINE_PRICES st !! symbol))
                  (run_cycle_async cfg finbert now prices fetch)).
Proof.
  assert (forall now prices fetch,
             preserves alert_keys_have_baseline
                       (run_cycle_async cfg finbert now prices fetch)) as Hcycle.
  { intros now prices fetch. unfold run_cycle_async.
    assert (forall symbol p st,
               alert_keys_have_baseline st ->
               forall la, alert_keys_have_baseline
                 {| LAST_ALERT := LAST_ALERT st;
                    BASELINE_PRICES := <[symbol := p]> (BASELINE_PRICES st);
                    LATEST_ANALYSIS := la;
                    emitted := emitted st;
                    exported := exported st |}) as Hseed.
    { intros symbol p st H la key t Hkey. cbn in Hkey.
      destruct (H key t Hkey) as (s & -> & Hs). exists s. split; [reflexivity|].
      cbn. apply lookup_insert_is_Some'. right. exact Hs. }
    apply preserves_bind; [|intros _; apply preserves_bind].
    - apply preserves_for_each. intros item _ st H.
      price_step_cases cfg item st; try exact H.
      + intros key t Hkey. cbn in Hkey.
        apply lookup_insert_Some in Hkey as [[<- _]|[_ Hkey]].
        * exists (fst item). split; [reflexivity|].
          cbn. rewrite lookup_insert_eq. eexists. reflexivity.
        * destruct (H key t Hkey) as (s & -> & Hs). exists s.
          split; [reflexivity|]. cbn.
          apply lookup_insert_is_Some'. right. exact Hs.
      + intros key t Hkey. cbn in Hkey.
        apply lookup_insert_Some in Hkey as [[<- _]|[_ Hkey]].
        * exists (fst item). split; [reflexivity|].
          cbn. rewrite lookup_insert_eq. eexists. reflexivity.
        * destruct (H key t Hkey) as (s & -> & Hs). exists s.
          split; [reflexivity|]. cbn.
          apply lookup_insert_is_Some'. right.
          apply lookup_insert_is_Some'. right. exact Hs.
      + apply (Hseed _ _ st H).
    - apply preserves_for_each. intros item _ st H.
      unfold sentiment_step, get_cumulative_change, set_latest_analysis,
        set_baseline, bind, get_state, lift, ret.
      destruct (fst (fst (snd item))) as [result|]; [|exact H].
      cbn [fst snd BASELINE_PRICES].
      destruct (BASELINE_PRICES st !! fst item) as [b|] eqn:Hb; cbn [fst snd].
      + destruct (py_truediv _ b); cbn [snd]; [|exact H].
        intros key t Hkey. cbn in Hkey. exact (H key t Hkey).
      + cbn [snd BASELINE_PRICES LAST_ALERT LATEST_ANALYSIS emitted exported].
        apply (Hseed _ _ st H).
    - intros _ st H key t Hkey. exact (H key t Hkey). }
  split; [|split; [exact Hcycle|split]].
  - intros key t Hkey. cbn in Hkey. rewrite lookup_empty in Hkey. discriminate Hkey.
  - intros inputs.
    assert (alert_keys_have_baseline empty_state) as Hempty
      by (intros key t Hkey; cbn in Hkey; rewrite lookup_empty in Hkey;
          discriminate Hkey).
    revert Hempty. generalize empty_state.
    induction inputs as [|[[now prices] fetch] inputs IH]; intros st H;
      [exact H|].
    cbn [run_cycles]. unfold bind.
    pose proof (Hcycle now prices fetch st H) as Hnext.
    destruct (run_cycle_async cfg finbert now prices fetch st) as [[[]|e] st1];
      cbn [snd] in *; [apply IH; exact Hnext|exact Hnext].
  - intros now prices fetch symbol. unfold run_cycle_async.
    apply preserves_bind; [|intros _; apply preserves_bind].
    + apply preserves_for_each. intros item _ st H.
      price_step_cases cfg item st; try exact H;
        repeat (apply lookup_insert_is_Some'; right); exact H.
    + apply preserves_for_each. intros item _ st H.
      unfold sentiment_step, get_cumulative_change, set_latest_analysis,
        set_baseline, bind, get_state, lift, ret.
      destruct (fst (fst (snd item))) as [result|]; [|exact H].
      cbn [fst snd BASELINE_PRICES].
      destruct (BASELINE_PRICES st !! fst item) as [b|] eqn:Hb; cbn [fst snd].
      * destruct (py_truediv _ b); exact H.
      * cbn [snd BASELINE_PRICES].
        apply lookup_insert_is_Some'. right. exact H.
    + intros _ st H. exact H.
Qed.

(** X9: a cycle that completes has exported, under its own clock, exactly
    the snapshots it leaves in [LATEST_ANALYSIS]; a cycle that raises has
    exported nothing, so the document of the last completed cycle stays. *)
Theorem export_only_after_completed_cycle (cfg : Config) (finbert : FinBERT)
    (now : timestamp) (prices : list (string * PriceData))
    (fetch : nat -> list string * list string) (st : State) :
  match run_cycle_async cfg finbert now prices fetch st with
  | (Ok _, st') => exported st' = Some (now, LATEST_ANALYSIS st')
  | (Raise _, st') => exported st' = exported st
  end.
Proof.
  unfold run_cycle_async, bind.
  pose proof (preserves_for_each
                (fun st' => exported st' = exported st)
                (price_step cfg now) prices
                (fun item _ =>
                   price_step_frame (fun _ doc => doc = exported st) cfg now item)
                st eq_refl) as H1.
  destruct (for_each (price_step cfg now) prices st) as [[[]|e] st1];
    cbn [snd] in H1; [|exact H1].
  match goal with
  | |- context [for_each (sentiment_step now prices) ?items st1] =>
      pose proof (preserves_for_each
                    (fun st' => exported st' = exported st)
                    (sentiment_step now prices) items
                    (fun item _ =>
                       sentiment_step_frame
                         (fun _ _ doc => doc = exported st) now prices item)
                    st1 H1) as H2;
      destruct (for_each (sentiment_step now prices) items st1)
        as [[[]|e] st2]
  end; cbn [snd] in H2; [reflexivity|exact H2].
Qed.

(** X10: the first quote of a symbol seeds its baseline with the quoted
    price and, when the threshold is positive, emits no alert and records
    no last-alert time. *)
Theorem first_observation_seeds_baseline (cfg : Config) (now : timestamp)
    (symbol : string) (price_data : PriceData) (st : State) :
  BASELINE_PRICES st !! symbol = None ->
  (PRICE_THRESH cfg <=? 0)%float = false ->
  price_step cfg now (symbol, price_data) st
  = (Ok tt,
     {| LAST_ALERT := LAST_ALERT st;
        BASELINE_PRICES := <[symbol := pd_price price_data]> (BASELINE_PRICES st);
        LATEST_ANALYSIS := LATEST_ANALYSIS st;
        emitted := emitted st;
        exported := exported st |}).
Proof.
  intros Hb Hthr.
  unfold price_step, get_cumulative_change, bind, get_state, set_baseline, ret.
  cbn [fst snd]. rewrite Hb. cbn [fst snd BASELINE_PRICES].
  unfold should_alert_price.
  change (abs 0)%float with 0%float. rewrite Hthr. reflexivity.
Qed.

Lemma first_observation_seeds_baseline_witness :
  BASELINE_PRICES empty_state !! "AAPL" = None
  /\ (PRICE_THRESH (default_config ["AAPL"]) <=? 0)%float = false
  /\ price_step (default_config ["AAPL"]) 3%Z ("AAPL", quote 100%float) empty_state
     = (Ok tt, state_with_baseline "AAPL" 100%float).
Proof.
  split; [reflexivity|]. split; [reflexivity|].
  rewrite (first_observation_seeds_baseline (default_config ["AAPL"]) 3%Z "AAPL"
             (quote 100%float) empty_state eq_refl eq_refl).
  reflexivity.
Defined.

(** A loop that completes leaves what one of its items established, when
    the other items keep it. *)
Lemma for_each_establishes {A : Type} (Q : State -> Prop) (body : A -> M unit)
    (x : A) (l : list A) (st st' : State) :
  x ∈ l ->
  (forall y st1 st2,
      y ∈ l -> body y st1 = (Ok tt, st2) -> y = x \/ Q st1 -> Q st2) ->
  for_each body l st = (Ok tt, st') ->
  Q st'.
Proof.
  intros Hx Hbody.
  assert (x ∈ l \/ Q st) as Hstart by (left; exact Hx). clear Hx.
  revert st Hstart. induction l as [|y l IH]; intros st Hstart Hrun.
  - destruct Hstart as [Hx|HQ]; [apply elem_of_nil in Hx; contradiction|].
    cbn in Hrun. injection Hrun as <-. exact HQ.
  - cbn [for_each] in Hrun. unfold bind in Hrun.
    destruct (body y st) as [[[]|e] st1] eqn:Hy; [|discriminate Hrun].
    apply (IH (fun z s1 s2 Hz => Hbody z s1 s2 (list_elem_of_further _ _ _ Hz)) st1);
      [|exact Hrun].
    destruct Hstart as [Hx|HQ].
    + apply elem_of_cons in Hx as [->|Hx]; [|left; exact Hx].
      right. apply (Hbody y st st1); [left|exact Hy|left; reflexivity].
    + right. apply (Hbody y st st1); [left|exact Hy|right; exact HQ].
Qed.

(** A loop over distinct items takes [P] to [Q] when one item does and the
    other items keep both. *)
Lemma for_each_once {A : Type} (P Q : State -> Prop) (body : A -> M unit)
    (x : A) (l : list A) (st st' : State) :
  NoDup l ->
  x ∈ l ->
  (forall y s1 s2,
      y ∈ l -> y <> x -> body y s1 = (Ok tt, s2) ->
      (P s1 -> P s2) /\ (Q s1 -> Q s2)) ->
  (forall s1 s2, body x s1 = (Ok tt, s2) -> P s1 -> Q s2) ->
  P st ->
  for_each body l st = (Ok tt, st') ->
  Q st'.
Proof.
  intros Hnd Hx Hother Hself HP.
  assert ((x ∈ l /\ P st) \/ (x ∉ l /\ Q st)) as Hstart
    by (left; split; assumption).
  clear Hx HP. revert st Hstart.
  induction l as [|y l IH]; intros st Hstart Hrun.
  - cbn in Hrun. injection Hrun as <-.
    destruct Hstart as [[Hx _]|[_ HQ]]; [|exact HQ].
    apply elem_of_nil in Hx. contradiction.
  - apply NoDup_cons in Hnd as [Hy Hnd].
    cbn [for_each] in Hrun. unfold bind in Hrun.
    destruct (body y st) as [[[]|e] st1] eqn:Hbody; [|discriminate Hrun].
    apply (IH Hnd
             (fun z s1 s2 Hz => Hother z s1 s2 (list_elem_of_further _ _ _ Hz))
             st1); [|exact Hrun].
    destruct Hstart as [[Hx HP]|[Hx HQ]].
    + apply elem_of_cons in Hx as [->|Hx].
      * right. split; [exact Hy|]. exact (Hself st st1 Hbody HP).
      * left. split; [exact Hx|].
        assert (y <> x) as Hne by (intros ->; contradiction).
        apply (Hother y st st1); [left|exact Hne|exact Hbody|exact HP].
    + assert (y <> x) as Hne by (intros ->; apply Hx; left).
      right. split; [intros H; apply Hx; right; exact H|].
      apply (Hother y st st1); [left|exact Hne|exact Hbody|exact HQ].
Qed.

(** What one price step does to the baselines. *)
Lemma price_step_baseline (cfg : Config) (now : timestamp)
    (item : string * PriceData) (symbol : string) (st : State) :
  is_Some (BASELINE_PRICES (snd (price_step cfg now item st)) !! fst item)
  /\ (fst item <> symbol ->
      BASELINE_PRICES (snd (price_step cfg now item st)) !! symbol
      = BASELINE_PRICES st !! symbol)
  /\ (is_Some (BASELINE_PRICES st !! symbol) ->
      is_Some (BASELINE_PRICES (snd (price_step cfg now item st)) !! symbol)).
Proof.
  price_step_cases cfg item st;
    (split; [|split]);
    try (intros Hne; rewrite ?lookup_insert_ne by exact Hne; reflexivity);
    try (intros H; repeat (apply lookup_insert_is_Some'; right); exact H);
    rewrite ?lookup_insert_eq, ?Hbase; eexists; reflexivity.
Qed.

(** After a completed price loop every quoted symbol has a baseline, and
    the baseline of a symbol without a quote is what it was. *)
Lemma price_loop_baseline (cfg : Config) (now : timestamp)
    (prices : list (string * PriceData)) (symbol : string) (st st1 : State) :
  for_each (price_step cfg now) prices st = (Ok tt, st1) ->
  (prices_get prices symbol = None ->
   BASELINE_PRICES st1 !! symbol = BASELINE_PRICES st !! symbol)
  /\ (is_Some (prices_get prices symbol) \/ is_Some (BASELINE_PRICES st !! symbol) ->
      is_Some (BASELINE_PRICES st1 !! symbol)).
Proof.
  revert st. induction prices as [|[s price_data] prices IH]; intros st Hrun.
  - cbn in Hrun. injection Hrun as <-. split; [reflexivity|].
    intros [[pd H]|H]; [discriminate H|exact H].
  - cbn [for_each] in Hrun. unfold bind in Hrun.
    destruct (price_step_baseline cfg now (s, price_data) symbol st)
      as (Hself & Hother & Hkeep).
    destruct (price_step cfg now (s, price_data) st) as [[[]|e] s1];
      [|discriminate Hrun].
    cbn [fst snd] in *.
    destruct (IH s1 Hrun) as [Hnone Hsome].
    cbn [prices_get].
    destruct (String.eqb s symbol) eqn:E.
    + apply String.eqb_eq in E. subst s.
      split; [intros H; discriminate H|].
      intros _. apply Hsome. right. exact Hself.
    + apply String.eqb_neq in E. split.
      * intros H. rewrite (Hnone H). apply Hother. exact E.
      * intros [H|H]; apply Hsome; [left; exact H|right; apply Hkeep; exact H].
Qed.

(** A sentiment step touches the baseline and the snapshot of its own
    symbol only. *)
Lemma sentiment_step_own_symbol (now : timestamp)
    (prices : list (string * PriceData))
    (item : string * (option Analysis * list string * list string))
    (symbol : string) (st : State) :
  fst item <> symbol ->
  BASELINE_PRICES (snd (sentiment_step now prices item st)) !! symbol
  = BASELINE_PRICES st !! symbol
  /\ LATEST_ANALYSIS (snd (sentiment_step now prices item st)) !! symbol
     = LATEST_ANALYSIS st !! symbol.
Proof.
  intros Hne.
  unfold sentiment_step, get_cumulative_change, set_latest_analysis,
    set_baseline, bind, get_state, lift, ret.
  destruct (fst (fst (snd item))) as [result|]; [|split; reflexivity].
  cbn [fst snd BASELINE_PRICES].
  destruct (BASELINE_PRICES st !! fst item) as [b|]; cbn [fst snd].
  - destruct (py_truediv _ b); cbn [snd BASELINE_PRICES LATEST_ANALYSIS];
      rewrite ?lookup_insert_ne by exact Hne; split; reflexivity.
  - cbn [snd BASELINE_PRICES LATEST_ANALYSIS].
    rewrite !lookup_insert_ne by exact Hne. split; reflexivity.
Qed.

Lemma watch_items_NoDup {B : Type} (f : nat -> string -> B) (l : list string) :
  NoDup l -> NoDup (imap (fun i s => (s, f i s)) l).
Proof.
  intros Hnd. apply (NoDup_fmap_1 fst).
  rewrite fmap_imap.
  replace (imap (fun i => fst ∘ (fun s => (s, f i s))) l) with l; [exact Hnd|].
  clear Hnd. symmetry. rewrite <- (list_fmap_id l) at 2.
  rewrite <- imap_const. reflexivity.
Qed.

(** What a completed cycle stores for a watched symbol, with the change
    from baseline it computed. *)
Lemma cycle_snapshot_change (cfg : Config) (finbert : FinBERT)
    (now : timestamp) (prices : list (string * PriceData))
    (fetch : nat -> list string * list string) (st st' : State)
    (i : nat) (symbol : string) (result : Analysis) :
  NoDup (WATCH cfg) ->
  WATCH cfg !! i = Some symbol ->
  analyze finbert symbol (fst (fetch i)) (snd (fetch i))
          (BUY_THRESH cfg) (SELL_THRESH cfg) = Some result ->
  run_cycle_async cfg finbert now prices fetch st = (Ok tt, st') ->
  exists change baseline : float,
    LATEST_ANALYSIS st' !! symbol
    = Some {| snap_decision := decision result;
                snap_confidence := confidence result;
                snap_price := pd_price <$> prices_get prices symbol;
                snap_change_from_baseline := (change * 100)%float;
                snap_news_count := news_count result;
                snap_reddit_count := reddit_count result;
                snap_positive := positive result;
                snap_negative := negative result;
                snap_avg_sentiment := avg_sentiment result;
                snap_news_topics := news_topics result;
                snap_reddit_topics := reddit_topics result;
                snap_sample_titles := sample_titles result;
                snap_last_updated := now |}
    /\ BASELINE_PRICES st' !! symbol = Some baseline
    /\ match prices_get prices symbol, BASELINE_PRICES st !! symbol with
       | None, None => baseline = 0%float /\ change = 0%float
       | _, _ =>
           py_truediv
             (default 0%float (pd_price <$> prices_get prices symbol) - baseline)
             baseline
           = Ok change
       end
    /\ exported st' = Some (now, LATEST_ANALYSIS st').
Proof.
  intros Hnd Hi Hresult Hrun.
  unfold run_cycle_async, bind in Hrun.
  destruct (for_each (price_step cfg now) prices st) as [[[]|e] st1] eqn:Hprice;
    [|discriminate Hrun].
  destruct (price_loop_baseline cfg now prices symbol st st1 Hprice)
    as [Hnone Hsome].
  match type of Hrun with
  | context [for_each (sentiment_step now prices) ?items st1] =>
      destruct (for_each (sentiment_step now prices) items st1)
        as [[[]|e] st2] eqn:Hloop
  end; [|discriminate Hrun].
  unfold export_to_json in Hrun. injection Hrun as <-.
  cbn [LATEST_ANALYSIS BASELINE_PRICES exported].
  set (p0 := default 0%float (pd_price <$> prices_get prices symbol)).
  set (P := fun s : State =>
              BASELINE_PRICES s !! symbol = BASELINE_PRICES st1 !! symbol).
  set (Q := fun s : State =>
              exists change baseline : float,
                LATEST_ANALYSIS s !! symbol
                = Some {| snap_decision := decision result;
                snap_confidence := confidence result;
                snap_price := pd_price <$> prices_get prices symbol;
                snap_change_from_baseline := (change * 100)%float;
                snap_news_count := news_count result;
                snap_reddit_count := reddit_count result;
                snap_positive := positive result;
                snap_negative := negative result;
                snap_avg_sentiment := avg_sentiment result;
                snap_news_topics := news_topics result;
                snap_reddit_topics := reddit_topics result;
                snap_sample_titles := sample_titles result;
                snap_last_updated := now |}
                /\ BASELINE_PRICES s !! symbol = Some baseline
                /\ match BASELINE_PRICES st1 !! symbol with
                   | None => baseline = p0 /\ change = 0%float
                   | Some _ => py_truediv (p0 - baseline) baseline = Ok change
                   end).
  assert (Q st2) as (change & baseline & Hsnap & Hbase & Hchange).
  { eapply (for_each_once P Q _
              (symbol, analyze_symbol cfg finbert symbol (fetch i)));
      [| | | |reflexivity|exact Hloop].
    - apply watch_items_NoDup. exact Hnd.
    - apply elem_of_lookup_imap. exists i, symbol. split; [reflexivity|exact Hi].
    - intros y s1 s2 Hy Hne Hstep.
      apply elem_of_lookup_imap in Hy as (j & s & -> & Hj).
      assert (s <> symbol) as Hs.
      { intros ->. apply Hne.
        assert (j = i) as -> by (eapply NoDup_lookup; eassumption).
        reflexivity. }
      destruct (sentiment_step_own_symbol now prices
                  (s, analyze_symbol cfg finbert s (fetch j)) symbol s1 Hs)
        as [Hb Hl].
      rewrite Hstep in Hb, Hl. cbn [snd] in Hb, Hl.
      split.
      + unfold P. intros H. rewrite Hb. exact H.
      + intros (change & baseline & H1 & H2 & H3).
        exists change, baseline. rewrite Hb, Hl. repeat split; assumption.
    - intros s1 s2 Hstep HP. unfold P in HP.
      unfold sentiment_step, analyze_symbol in Hstep. cbn [fst snd] in Hstep.
      rewrite Hresult in Hstep.
      unfold get_cumulative_change, set_latest_analysis, set_baseline, bind,
        get_state, lift, ret in Hstep.
      cbn [fst snd] in Hstep. fold p0 in Hstep. rewrite HP in Hstep.
      destruct (BASELINE_PRICES st1 !! symbol) as [b|] eqn:Hb1;
        cbn [fst snd] in Hstep.
      + destruct (py_truediv (p0 - b) b) as [change|e] eqn:Hdiv;
          [|discriminate Hstep].
        injection Hstep as <-. exists change, b.
        cbn [LATEST_ANALYSIS BASELINE_PRICES].
        rewrite lookup_insert_eq, HP. repeat split. exact Hdiv.
      + injection Hstep as <-. exists 0%float, p0.
        cbn [LATEST_ANALYSIS BASELINE_PRICES].
        rewrite !lookup_insert_eq. repeat split. }
  exists change, baseline.
  split; [exact Hsnap|]. split; [exact Hbase|]. split; [|reflexivity].
  subst p0.
  destruct (prices_get prices symbol) as [pd|] eqn:Hquote.
  - destruct (Hsome (or_introl (mk_is_Some _ _ eq_refl))) as [b1 Hb1].
    rewrite Hb1 in Hchange. exact Hchange.
  - rewrite (Hnone eq_refl) in Hchange.
    destruct (BASELINE_PRICES st !! symbol); exact Hchange.
Qed.

(** What a completed cycle stores and exports for a watched symbol. *)
Lemma cycle_snapshot (cfg : Config) (finbert : FinBERT)
    (now : timestamp) (prices : list (string * PriceData))
    (fetch : nat -> list string * list string) (st st' : State)
    (i : nat) (symbol : string) (result : Analysis) :
  NoDup (WATCH cfg) ->
  WATCH cfg !! i = Some symbol ->
  analyze finbert symbol (fst (fetch i)) (snd (fetch i))
          (BUY_THRESH cfg) (SELL_THRESH cfg) = Some result ->
  run_cycle_async cfg finbert now prices fetch st = (Ok tt, st') ->
  exists (change : float) (snap : Snapshot),
    LATEST_ANALYSIS st' !! symbol = Some snap
    /\ snap = {| snap_decision := decision result;
                snap_confidence := confidence result;
                snap_price := pd_price <$> prices_get prices symbol;
                snap_change_from_baseline := (change * 100)%float;
                snap_news_count := news_count result;
                snap_reddit_count := reddit_count result;
                snap_positive := positive result;
                snap_negative := negative result;
                snap_avg_sentiment := avg_sentiment result;
                snap_news_topics := news_topics result;
                snap_reddit_topics := reddit_topics result;
                snap_sample_titles := sample_titles result;
                snap_last_updated := now |}
    /\ exists document,
         exported st' = Some (now, document) /\ document !! symbol = Some snap.
Proof.
  intros Hnd Hi Hresult Hrun.
  destruct (cycle_snapshot_change cfg finbert now prices fetch st st' i symbol
              result Hnd Hi Hresult Hrun)
    as (change & baseline & Hsnap & _ & _ & Hdoc).
  exists change. eexists. split; [exact Hsnap|]. split; [reflexivity|].
  eexists. split; [exact Hdoc|exact Hsnap].
Qed.

(** X11: in a cycle that completes, a symbol that is watched once and has
    an analysis gets a snapshot made of this cycle only: the decision,
    confidence, counts, average, topics and headlines of the analysis and
    the quoted price (absent without a quote); its change from baseline is
    100 times the relative distance of the quoted price -- 0 without a
    quote -- from the baseline the symbol has at the end of the cycle,
    except that a symbol with neither a quote nor a baseline gets the
    baseline 0 and the change 0; and that snapshot is in the exported
    document. *)
Theorem completed_cycle_stores_analysis (cfg : Config) (finbert : FinBERT)
    (now : timestamp) (prices : list (string * PriceData))
    (fetch : nat -> list string * list string) (st st' : State)
    (i : nat) (symbol : string) (result : Analysis) :
  NoDup (WATCH cfg) ->
  WATCH cfg !! i = Some symbol ->
  analyze finbert symbol (fst (fetch i)) (snd (fetch i))
          (BUY_THRESH cfg) (SELL_THRESH cfg) = Some result ->
  run_cycle_async cfg finbert now prices fetch st = (Ok tt, st') ->
  exists (snap : Snapshot) (change baseline : float),
    LATEST_ANALYSIS st' !! symbol = Some snap
    /\ (exists document,
          snd <$> exported st' = Some document /\ document !! symbol = Some snap)
    /\ snap_decision snap = decision result
    /\ snap_confidence snap = confidence result
    /\ snap_price snap = (pd_price <$> prices_get prices symbol)
    /\ snap_change_from_baseline snap = (change * 100)%float
    /\ BASELINE_PRICES st' !! symbol = Some baseline
    /\ match prices_get prices symbol, BASELINE_PRICES st !! symbol with
       | None, None => baseline = 0%float /\ change = 0%float
       | _, _ =>
           py_truediv
             (default 0%float (pd_price <$> prices_get prices symbol) - baseline)
             baseline
           = Ok change
       end
    /\ snap_news_count snap = news_count result
    /\ snap_reddit_count snap = reddit_count result
    /\ snap_positive snap = positive result
    /\ snap_negative snap = negative result
    /\ snap_avg_sentiment snap = avg_sentiment result
    /\ snap_news_topics snap = news_topics result
    /\ snap_reddit_topics snap = reddit_topics result
    /\ snap_sample_titles snap = sample_titles result.
Proof.
  intros Hnd Hi Hresult Hrun.
  destruct (cycle_snapshot_change cfg finbert now prices fetch st st' i symbol
              result Hnd Hi Hresult Hrun)
    as (change & baseline & Hsnap & Hbase & Hchange & Hdoc).
  eexists. exists change, baseline.
  split; [exact Hsnap|]. split.
  - exists (LATEST_ANALYSIS st'). rewrite Hdoc. split; [reflexivity|exact Hsnap].
  - do 4 (split; [reflexivity|]). split; [exact Hbase|].
    split; [exact Hchange|]. cbn. tauto.
Qed.

Lemma completed_cycle_stores_analysis_witness :
  exists (snap : Snapshot) (change baseline : float),
    LATEST_ANALYSIS
      (snd (run_cycle_async (default_config ["AAPL"; "MSFT"]) constant_model 5%Z
              [("MSFT", quote 400%float)] fetch_first_empty empty_state))
      !! "MSFT" = Some snap
    /\ snap_price snap = Some 400%float
    /\ snap_change_from_baseline snap = (change * 100)%float
    /\ py_truediv (400 - baseline)%float baseline = Ok change
    /\ snap_sample_titles snap = ["Microsoft earnings surge"].
Proof.
  destruct (analyze constant_model "MSFT" ["Microsoft earnings surge"] []
                    0.65 0.35) as [result|] eqn:Hresult.
  2: { rewrite analyze_present in Hresult; [discriminate Hresult|].
       simpl. discriminate. }
  assert (sample_titles result = ["Microsoft earnings surge"]) as Htitles.
  { rewrite analyze_present in Hresult by (simpl; discriminate).
    injection Hresult as <-. reflexivity. }
  assert (NoDup ["AAPL"; "MSFT"]) as Hnd
    by (apply NoDup_ListNoDup; repeat constructor; simpl; intuition discriminate).
  destruct (run_cycle_async (default_config ["AAPL"; "MSFT"]) constant_model 5%Z
              [("MSFT", quote 400%float)] fetch_first_empty empty_state)
    as [[[]|e] st'] eqn:Hrun.
  - destruct (completed_cycle_stores_analysis
                (default_config ["AAPL"; "MSFT"]) constant_model 5%Z
                [("MSFT", quote 400%float)] fetch_first_empty empty_state st'
                1 "MSFT" result Hnd eq_refl Hresult Hrun)
      as (snap & change & baseline & Hsnap & _ & _ & _ & Hprice & Hstored & _
          & Hchange & _ & _ & _ & _ & _ & _ & _ & Hsample).
    exists snap, change, baseline. split; [exact Hsnap|].
    split; [exact Hprice|]. split; [exact Hstored|].
    split; [exact Hchange|]. rewrite Hsample. exact Htitles.
  - exfalso.
    unfold run_cycle_async, analyze_symbol in Hrun.
    change (imap _ (WATCH (default_config ["AAPL"; "MSFT"])))
      with [("AAPL", (analyze constant_model "AAPL" [] []
                              0.65 0.35, @nil string, @nil string));
            ("MSFT", (analyze constant_model "MSFT"
                              ["Microsoft earnings surge"] [] 0.65 0.35,
                      ["Microsoft earnings surge"], @nil string))] in Hrun.
    rewrite Hresult in Hrun.
    change (analyze constant_model "AAPL" [] [] 0.65 0.35) with (@None Analysis)
      in Hrun.
    cbn in Hrun. discriminate Hrun.
Defined.

(* ===================================================================== *)
(** * More properties of the sentiment aggregator *)
(* ===================================================================== *)

(** Rounding to the nearest integer does not cross an integer. *)
Lemma Rnearest_even_between (x : R) (lo hi : Z) :
  IZR lo <= x <= IZR hi -> (lo <= Rnearest_even x <= hi)%Z.
Proof.
  intros [Hlo Hhi].
  destruct (base_Int_part x) as [Hfloor Hceil].
  assert (lo <= Int_part x)%Z as Hlo'.
  { apply Z.lt_succ_r, lt_IZR. rewrite succ_IZR. lra. }
  assert (Int_part x <= hi)%Z as Hhi' by (apply le_IZR; lra).
  unfold Rnearest_even, frac_part.
  destruct (Rlt_dec (x - IZR (Int_part x)) (1 / 2)) as [Hlt|Hge]; [lia|].
  assert (Int_part x + 1 <= hi)%Z as Hup.
  { apply Z.lt_succ_r, lt_IZR. rewrite succ_IZR, plus_IZR. lra. }
  destruct (Rlt_dec (1 / 2) (x - IZR (Int_part x))); [lia|].
  destruct (Z.even (Int_part x)); lia.
Qed.

Lemma Rround_between (x : R) (ndigits : nat) (lo hi : Z) :
  IZR lo <= x <= IZR hi -> IZR lo <= Rround x ndigits <= IZR hi.
Proof.
  intros [Hlo Hhi]. unfold Rround.
  assert (0 < 10 ^ ndigits) as Hp by (apply pow_lt; lra).
  assert (10 ^ ndigits = IZR (10 ^ Z.of_nat ndigits)) as Hpow.
  { rewrite <- pow_IZR. reflexivity. }
  destruct (Rnearest_even_between (x * 10 ^ ndigits)
              (lo * 10 ^ Z.of_nat ndigits) (hi * 10 ^ Z.of_nat ndigits))
    as [H1 H2].
  { rewrite !mult_IZR, <- Hpow. split; nra. }
  apply IZR_le in H1, H2. rewrite mult_IZR, <- Hpow in H1, H2.
  split.
  - apply (Rmult_le_reg_r (10 ^ ndigits)); [exact Hp|].
    unfold Rdiv. rewrite Rmult_assoc, Rinv_l, Rmult_1_r by lra. exact H1.
  - apply (Rmult_le_reg_r (10 ^ ndigits)); [exact Hp|].
    unfold Rdiv. rewrite Rmult_assoc, Rinv_l, Rmult_1_r by lra. exact H2.
Qed.

Lemma sigmoid_pos (x : R) : 0 < sigmoid x.
Proof.
  unfold sigmoid. pose proof (exp_pos (- x)).
  apply Rdiv_lt_0_compat; lra.
Qed.

(** The final confidence lies between 0.5 and the base confidence. *)
Lemma final_confidence_between (scores : list R) :
  scores <> [] ->
  Rabs (final_confidence_of scores - 0.5) <= Rabs (base_confidence_of scores - 0.5)
  /\ 0 < final_confidence_of scores < 1.
Proof.
  intros Hne.
  assert (1 <= List.length scores)%nat as Hlen
    by (destruct scores; [contradiction|simpl; lia]).
  pose proof (reliability_pos _ Hlen) as Hpos.
  pose proof (reliability_le_1 (List.length scores)) as Hle.
  unfold final_confidence_of, base_confidence_of.
  pose proof (sigmoid_pos (2.0 * avg_sentiment_of scores)) as H0.
  pose proof (sigmoid_lt_1 (2.0 * avg_sentiment_of scores)) as H1.
  set (b := sigmoid (2.0 * avg_sentiment_of scores)) in *.
  set (r := reliability_of (List.length scores)) in *.
  split.
  - replace (0.5 + (b - 0.5) * r - 0.5) with ((b - 0.5) * r) by lra.
    rewrite Rabs_mult, (Rabs_right r) by lra.
    pose proof (Rabs_pos (b - 0.5)). nra.
  - destruct (Rle_or_lt 0.5 b); split; nra.
Qed.

(** X12: whenever [analyze] returns a result, the final confidence is
    strictly between 0 and 1 and no farther from 0.5 than the base
    confidence, and the reported confidence is a percentage between 0 and
    100. *)
Theorem confidence_is_a_percentage (finbert : FinBERT) (symbol : string)
    (news_titles reddit_texts : list string) (buy sell : R) (result : Analysis) :
  let all_scores :=
    (batch_score_texts finbert news_titles
     ++ batch_score_texts finbert reddit_texts)%list in
  analyze finbert symbol news_titles reddit_texts buy sell = Some result ->
  0 < final_confidence_of all_scores < 1
  /\ Rabs (final_confidence_of all_scores - 0.5)
     <= Rabs (base_confidence_of all_scores - 0.5)
  /\ 0 <= confidence result <= 100.
Proof.
  intros all_scores Hresult.
  assert (all_scores <> []) as Hne.
  { intros E. unfold analyze in Hresult. fold all_scores in Hresult.
    rewrite E in Hresult. discriminate Hresult. }
  rewrite analyze_present in Hresult by exact Hne.
  injection Hresult as <-. cbn [confidence]. fold all_scores.
  destruct (final_confidence_between all_scores Hne) as [Hnear Hbound].
  split; [exact Hbound|]. split; [exact Hnear|].
  apply (Rround_between _ 1 0 100). lra.
Qed.

Lemma confidence_is_a_percentage_witness :
  exists result : Analysis,
    analyze constant_model "AAPL" ["Apple surge"] ["to the moon"] 0.65 0.35
    = Some result
    /\ 0 <= confidence result <= 100.
Proof.
  destruct (analyze constant_model "AAPL" ["Apple surge"] ["to the moon"]
                    0.65 0.35) as [result|] eqn:Hresult.
  - exists result. split; [reflexivity|].
    exact (proj2 (proj2 (confidence_is_a_percentage constant_model "AAPL"
                           ["Apple surge"] ["to the moon"] 0.65 0.35 result
                           Hresult))).
  - rewrite analyze_present in Hresult; [discriminate Hresult|].
    simpl. discriminate.
Defined.

Lemma positive_negative_disjoint (scores : list R) :
  (count_if is_positive scores + count_if is_negative scores
   <= List.length scores)%nat.
Proof.
  unfold count_if, is_positive, is_negative.
  induction scores as [|s scores IH]; simpl; [lia|].
  destruct (Rgt_dec s 0) as [Hp|Hp], (Rlt_dec s 0) as [Hn|Hn]; simpl; try lia.
  lra.
Qed.

(** X13: in every result of [analyze] the number of analysed scores is the
    number of headlines plus the number of posts, the positive and the
    negative scores together are at most that many (a score of 0 is
    neither), and the sample is the first three headlines, or all of them
    when there are fewer. *)
Theorem analysis_counts (finbert : FinBERT) (symbol : string)
    (news_titles reddit_texts : list string) (buy sell : R) (result : Analysis) :
  analyze finbert symbol news_titles reddit_texts buy sell = Some result ->
  news_count result = List.length news_titles
  /\ reddit_count result = List.length reddit_texts
  /\ total_analyzed result = (news_count result + reddit_count result)%nat
  /\ (1 <= total_analyzed result)%nat
  /\ (positive result + negative result <= total_analyzed result)%nat
  /\ sample_titles result `prefix_of` news_titles
  /\ List.length (sample_titles result) = Nat.min 3 (List.length news_titles).
Proof.
  intros Hresult.
  assert (batch_score_texts finbert news_titles
          ++ batch_score_texts finbert reddit_texts <> []) as Hne.
  { intros E. unfold analyze in Hresult. rewrite E in Hresult.
    discriminate Hresult. }
  rewrite analyze_present in Hresult by exact Hne.
  injection Hresult as <-.
  cbn [news_count reddit_count total_analyzed positive negative sample_titles].
  repeat split.
  - rewrite length_app, !batch_score_texts_length. reflexivity.
  - destruct (batch_score_texts finbert news_titles
              ++ batch_score_texts finbert reddit_texts);
      [contradiction|simpl; lia].
  - apply positive_negative_disjoint.
  - apply prefix_take.
  - apply length_firstn.
Qed.

Lemma analysis_counts_witness :
  exists result : Analysis,
    analyze constant_model "AAPL" ["a"; "b"; "c"; "d"] ["e"] 0.65 0.35 = Some result
    /\ total_analyzed result = 5%nat
    /\ sample_titles result = ["a"; "b"; "c"].
Proof.
  destruct (analyze constant_model "AAPL" ["a"; "b"; "c"; "d"] ["e"] 0.65 0.35)
    as [result|] eqn:Hresult.
  - exists result. split; [reflexivity|].
    destruct (analysis_counts constant_model "AAPL" ["a"; "b"; "c"; "d"] ["e"]
                0.65 0.35 result Hresult)
      as (Hn & Hr & Htotal & _ & _ & Hprefix & Hlen).
    split; [rewrite Htotal, Hn, Hr; reflexivity|].
    destruct Hprefix as [rest Hrest]. simpl in Hlen.
    destruct (sample_titles result) as [|t1 [|t2 [|t3 [|t4 more]]]];
      try discriminate Hlen.
    injection Hrest as -> -> -> _. reflexivity.
  - rewrite analyze_present in Hresult; [discriminate Hresult|].
    simpl. discriminate.
Defined.

Lemma sigmoid_opp (x : R) : sigmoid (- x) = 1 - sigmoid x.
Proof.
  unfold sigmoid. rewrite Ropp_involutive.
  assert (exp (- x) * exp x = 1) as Hinv
    by (rewrite <- exp_plus, Rplus_opp_l; apply exp_0).
  pose proof (exp_pos x). pose proof (exp_pos (- x)).
  apply (Rmult_eq_reg_r ((1 + exp x) * (1 + exp (- x)))); [|nra].
  field_simplify; [|lra|lra]. nra.
Qed.

Lemma py_sum_opp (scores : list R) : py_sum (map Ropp scores) = - py_sum scores.
Proof.
  unfold py_sum. rewrite !fold_left_Rplus.
  induction scores as [|s scores IH]; simpl; [lra|].
  simpl in IH. lra.
Qed.

Lemma avg_sentiment_opp (scores : list R) :
  avg_sentiment_of (map Ropp scores) = - avg_sentiment_of scores.
Proof.
  unfold avg_sentiment_of. rewrite py_sum_opp, length_map. unfold Rdiv. ring.
Qed.

Lemma count_if_map (f g : R -> bool) (h : R -> R) (scores : list R) :
  (forall s, f (h s) = g s) -> count_if f (map h scores) = count_if g scores.
Proof.
  intros Hfg. unfold count_if.
  induction scores as [|s scores IH]; simpl; [reflexivity|].
  rewrite Hfg. destruct (g s); simpl; rewrite IH; reflexivity.
Qed.

Lemma decision_BUY (f buy sell : R) : decision_of f buy sell = BUY -> buy <= f.
Proof.
  unfold decision_of. destruct (Rge_dec f buy); [lra|].
  destruct (Rle_dec f sell); discriminate.
Qed.

Lemma decision_SELL (f buy sell : R) : decision_of f buy sell = SELL -> f <= sell.
Proof.
  unfold decision_of. destruct (Rge_dec f buy); [discriminate|].
  destruct (Rle_dec f sell); [lra|discriminate].
Qed.

(** X14: changing the sign of every score swaps the numbers of positive
    and of negative scores, changes the sign of the average and moves the
    final confidence to the other side of 0.5 (or onto it); so with a buy
    threshold above 0.5 a batch and its negation are never both BUY, and
    with a sell threshold below 0.5 never both SELL. *)
Theorem negated_scores_never_agree (scores : list R) (buy sell : R) :
  count_if is_positive (map Ropp scores) = count_if is_negative scores
  /\ count_if is_negative (map Ropp scores) = count_if is_positive scores
  /\ avg_sentiment_of (map Ropp scores) = - avg_sentiment_of scores
  /\ (0.5 < final_confidence_of scores ->
      final_confidence_of (map Ropp scores) <= 0.5)
  /\ (final_confidence_of scores < 0.5 ->
      0.5 <= final_confidence_of (map Ropp scores))
  /\ (0.5 < buy ->
      decision_of (final_confidence_of scores) buy sell = BUY ->
      decision_of (final_confidence_of (map Ropp scores)) buy sell <> BUY)
  /\ (sell < 0.5 ->
      decision_of (final_confidence_of scores) buy sell = SELL ->
      decision_of (final_confidence_of (map Ropp scores)) buy sell <> SELL).
Proof.
  destruct (final_confidence_side scores) as [Hup Hdown].
  destruct (final_confidence_side (map Ropp scores)) as [Hup' Hdown'].
  rewrite avg_sentiment_opp in Hup', Hdown'.
  assert (0.5 < final_confidence_of scores ->
          final_confidence_of (map Ropp scores) <= 0.5) as Habove.
  { intros H. apply Hdown'.
    destruct (Rle_or_lt (avg_sentiment_of scores) 0) as [Hle|Hgt]; [|lra].
    specialize (Hdown Hle). lra. }
  assert (final_confidence_of scores < 0.5 ->
          0.5 <= final_confidence_of (map Ropp scores)) as Hbelow.
  { intros H. apply Hup'.
    destruct (Rle_or_lt 0 (avg_sentiment_of scores)) as [Hge|Hlt]; [|lra].
    specialize (Hup Hge). lra. }
  split; [|split; [|split; [|split; [|split; [|split]]]]].
  - apply count_if_map. intros s. unfold is_positive, is_negative.
    destruct (Rgt_dec (- s) 0), (Rlt_dec s 0); try reflexivity; lra.
  - apply count_if_map. intros s. unfold is_positive, is_negative.
    destruct (Rlt_dec (- s) 0), (Rgt_dec s 0); try reflexivity; lra.
  - apply avg_sentiment_opp.
  - exact Habove.
  - exact Hbelow.
  - intros Hbuy Hdec Hdec'.
    apply decision_BUY in Hdec, Hdec'.
    assert (0.5 < final_confidence_of scores) as H by lra.
    specialize (Habove H). lra.
  - intros Hsell Hdec Hdec'.
    apply decision_SELL in Hdec, Hdec'.
    assert (final_confidence_of scores < 0.5) as H by lra.
    specialize (Hbelow H). lra.
Qed.

Lemma negated_scores_never_agree_witness :
  decision_of (final_confidence_of (repeat 0.8 50)) 0.65 0.35 = BUY
  /\ decision_of (final_confidence_of (map Ropp (repeat 0.8 50))) 0.65 0.35 <> BUY.
Proof.
  assert (decision_of (final_confidence_of (repeat 0.8 50)) 0.65 0.35 = BUY)
    as Hbuy.
  { rewrite final_confidence_repeat_08 by lia.
    pose proof sigmoid_16_above. unfold decision_of.
    destruct (Rge_dec (sigmoid 1.6) 0.65); [reflexivity|lra]. }
  split; [exact Hbuy|].
  destruct (negated_scores_never_agree (repeat 0.8 50) 0.65 0.35)
    as (_ & _ & _ & _ & _ & Hnever & _).
  apply Hnever; [lra|exact Hbuy].
Defined.

Lemma sigmoid_increasing (x y : R) : x < y -> sigmoid x < sigmoid y.
Proof.
  intros Hxy. unfold sigmoid.
  assert (exp (- y) < exp (- x)) as He by (apply exp_increasing; lra).
  pose proof (exp_pos (- x)). pose proof (exp_pos (- y)).
  unfold Rdiv. rewrite !Rmult_1_l.
  apply Rinv_lt_contravar; [nra|lra].
Qed.

Lemma ln_ratio_below (a : R) (p q : nat) :
  1 < a -> a ^ q < 51 ^ p -> (0 < q)%nat -> ln a / ln 51 < INR p / INR q.
Proof.
  intros Ha Hpow Hq.
  pose proof ln_51_pos as H51.
  assert (0 < INR q) as Hq' by (apply lt_0_INR; exact Hq).
  assert (INR q * ln a < INR p * ln 51) as H.
  { rewrite <- !ln_pow by lra. apply ln_increasing; [apply pow_lt; lra|exact Hpow]. }
  apply (Rmult_lt_reg_r (ln 51 * INR q)); [nra|].
  field_simplify; lra.
Qed.

Lemma reliability_2_below : reliability_of 2 < 0.3.
Proof.
  destruct (reliability_below_50 2 ltac:(lia)) as [E _]. rewrite E.
  replace (INR (1 + 2)) with 3 by (simpl; lra).
  pose proof (ln_ratio_below 3 3 10 ltac:(lra) ltac:(lra) ltac:(lia)) as H.
  replace (INR 3 / INR 10) with 0.3 in H by (simpl; lra). exact H.
Qed.

Lemma reliability_3_below : reliability_of 3 < 0.375.
Proof.
  destruct (reliability_below_50 3 ltac:(lia)) as [E _]. rewrite E.
  replace (INR (1 + 3)) with 4 by (simpl; lra).
  pose proof (ln_ratio_below 4 3 8 ltac:(lra) ltac:(lra) ltac:(lia)) as H.
  replace (INR 3 / INR 8) with 0.375 in H by (simpl; lra). exact H.
Qed.

Lemma sigmoid_2_bounds (x : R) :
  x = 2 -> sigmoid x <= 0.9 /\ 0.1 <= sigmoid (- x).
Proof.
  intros Hx.
  assert (sigmoid x <= 0.9) as H.
  { unfold sigmoid.
    assert (exp x <= 9) as H2.
    { rewrite Hx. replace 2 with (1 + 1) by lra. rewrite exp_plus.
      pose proof exp_le_3. pose proof (exp_pos 1). nra. }
    assert (exp (- x) * exp x = 1) as Hinv
      by (rewrite <- exp_plus, Rplus_opp_l; apply exp_0).
    pose proof (exp_pos x). pose proof (exp_pos (- x)).
    assert (1 / 9 <= exp (- x)) as Hlow by nra.
    apply (Rmult_le_reg_r (1 + exp (- x))); [lra|].
    unfold Rdiv. rewrite Rmult_assoc, Rinv_l by lra. lra. }
  split; [exact H|]. rewrite sigmoid_opp. lra.
Qed.

Lemma positive_sum_has_positive (scores : list R) :
  0 < fold_right Rplus 0 scores -> (1 <= count_if is_positive scores)%nat.
Proof.
  unfold count_if, is_positive.
  induction scores as [|s scores IH]; simpl; [lra|].
  destruct (Rgt_dec s 0) as [Hs|Hs]; simpl; [lia|].
  intros H. apply IH. lra.
Qed.

Lemma negative_sum_has_negative (scores : list R) :
  fold_right Rplus 0 scores < 0 -> (1 <= count_if is_negative scores)%nat.
Proof.
  unfold count_if, is_negative.
  induction scores as [|s scores IH]; simpl; [lra|].
  destruct (Rlt_dec s 0) as [Hs|Hs]; simpl; [lia|].
  intros H. apply IH. lra.
Qed.

Lemma avg_sentiment_sign (scores : list R) :
  scores <> [] ->
  (0 < avg_sentiment_of scores -> 0 < fold_right Rplus 0 scores)
  /\ (avg_sentiment_of scores < 0 -> fold_right Rplus 0 scores < 0).
Proof.
  intros Hne. unfold avg_sentiment_of, py_sum. rewrite fold_left_Rplus.
  assert (0 < INR (List.length scores)) as Hn
    by (apply lt_0_INR; destruct scores; [contradiction|simpl; lia]).
  assert (0 < / INR (List.length scores)) as Hinv
    by (apply Rinv_0_lt_compat; exact Hn).
  unfold Rdiv. split; intros H; nra.
Qed.

Lemma Rround_nonneg (x : R) (ndigits : nat) : 0 <= x -> 0 <= Rround x ndigits.
Proof.
  intros Hx. destruct (archimed x) as [Hup _].
  apply (Rround_between x ndigits 0 (up x)). lra.
Qed.

Lemma Rround_nonpos (x : R) (ndigits : nat) : x <= 0 -> Rround x ndigits <= 0.
Proof.
  intros Hx. destruct (archimed x) as [_ Hlow].
  apply (Rround_between x ndigits (up x - 1) 0).
  rewrite minus_IZR. lra.
Qed.

(** X16: the final confidence is on the side of 0.5 given by the sign of
    the average score; so with a buy threshold above 0.5 a BUY is decided
    only on a positive average, which takes at least one positive text,
    and with a sell threshold below 0.5 a SELL only on a negative average,
    which takes at least one negative text; the reported average has that
    sign or is 0. *)
Theorem decision_needs_matching_texts (finbert : FinBERT) (symbol : string)
    (news_titles reddit_texts : list string) (buy sell : R) (result : Analysis) :
  let all_scores :=
    (batch_score_texts finbert news_titles
     ++ batch_score_texts finbert reddit_texts)%list in
  analyze finbert symbol news_titles reddit_texts buy sell = Some result ->
  (0 <= avg_sentiment_of all_scores -> 0.5 <= final_confidence_of all_scores)
  /\ (avg_sentiment_of all_scores <= 0 -> final_confidence_of all_scores <= 0.5)
  /\ (0.5 < buy ->
      decision result = BUY ->
      0 < avg_sentiment_of all_scores
      /\ 0 <= avg_sentiment result
      /\ (1 <= positive result)%nat)
  /\ (sell < 0.5 ->
      decision result = SELL ->
      avg_sentiment_of all_scores < 0
      /\ avg_sentiment result <= 0
      /\ (1 <= negative result)%nat).
Proof.
  intros all_scores Hresult.
  assert (all_scores <> []) as Hne.
  { intros E. unfold analyze in Hresult. fold all_scores in Hresult.
    rewrite E in Hresult. discriminate Hresult. }
  rewrite analyze_present in Hresult by exact Hne.
  injection Hresult as <-. cbn [decision avg_sentiment positive negative].
  fold all_scores.
  destruct (final_confidence_side all_scores) as [Hup Hdown].
  destruct (avg_sentiment_sign all_scores Hne) as [Hpos Hneg].
  split; [exact Hup|]. split; [exact Hdown|]. split.
  - intros Hbuy Hdec. apply decision_BUY in Hdec.
    assert (0 < avg_sentiment_of all_scores) as Havg.
    { destruct (Rle_or_lt (avg_sentiment_of all_scores) 0) as [Hle|Hgt];
        [|exact Hgt].
      specialize (Hdown Hle). lra. }
    split; [exact Havg|]. split.
    + apply Rround_nonneg. lra.
    + apply positive_sum_has_positive, Hpos, Havg.
  - intros Hsell Hdec. apply decision_SELL in Hdec.
    assert (avg_sentiment_of all_scores < 0) as Havg.
    { destruct (Rle_or_lt 0 (avg_sentiment_of all_scores)) as [Hge|Hlt];
        [|exact Hlt].
      specialize (Hup Hge). lra. }
    split; [exact Havg|]. split.
    + apply Rround_nonpos. lra.
    + apply negative_sum_has_negative, Hneg, Havg.
Qed.

Lemma decision_needs_matching_texts_witness :
  exists result : Analysis,
    analyze constant_model "AAPL" ["Apple surge"] ["to the moon"] 0.65 0.35
    = Some result
    /\ 0.5 <= final_confidence_of
                (batch_score_texts constant_model ["Apple surge"]
                 ++ batch_score_texts constant_model ["to the moon"]).
Proof.
  destruct (analyze constant_model "AAPL" ["Apple surge"] ["to the moon"]
                    0.65 0.35) as [result|] eqn:Hresult.
  - exists result. split; [reflexivity|].
    apply (proj1 (decision_needs_matching_texts constant_model "AAPL"
                    ["Apple surge"] ["to the moon"] 0.65 0.35 result Hresult)).
    unfold avg_sentiment_of, py_sum. simpl. lra.
  - rewrite analyze_present in Hresult; [discriminate Hresult|].
    simpl. discriminate.
Defined.

Lemma batch_scores_in_range (finbert : FinBERT) (texts : list string) :
  (forall batch i label, 0 <= softmax_probs finbert batch i label <= 1) ->
  List.Forall (fun s => -1 <= s <= 1) (batch_score_texts finbert texts).
Proof.
  intros Hprob. unfold batch_score_texts.
  destruct texts as [|t texts]; [constructor|].
  apply List.Forall_forall. intros s Hs.
  apply in_map_iff in Hs as (i & <- & _).
  pose proof (Hprob (t :: texts) i (idx_pos finbert)).
  pose proof (Hprob (t :: texts) i (idx_neg finbert)). lra.
Qed.

Lemma avg_sentiment_in_range (scores : list R) :
  scores <> [] ->
  List.Forall (fun s => -1 <= s <= 1) scores ->
  -1 <= avg_sentiment_of scores <= 1.
Proof.
  intros Hne Hall. unfold avg_sentiment_of, py_sum. rewrite fold_left_Rplus.
  assert (0 < INR (List.length scores)) as Hn
    by (apply lt_0_INR; destruct scores; [contradiction|simpl; lia]).
  assert (- INR (List.length scores) <= fold_right Rplus 0 scores
          <= INR (List.length scores)) as [Hlo Hhi].
  { clear Hne Hn. induction Hall as [|s scores Hs _ IH].
    - simpl. lra.
    - cbn [List.length fold_right]. rewrite S_INR. lra. }
  split.
  - apply (Rmult_le_reg_r (INR (List.length scores))); [exact Hn|].
    unfold Rdiv. rewrite Rmult_assoc, Rinv_l by lra. lra.
  - apply (Rmult_le_reg_r (INR (List.length scores))); [exact Hn|].
    unfold Rdiv. rewrite Rmult_assoc, Rinv_l by lra. lra.
Qed.

(** On score lists: one or two scores always hold, three hold when their
    average lies in [-1, 1]. *)
Lemma small_scores_hold (scores : list R) (buy sell : R) :
  scores <> [] ->
  0.65 <= buy ->
  sell <= 0.35 ->
  ((List.length scores <= 2)%nat ->
   decision_of (final_confidence_of scores) buy sell = HOLD)
  /\ ((List.length scores <= 3)%nat ->
      -1 <= avg_sentiment_of scores <= 1 ->
      decision_of (final_confidence_of scores) buy sell = HOLD).
Proof.
  intros Hne Hbuy Hsell.
  assert (1 <= List.length scores)%nat as Hlen
    by (destruct scores; [contradiction|simpl; lia]).
  pose proof (reliability_pos _ Hlen) as Hpos.
  assert (forall f, 0.35 < f < 0.65 -> decision_of f buy sell = HOLD) as Hhold.
  { intros f Hf. unfold decision_of.
    destruct (Rge_dec f buy); [lra|]. destruct (Rle_dec f sell); [lra|].
    reflexivity. }
  split.
  - intros H2. apply Hhold.
    pose proof (reliability_monotone _ 2 H2) as Hr.
    pose proof reliability_2_below as Hr2.
    pose proof (sigmoid_pos (2.0 * avg_sentiment_of scores)) as H0.
    pose proof (sigmoid_lt_1 (2.0 * avg_sentiment_of scores)) as H1.
    unfold final_confidence_of, base_confidence_of.
    set (b := sigmoid (2.0 * avg_sentiment_of scores)) in *.
    set (r := reliability_of (List.length scores)) in *.
    destruct (Rle_or_lt 0.5 b); split; nra.
  - intros H3 [Hlo Hhi]. apply Hhold.
    pose proof (reliability_monotone _ 3 H3) as Hr.
    pose proof reliability_3_below as Hr3.
    destruct (sigmoid_2_bounds 2 eq_refl) as [Hs2 Hs2'].
    assert (sigmoid (2.0 * avg_sentiment_of scores) <= 0.9) as Hb1.
    { destruct (Req_dec (2.0 * avg_sentiment_of scores) 2) as [->|Hd];
        [exact Hs2|].
      assert (2.0 * avg_sentiment_of scores < 2) as Hlt by lra.
      pose proof (sigmoid_increasing _ _ Hlt). lra. }
    assert (0.1 <= sigmoid (2.0 * avg_sentiment_of scores)) as Hb0.
    { destruct (Req_dec (2.0 * avg_sentiment_of scores) (Ropp 2)) as [->|Hd];
        [exact Hs2'|].
      assert (Ropp 2 < 2.0 * avg_sentiment_of scores) as Hlt by lra.
      pose proof (sigmoid_increasing _ _ Hlt). lra. }
    unfold final_confidence_of, base_confidence_of.
    set (b := sigmoid (2.0 * avg_sentiment_of scores)) in *.
    set (r := reliability_of (List.length scores)) in *.
    destruct (Rle_or_lt 0.5 b); split; nra.
Qed.

(** X15: with a buy threshold of at least 0.65 and a sell threshold of at
    most 0.35 (the defaults), an analysis of one or two texts always
    decides HOLD, whatever the scores, and so does an analysis of three
    texts when the classifier returns probabilities. *)
Theorem small_batches_hold (finbert : FinBERT) (symbol : string)
    (news_titles reddit_texts : list string) (buy sell : R) (result : Analysis) :
  analyze finbert symbol news_titles reddit_texts buy sell = Some result ->
  0.65 <= buy ->
  sell <= 0.35 ->
  ((total_analyzed result <= 2)%nat -> decision result = HOLD)
  /\ ((total_analyzed result <= 3)%nat ->
      (forall batch i label, 0 <= softmax_probs finbert batch i label <= 1) ->
      decision result = HOLD).
Proof.
  intros Hresult Hbuy Hsell.
  assert (batch_score_texts finbert news_titles
          ++ batch_score_texts finbert reddit_texts <> []) as Hne.
  { intros E. unfold analyze in Hresult. rewrite E in Hresult.
    discriminate Hresult. }
  rewrite analyze_present in Hresult by exact Hne.
  injection Hresult as <-. cbn [total_analyzed decision].
  destruct (small_scores_hold _ buy sell Hne Hbuy Hsell) as [H2 H3].
  split; [exact H2|].
  intros Hlen Hprob. apply H3; [exact Hlen|].
  apply avg_sentiment_in_range; [exact Hne|].
  apply List.Forall_app; split; apply batch_scores_in_range; exact Hprob.
Qed.

Lemma small_batches_hold_witness :
  exists result : Analysis,
    analyze constant_model "AAPL" ["Apple surge"] ["to the moon"] 0.65 0.35
    = Some result
    /\ decision result = HOLD.
Proof.
  destruct (analyze constant_model "AAPL" ["Apple surge"] ["to the moon"]
                    0.65 0.35) as [result|] eqn:Hresult.
  - exists result. split; [reflexivity|].
    destruct (small_batches_hold constant_model "AAPL" ["Apple surge"]
                ["to the moon"] 0.65 0.35 result Hresult
                ltac:(lra) ltac:(lra)) as [H2 _].
    apply H2.
    rewrite analyze_present in Hresult by (simpl; discriminate).
    injection Hresult as <-. simpl. lia.
  - rewrite analyze_present in Hresult; [discriminate Hresult|].
    simpl. discriminate.
Defined.

(** X17: when the classifier returns probabilities (numbers between 0 and
    1), every score lies in [-1, 1] and so do the average and the rounded
    average that [analyze] reports. *)
Theorem reported_average_in_range (finbert : FinBERT) (symbol : string)
    (news_titles reddit_texts : list string) (buy sell : R) (result : Analysis) :
  (forall batch i label, 0 <= softmax_probs finbert batch i label <= 1) ->
  analyze finbert symbol news_titles reddit_texts buy sell = Some result ->
  List.Forall (fun s => -1 <= s <= 1)
              (batch_score_texts finbert news_titles
               ++ batch_score_texts finbert reddit_texts)
  /\ -1 <= avg_sentiment_of (batch_score_texts finbert news_titles
                             ++ batch_score_texts finbert reddit_texts) <= 1
  /\ -1 <= avg_sentiment result <= 1.
Proof.
  intros Hprob Hresult.
  assert (batch_score_texts finbert news_titles
          ++ batch_score_texts finbert reddit_texts <> []) as Hne.
  { intros E. unfold analyze in Hresult. rewrite E in Hresult.
    discriminate Hresult. }
  rewrite analyze_present in Hresult by exact Hne.
  injection Hresult as <-. cbn [avg_sentiment].
  assert (List.Forall (fun s => -1 <= s <= 1)
                      (batch_score_texts finbert news_titles
                       ++ batch_score_texts finbert reddit_texts)) as Hall
    by (apply List.Forall_app; split; apply batch_scores_in_range; exact Hprob).
  pose proof (avg_sentiment_in_range _ Hne Hall) as Havg.
  split; [exact Hall|]. split; [exact Havg|].
  apply (Rround_between _ 3 (-1) 1). exact Havg.
Qed.

Lemma reported_average_in_range_witness :
  exists result : Analysis,
    analyze constant_model "AAPL" ["Apple surge"] [] 0.65 0.35 = Some result
    /\ -1 <= avg_sentiment result <= 1.
Proof.
  destruct (analyze constant_model "AAPL" ["Apple surge"] [] 0.65 0.35)
    as [result|] eqn:Hresult.
  - exists result. split; [reflexivity|].
    apply (reported_average_in_range constant_model "AAPL" ["Apple surge"] []
             0.65 0.35 result); [|exact Hresult].
    intros batch i label. simpl. destruct (Nat.eqb label 0); lra.
  - rewrite analyze_present in Hresult; [discriminate Hresult|].
    simpl. discriminate.
Defined.

(* ===================================================================== *)
(** * More properties of topic extraction *)
(* ===================================================================== *)

Lemma counter_get_absent (w : string) (counter : Counter) :
  ~ In w (map fst counter) -> counter_get w counter = 0%nat.
Proof.
  induction counter as [|[w' c] rest IH]; simpl; intros Hnot; [reflexivity|].
  destruct (String.eqb w' w) eqn:E.
  - apply String.eqb_eq in E. subst w'. exfalso. apply Hnot. left. reflexivity.
  - apply IH. intros Hin. apply Hnot. right. exact Hin.
Qed.

(** The first listed word has the highest count of all words. *)
Lemma topics_order_head (texts vocab : list string) (w : string) (f : float)
    (rest : list (string * float)) :
  explain_topics texts vocab = (w, f) :: rest ->
  (forall w' : string,
      (counter_get w' (count_topics texts vocab)
       <= counter_get w (count_topics texts vocab))%nat)
  /\ In (w, counter_get w (count_topics texts vocab)) (count_topics texts vocab).
Proof.
  intros Htop.
  pose proof (count_topics_NoDup texts vocab) as Hkeys.
  pose proof (sort_desc_Permutation (count_topics texts vocab)) as Hperm.
  pose proof (sort_desc_sorted (count_topics texts vocab)) as Hsorted.
  unfold explain_topics, most_common in Htop.
  destruct (sort_desc (count_topics texts vocab)) as [|[w0 c0] sorted] eqn:Es;
    [discriminate Htop|].
  cbn in Htop. injection Htop as -> _ _.
  assert (In (w, c0) (count_topics texts vocab)) as Hin0
    by (apply (Permutation_in _ Hperm); left; reflexivity).
  rewrite (counter_get_In w c0 _ Hkeys Hin0).
  split; [|exact Hin0].
  intros w'.
  destruct (in_dec string_dec w' (map fst (count_topics texts vocab)))
    as [Hin|Hnot].
  - apply in_map_iff in Hin as ([w1 c1] & <- & Hin). cbn [fst].
    rewrite (counter_get_In w1 c1 _ Hkeys Hin).
    apply (Permutation_in _ (Permutation_sym Hperm)) in Hin.
    destruct Hin as [E|Hin]; [injection E as _ ->; lia|].
    inversion Hsorted as [|? ? _ Hall]; subst.
    rewrite List.Forall_forall in Hall. exact (Hall _ Hin).
  - rewrite counter_get_absent by exact Hnot. lia.
Qed.

(** X18: the topic mapping is a proper dictionary, listed from the most
    counted word down: no word appears twice, and a word listed earlier
    has a count at least that of any word listed later; so the first key
    has the highest count of all words. *)
Theorem topics_listed_by_decreasing_count (texts vocab : list string) :
  List.NoDup (map fst (explain_topics texts vocab))
  /\ (forall (before after : list (string * float)) (w1 w2 : string),
        explain_topics texts vocab = before ++ after ->
        In w1 (map fst before) -> In w2 (map fst after) ->
        (counter_get w2 (count_topics texts vocab)
         <= counter_get w1 (count_topics texts vocab))%nat)
  /\ (forall (w : string) (f : float) (rest : list (string * float)) (w' : string),
        explain_topics texts vocab = (w, f) :: rest ->
        (counter_get w' (count_topics texts vocab)
         <= counter_get w (count_topics texts vocab))%nat).
Proof.
  pose proof (count_topics_NoDup texts vocab) as Hkeys.
  pose proof (sort_desc_Permutation (count_topics texts vocab)) as Hperm.
  pose proof (sort_desc_sorted (count_topics texts vocab)) as Hsorted.
  assert (List.NoDup (map fst (sort_desc (count_topics texts vocab)))) as Hnd.
  { eapply Permutation_NoDup; [|exact Hkeys].
    apply Permutation_map. symmetry. exact Hperm. }
  assert (forall wc, In wc (sort_desc (count_topics texts vocab)) ->
                     counter_get (fst wc) (count_topics texts vocab) = snd wc)
    as Hget.
  { intros [w c] Hin. apply counter_get_In; [exact Hkeys|].
    apply (Permutation_in _ Hperm). exact Hin. }
  split; [|split].
  - rewrite explain_topics_keys. unfold most_common.
    rewrite <- (firstn_skipn 5 (sort_desc (count_topics texts vocab))),
      map_app in Hnd.
    apply NoDup_app_remove_r in Hnd. exact Hnd.
  - intros before after w1 w2 Hsplit H1 H2.
    unfold explain_topics, most_common in Hsplit.
    apply map_eq_app in Hsplit as (l1 & l2 & Htake & <- & <-).
    rewrite map_map in H1, H2. cbn [fst] in H1, H2.
    apply in_map_iff in H1 as (wc1 & <- & H1).
    apply in_map_iff in H2 as (wc2 & <- & H2).
    assert (StronglySorted count_ge (l1 ++ l2)) as Hs.
    { rewrite <- (firstn_skipn 5 (sort_desc _)) in Hsorted.
      apply StronglySorted_app_1_l in Hsorted.
      rewrite Htake in Hsorted. exact Hsorted. }
    assert (forall wc, In wc (l1 ++ l2) ->
                       In wc (sort_desc (count_topics texts vocab))) as Hin.
    { intros wc H. rewrite <- (firstn_skipn 5 (sort_desc _)), Htake.
      apply in_or_app. left. exact H. }
    rewrite (Hget wc1) by (apply Hin, in_or_app; left; exact H1).
    rewrite (Hget wc2) by (apply Hin, in_or_app; right; exact H2).
    apply (StronglySorted_app_1_elem_of _ _ _ wc1 wc2) in Hs;
      [exact Hs| |]; apply list_elem_of_In; assumption.
  - intros w f rest w' Htop.
    unfold explain_topics, most_common in Htop.
    destruct (sort_desc (count_topics texts vocab)) as [|[w0 c0] sorted] eqn:Es;
      [discriminate Htop|].
    cbn in Htop. injection Htop as -> _ _.
    pose proof (Hget (w, c0) ltac:(left; reflexivity)) as Hw.
    cbn [fst snd] in Hw. rewrite Hw.
    destruct (in_dec string_dec w' (map fst (count_topics texts vocab)))
      as [Hin|Hnot].
    + apply in_map_iff in Hin as ([w1 c1] & <- & Hin). cbn [fst].
      rewrite (counter_get_In w1 c1 _ Hkeys Hin).
      apply (Permutation_in _ (Permutation_sym Hperm)) in Hin.
      destruct Hin as [E|Hin]; [injection E as _ ->; lia|].
      inversion Hsorted as [|? ? _ Hall]; subst.
      rewrite List.Forall_forall in Hall. exact (Hall _ Hin).
    + rewrite counter_get_absent by exact Hnot. lia.
Qed.

Lemma topics_listed_by_decreasing_count_witness :
  (counter_get "drop"
     (count_topics ["Stock surge reported"; "another surge"; "price drop"]
                   ["drop"; "surge"])
   <= counter_get "surge"
        (count_topics ["Stock surge reported"; "another surge"; "price drop"]
                      ["drop"; "surge"]))%nat.
Proof.
  apply (proj2 (proj2 (topics_listed_by_decreasing_count
                         ["Stock surge reported"; "another surge"; "price drop"]
                         ["drop"; "surge"]))
               "surge" 0.667%float [("drop", 0.333%float)] "drop").
  vm_compute. reflexivity.
Defined.

(* ===================================================================== *)
(** * A quote at the baseline *)
(* ===================================================================== *)

Lemma finite_minus_itself (p : float) :
  is_finite_nonzero p = true ->
  PrimFloat.eqb p 0 = false
  /\ Prim2SF (abs ((p - p) / p)) = S754_zero false.
Proof.
  unfold is_finite_nonzero. intros Hfin.
  destruct (Prim2SF p) as [| | |s m e] eqn:Ep; try discriminate Hfin.
  split.
  - rewrite FloatAxioms.eqb_spec, Ep.
    change (Prim2SF 0) with (S754_zero false).
    unfold SFeqb, SFcompare. destruct s; reflexivity.
  - rewrite FloatAxioms.abs_spec, FloatAxioms.div_spec, FloatAxioms.sub_spec, Ep.
    unfold SF64sub, SFsub. cbv zeta.
    rewrite Z.sub_diag. cbn [binary_normalize].
    unfold SF64div, SFdiv. reflexivity.
Qed.

(** X19: a quote whose price is the stored baseline (as right after an
    alert or a first observation at that price) never alerts when the
    threshold is positive and the price is a finite non-zero number: the
    step completes, emits nothing and leaves every global as it was. *)
Theorem quote_at_baseline_is_silent (cfg : Config) (now : timestamp)
    (symbol : string) (price_data : PriceData) (st : State) :
  BASELINE_PRICES st !! symbol = Some (pd_price price_data) ->
  is_finite_nonzero (pd_price price_data) = true ->
  (PRICE_THRESH cfg <=? 0)%float = false ->
  price_step cfg now (symbol, price_data) st = (Ok tt, st).
Proof.
  intros Hb Hfin Hthr.
  destruct (finite_minus_itself _ Hfin) as [Hnz Hzero].
  unfold price_step, get_cumulative_change, bind, get_state, lift.
  cbn [fst snd]. rewrite Hb. unfold py_truediv. rewrite Hnz.
  cbn [fst snd]. rewrite Hb. unfold should_alert_price.
  rewrite FloatAxioms.leb_spec, Hzero.
  rewrite FloatAxioms.leb_spec in Hthr.
  change (Prim2SF 0) with (S754_zero false) in Hthr.
  rewrite Hthr. reflexivity.
Qed.

Lemma quote_at_baseline_is_silent_witness :
  price_step (default_config ["AAPL"]) 8%Z ("AAPL", quote 101.126%float)
             (state_with_baseline "AAPL" 101.126%float)
  = (Ok tt, state_with_baseline "AAPL" 101.126%float).
Proof.
  apply quote_at_baseline_is_silent; reflexivity.
Defined.

(* ===================================================================== *)
(** * Properties of the fetched texts and of the answers *)
(* ===================================================================== *)

(** X20: the texts handed to [analyze] by the two fetches are bounded and
    free of duplicates: at most 30 headlines and 60 posts, so a result
    never counts more than 90 analysed texts. *)
Theorem fetched_batches_are_bounded (finbert : FinBERT)
    (fetch_google_news : string -> option (list string))
    (collected : list string) (symbol : string) (buy sell : R)
    (result : Analysis) :
  analyze finbert symbol (get_news fetch_google_news symbol)
          (get_reddit_result collected) buy sell = Some result ->
  NoDup (get_reddit_result collected)
  /\ (forall text, text ∈ get_reddit_result collected -> text ∈ collected)
  /\ (news_count result <= 30)%nat
  /\ (reddit_count result <= 60)%nat
  /\ (total_analyzed result <= 90)%nat.
Proof.
  intros Hresult.
  pose proof (dedupe_list_NoDup collected) as Hnd.
  pose proof (dedupe_list_elem collected) as Helem.
  assert (List.length (get_news fetch_google_news symbol) <= 30)%nat as Hnews
    by (unfold get_news; rewrite length_firstn; lia).
  assert (List.length (get_reddit_result collected) <= 60)%nat as Hreddit
    by (unfold get_reddit_result; rewrite length_firstn; lia).
  assert (batch_score_texts finbert (get_news fetch_google_news symbol)
          ++ batch_score_texts finbert (get_reddit_result collected) <> []) as Hne.
  { intros E. unfold analyze in Hresult. rewrite E in Hresult.
    discriminate Hresult. }
  rewrite analyze_present in Hresult by exact Hne.
  injection Hresult as <-.
  cbn [news_count reddit_count total_analyzed].
  split; [eapply sublist_NoDup; [exact Hnd|apply sublist_take]|].
  split.
  { intros text Hin. apply Helem.
    exact (elem_of_sublist _ _ _ Hin (sublist_take _ _)). }
  split; [exact Hnews|]. split; [exact Hreddit|].
  rewrite length_app, !batch_score_texts_length. lia.
Qed.

Lemma fetched_batches_are_bounded_witness :
  exists result : Analysis,
    analyze constant_model "BTC-USD"
            (get_news (fun query => Some [query +:+ " rallies"; "Markets today"])
                      "BTC-USD")
            (get_reddit_result ["to the moon"; "to the moon"]) 0.65 0.35
    = Some result
    /\ (total_analyzed result <= 90)%nat.
Proof.
  destruct (analyze constant_model "BTC-USD"
              (get_news (fun query => Some [query +:+ " rallies"; "Markets today"])
                        "BTC-USD")
              (get_reddit_result ["to the moon"; "to the moon"]) 0.65 0.35)
    as [result|] eqn:Hresult.
  - exists result. split; [reflexivity|].
    apply (fetched_batches_are_bounded constant_model _ _ _ _ _ _ Hresult).
  - exfalso. rewrite analyze_present in Hresult; [discriminate Hresult|].
    vm_compute. discriminate.
Defined.

(** X21: the facts of the query handlers follow the analysis: when the
    snapshot of a symbol holds the topics and sample headlines of an
    analysis of some headlines, the top topic of the recommendation is
    "market sentiment" if no news word was counted and otherwise a news
    vocabulary word whose count no other word exceeds, and the sample
    title of the news summary is the first headline, or "recent market
    activity" without headlines. *)
Theorem query_facts_follow_analysis (symbol : string) (data : Snapshot)
    (news_titles : list string) :
  snap_news_topics data = explain_topics news_titles news_vocab ->
  snap_sample_titles data = firstn 3 news_titles ->
  (count_topics news_titles news_vocab = [] ->
   rec_top_topic (recommendation_facts symbol data) = "market sentiment")
  /\ (count_topics news_titles news_vocab <> [] ->
      In (rec_top_topic (recommendation_facts symbol data)) news_vocab
      /\ forall w : string,
           (counter_get w (count_topics news_titles news_vocab)
            <= counter_get (rec_top_topic (recommendation_facts symbol data))
                           (count_topics news_titles news_vocab))%nat)
  /\ nf_sample_title (news_facts symbol data)
     = match news_titles with
       | title :: _ => title
       | [] => "recent market activity"
       end.
Proof.
  intros Htopics Htitles.
  unfold recommendation_facts, news_facts.
  cbn [rec_top_topic nf_sample_title]. rewrite Htopics, Htitles.
  split; [|split].
  - intros Hempty. unfold explain_topics. rewrite Hempty. reflexivity.
  - intros Hne.
    destruct (explain_topics news_titles news_vocab) as [|[w f] rest] eqn:E.
    + exfalso. unfold explain_topics, most_common in E.
      pose proof (sort_desc_Permutation (count_topics news_titles news_vocab))
        as Hperm.
      destruct (sort_desc (count_topics news_titles news_vocab)) as [|wc sorted];
        [|discriminate E].
      apply Permutation_nil in Hperm. exact (Hne Hperm).
    + split.
      * assert (In (w, f) (explain_topics news_titles news_vocab)) as Hin
          by (rewrite E; left; reflexivity).
        unfold explain_topics in Hin.
        apply in_map_iff in Hin as ([w' c] & Heq & Hin). cbn in Heq.
        injection Heq as -> _.
        apply most_common_In in Hin.
        pose proof (counter_get_In w c _
                      (count_topics_NoDup news_titles news_vocab) Hin) as Hget.
        pose proof (count_topics_positive news_titles news_vocab) as Hpos.
        rewrite List.Forall_forall in Hpos. specialize (Hpos _ Hin). cbn in Hpos.
        apply listed_positive_In.
        pose proof (counter_get_count_topics w news_titles news_vocab) as Hc.
        rewrite Hget in Hc.
        destruct (listed w news_vocab); [simpl in Hc; lia|lia].
      * intros w'.
        destruct (topics_order_head news_titles news_vocab w f rest E) as [H _].
        apply H.
  - destruct news_titles as [|t [|t2 [|t3 more]]]; reflexivity.
Qed.

Lemma query_facts_follow_analysis_witness :
  rec_top_topic
    (recommendation_facts "AAPL"
       (snapshot_of_headlines ["Price drop feared"; "Stock surge"; "Another surge"]))
  = "surge"
  /\ nf_sample_title
       (news_facts "AAPL"
          (snapshot_of_headlines ["Price drop feared"; "Stock surge"; "Another surge"]))
     = "Price drop feared".
Proof.
  destruct (query_facts_follow_analysis "AAPL"
              (snapshot_of_headlines
                 ["Price drop feared"; "Stock surge"; "Another surge"])
              ["Price drop feared"; "Stock surge"; "Another surge"]
              eq_refl eq_refl) as (_ & _ & Htitle).
  split; [reflexivity|exact Htitle].
Defined.

(* ===================================================================== *)
(** * Properties of the interactive loop *)
(* ===================================================================== *)

Lemma lower_ascii_idempotent (c : ascii) :
  lower_ascii (lower_ascii c) = lower_ascii c.
Proof.
  destruct c as [[] [] [] [] [] [] [] []]; reflexivity.
Qed.

Lemma lower_idempotent (s : string) : lower (lower s) = lower s.
Proof.
  induction s as [|c s IH]; simpl; [reflexivity|].
  rewrite lower_ascii_idempotent, IH. reflexivity.
Qed.

Lemma first_symbol_none (user_lower : string) (items : list (string * string)) :
  first_symbol user_lower items = None
  <-> forall key symbol, In (key, symbol) items -> is_substring key user_lower = false.
Proof.
  induction items as [|[k s] items IH]; simpl.
  - split; [intros _ key symbol []|reflexivity].
  - destruct (is_substring k user_lower) eqn:E.
    + split; [discriminate|].
      intros H. specialize (H k s (or_introl eq_refl)). congruence.
    + rewrite IH. split.
      * intros H key symbol [Heq|Hin]; [injection Heq as <- <-; exact E|].
        exact (H key symbol Hin).
      * intros H key symbol Hin. apply (H key symbol). right. exact Hin.
Qed.

Lemma first_symbol_some (user_lower : string) (items : list (string * string))
    (symbol : string) :
  first_symbol user_lower items = Some symbol ->
  exists (earlier later : list (string * string)) (key : string),
    items = earlier ++ (key, symbol) :: later
    /\ is_substring key user_lower = true
    /\ forall k s, In (k, s) earlier -> is_substring k user_lower = false.
Proof.
  induction items as [|[k s] items IH]; simpl; [discriminate|].
  destruct (is_substring k user_lower) eqn:E.
  - intros H. injection H as ->. exists [], items, k.
    split; [reflexivity|]. split; [exact E|]. intros k' s' [].
  - intros H. destruct (IH H) as (earlier & later & key & -> & Hkey & Hearlier).
    exists ((k, s) :: earlier), later, key.
    split; [reflexivity|]. split; [exact Hkey|].
    intros k' s' [Heq|Hin]; [injection Heq as <- <-; exact E|].
    exact (Hearlier k' s' Hin).
Qed.

(** X22: [parse_symbol] finds nothing exactly when no known name occurs in
    the lower-cased input; what it finds is one of the five tickers, the
    one of the first name of [symbols_map], in the order of the map, that
    occurs in the input; and the case of the input does not matter. *)
Theorem parse_symbol_first_known_name (user_input : string) :
  (parse_symbol user_input = None
   <-> forall key symbol,
         In (key, symbol) symbols_map ->
         is_substring key (lower user_input) = false)
  /\ (forall symbol : string,
        parse_symbol user_input = Some symbol ->
        In symbol ["AAPL"; "MSFT"; "NVDA"; "BTC-USD"; "ETH-USD"]
        /\ exists (earlier later : list (string * string)) (key : string),
             symbols_map = earlier ++ (key, symbol) :: later
             /\ is_substring key (lower user_input) = true
             /\ forall k s, In (k, s) earlier ->
                            is_substring k (lower user_input) = false)
  /\ parse_symbol (lower user_input) = parse_symbol user_input.
Proof.
  unfold parse_symbol. split; [apply first_symbol_none|]. split.
  - intros symbol H.
    destruct (first_symbol_some _ _ _ H) as (earlier & later & key & Hmap & Hrest).
    split; [|exists earlier, later, key; split; [exact Hmap|exact Hrest]].
    assert (In (key, symbol) symbols_map) as Hin
      by (rewrite Hmap; apply in_or_app; right; left; reflexivity).
    clear - Hin. unfold symbols_map in Hin. simpl in Hin.
    repeat (destruct Hin as [Hin|Hin];
            [injection Hin as _ <-; simpl; tauto|]).
    contradiction.
  - rewrite lower_idempotent. reflexivity.
Qed.

Lemma parse_symbol_first_known_name_witness :
  parse_symbol "Compare BITCOIN with Apple" = Some "AAPL"
  /\ In "AAPL" ["AAPL"; "MSFT"; "NVDA"; "BTC-USD"; "ETH-USD"].
Proof.
  assert (parse_symbol "Compare BITCOIN with Apple" = Some "AAPL") as H
    by (vm_compute; reflexivity).
  split; [exact H|].
  exact (proj1 (proj1 (proj2 (parse_symbol_first_known_name
                                "Compare BITCOIN with Apple")) "AAPL" H)).
Defined.

Lemma exchanges_history_length (exchanges : list (string * string)) :
  List.length (exchanges_history exchanges) = (2 * List.length exchanges)%nat.
Proof.
  unfold exchanges_history.
  induction exchanges as [|qa exchanges IH]; simpl; [reflexivity|].
  simpl in IH. rewrite IH. lia.
Qed.

Lemma exchanges_history_snoc (exchanges : list (string * string))
    (question answer : string) :
  exchanges_history exchanges
  ++ [{| msg_role := User; msg_content := question |};
      {| msg_role := Assistant; msg_content := answer |}]
  = exchanges_history (exchanges ++ [(question, answer)]).
Proof.
  unfold exchanges_history. rewrite flat_map_app. simpl. reflexivity.
Qed.

(** One pass of the loop keeps a history of at most ten whole exchanges. *)
Lemma cli_turn_keeps_exchanges
    (have_conversation :
       list Message -> gmap string Snapshot -> string -> option string)
    (latest_analysis : option (gmap string Snapshot)) (line : string)
    (exchanges : list (string * string)) :
  (List.length exchanges <= 10)%nat ->
  exists exchanges' : list (string * string),
    snd (cli_turn have_conversation latest_analysis line
                  (exchanges_history exchanges))
    = exchanges_history exchanges'
    /\ (List.length exchanges' <= 10)%nat.
Proof.
  intros Hlen. unfold cli_turn.
  destruct (String.eqb (strip line) ""); [exists exchanges; split; [reflexivity|exact Hlen]|].
  destruct (existsb (String.eqb (lower (strip line))) ["exit"; "quit"; "bye"; "stop"]);
    [exists exchanges; split; [reflexivity|exact Hlen]|].
  destruct (existsb (String.eqb (lower (strip line))) ["clear"; "reset"; "restart"]);
    [exists []; split; [reflexivity|simpl; lia]|].
  destruct (handle_query have_conversation (strip line) latest_analysis
                         (exchanges_history exchanges)) as [response|];
    [|exists exchanges; split; [reflexivity|exact Hlen]].
  cbn [snd]. rewrite exchanges_history_snoc, exchanges_history_length, length_app.
  cbn [List.length].
  destruct (20 <? 2 * (List.length exchanges + 1))%nat eqn:E.
  - apply Nat.ltb_lt in E.
    assert (List.length exchanges = 10%nat) as Hten by lia.
    destruct exchanges as [|first rest]; [simpl in Hten; lia|].
    exists (rest ++ [(strip line, response)]). split.
    + replace (2 * (List.length (first :: rest) + 1) - 20)%nat with 2%nat by lia.
      reflexivity.
    + rewrite length_app. simpl in *. lia.
  - apply Nat.ltb_ge in E.
    exists (exchanges ++ [(strip line, response)]).
    split; [reflexivity|]. rewrite length_app. simpl. lia.
Qed.

(** X23: whatever is typed and whatever the chat and the file on disk do,
    the conversation history of the interactive loop is always a sequence
    of at most ten whole exchanges, a user message followed by its reply:
    never more than 20 messages, never a question without its reply. *)
Theorem conversation_history_is_bounded
    (have_conversation :
       list Message -> gmap string Snapshot -> string -> option string)
    (inputs : list (string * option (gmap string Snapshot))) :
  exists exchanges : list (string * string),
    cli_run have_conversation inputs [] = exchanges_history exchanges
    /\ (List.length exchanges <= 10)%nat
    /\ (List.length (cli_run have_conversation inputs []) <= 20)%nat.
Proof.
  assert (forall exchanges,
             (List.length exchanges <= 10)%nat ->
             exists exchanges',
               cli_run have_conversation inputs (exchanges_history exchanges)
               = exchanges_history exchanges'
               /\ (List.length exchanges' <= 10)%nat) as Hrun.
  { induction inputs as [|[line latest_analysis] inputs IH]; intros exchanges Hlen.
    - exists exchanges. split; [reflexivity|exact Hlen].
    - cbn [cli_run].
      destruct (cli_turn_keeps_exchanges have_conversation latest_analysis line
                  exchanges Hlen) as (exchanges1 & E1 & Hlen1).
      destruct (cli_turn have_conversation latest_analysis line
                         (exchanges_history exchanges)) as [[|] history];
        cbn [snd] in E1; subst history.
      + apply IH. exact Hlen1.
      + exists exchanges1. split; [reflexivity|exact Hlen1]. }
  destruct (Hrun [] ltac:(simpl; lia)) as (exchanges & E & Hlen).
  exists exchanges. split; [exact E|]. split; [exact Hlen|].
  change (exchanges_history []) with (@nil Message) in E.
  rewrite E, exchanges_history_length. lia.
Qed.

(** X24: a line that is neither blank, nor a command to leave or to clear,
    and that gets a reply, is recorded with its reply at the end of the
    history, stripped of surrounding white space; the older messages stay
    in order and only the oldest are dropped. *)
Theorem reply_is_recorded_last
    (have_conversation :
       list Message -> gmap string Snapshot -> string -> option string)
    (latest_analysis : option (gmap string Snapshot)) (line response : string)
    (conversation_history : list Message) :
  strip line <> "" ->
  existsb (String.eqb (lower (strip line)))
          ["exit"; "quit"; "bye"; "stop"; "clear"; "reset"; "restart"] = false ->
  handle_query have_conversation (strip line) latest_analysis conversation_history
  = Some response ->
  exists dropped kept : list Message,
    conversation_history = dropped ++ kept
    /\ cli_turn have_conversation latest_analysis line conversation_history
       = (KeepGoing,
          kept ++ [{| msg_role := User; msg_content := strip line |};
                   {| msg_role := Assistant; msg_content := response |}])
    /\ (dropped = [] \/ List.length kept = 18%nat).
Proof.
  intros Hblank Hcmd Hreply. unfold cli_turn.
  destruct (String.eqb (strip line) "") eqn:E;
    [apply String.eqb_eq in E; contradiction|].
  cbn [existsb] in Hcmd. repeat (apply orb_false_iff in Hcmd as [? Hcmd]).
  cbn [existsb].
  repeat match goal with H : String.eqb _ _ = false |- _ => rewrite H; clear H end.
  cbn [orb]. rewrite Hreply. rewrite length_app. cbn [List.length].
  destruct (20 <? List.length conversation_history + 2)%nat eqn:E20.
  - apply Nat.ltb_lt in E20.
    exists (firstn (List.length conversation_history + 2 - 20) conversation_history),
           (skipn (List.length conversation_history + 2 - 20) conversation_history).
    split; [symmetry; apply firstn_skipn|]. split.
    + rewrite skipn_app.
      replace (List.length conversation_history + 2 - 20
               - List.length conversation_history)%nat with 0%nat by lia.
      reflexivity.
    + right. rewrite length_skipn. lia.
  - exists [], conversation_history. split; [reflexivity|].
    split; [reflexivity|left; reflexivity].
Qed.

Lemma reply_is_recorded_last_witness :
  cli_turn echo_chat (Some {[ "AAPL" := sample_snapshot ]}) "  How is Apple?  " []
  = (KeepGoing,
     [{| msg_role := User; msg_content := "How is Apple?" |};
      {| msg_role := Assistant; msg_content := "noted" |}]).
Proof.
  destruct (reply_is_recorded_last echo_chat (Some {[ "AAPL" := sample_snapshot ]})
              "  How is Apple?  " "noted" [])
    as (dropped & kept & Hsplit & Hturn & _).
  - vm_compute. discriminate.
  - vm_compute. reflexivity.
  - reflexivity.
  - symmetry in Hsplit. apply app_eq_nil in Hsplit as [_ ->]. exact Hturn.
Defined.

(* ===================================================================== *)
(** * From a cycle to an answer *)
(* ===================================================================== *)

(** X25: a query on the document exported by a completed cycle, for a
    symbol that is watched once and has an analysis, hands the chat the
    facts of that cycle: the decision, confidence and counts of the
    analysis and the quoted price; without an API key the answer is the
    off-line text; and a symbol absent from the document gets the no-data
    sentence whatever the chat is. *)
Theorem answers_follow_exported_cycle (cfg : Config) (finbert : FinBERT)
    (now : timestamp) (prices : list (string * PriceData))
    (fetch : nat -> list string * list string) (st st' : State)
    (i : nat) (symbol : string) (result : Analysis) :
  NoDup (WATCH cfg) ->
  WATCH cfg !! i = Some symbol ->
  analyze finbert symbol (fst (fetch i)) (snd (fetch i))
          (BUY_THRESH cfg) (SELL_THRESH cfg) = Some result ->
  run_cycle_async cfg finbert now prices fetch st = (Ok tt, st') ->
  exists (document : gmap string Snapshot) (snap : Snapshot),
    exported st' = Some (now, document)
    /\ get_detailed_analysis symbol document = Some snap
    /\ (forall chat,
          get_buy_sell_recommendation (Some chat) symbol document
          = chat (recommendation_facts symbol snap)
                 ("Should I buy or sell " +:+ symbol
                  +:+ "? Give me your recommendation."))
    /\ (forall chat,
          get_news_summary (Some chat) symbol document
          = chat (news_facts symbol snap)
                 ("Summarize the latest news and market sentiment for "
                  +:+ symbol +:+ "."))
    /\ rec_decision (recommendation_facts symbol snap) = decision result
    /\ rec_confidence_pct (recommendation_facts symbol snap) = confidence result
    /\ rec_price (recommendation_facts symbol snap)
       = pd_price <$> prices_get prices symbol
    /\ nf_news_count (news_facts symbol snap) = news_count result
    /\ get_buy_sell_recommendation None symbol document
       = "[Chat offline – SAMBA_API_KEY missing]"
    /\ (forall other client,
          document !! other = None ->
          get_buy_sell_recommendation client other document
          = "I don't have enough data to make a recommendation for " +:+ other
            +:+ " right now."
          /\ get_detailed_analysis other document = None).
Proof.
  intros Hnd Hi Hresult Hrun.
  destruct (cycle_snapshot cfg finbert now prices fetch st st' i symbol result
              Hnd Hi Hresult Hrun)
    as (change & snap & _ & Hsnap & document & Hdoc & Hlookup).
  exists document, snap.
  split; [exact Hdoc|]. split; [exact Hlookup|].
  unfold get_buy_sell_recommendation, get_news_summary, get_detailed_analysis.
  rewrite Hlookup. subst snap.
  split; [intros chat; reflexivity|]. split; [intros chat; reflexivity|].
  do 5 (split; [reflexivity|]).
  intros other client Hother. rewrite Hother. split; reflexivity.
Qed.

Lemma answers_follow_exported_cycle_witness :
  exists (document : gmap string Snapshot) (snap : Snapshot),
    exported
      (snd (run_cycle_async (default_config ["AAPL"; "MSFT"]) constant_model 5%Z
              [("MSFT", quote 400%float)] fetch_first_empty empty_state))
    = Some (5%Z, document)
    /\ get_detailed_analysis "MSFT" document = Some snap
    /\ rec_price (recommendation_facts "MSFT" snap) = Some 400%float.
Proof.
  destruct (analyze constant_model "MSFT" ["Microsoft earnings surge"] []
                    0.65 0.35) as [result|] eqn:Hresult.
  2: { rewrite analyze_present in Hresult; [discriminate Hresult|].
       simpl. discriminate. }
  assert (NoDup ["AAPL"; "MSFT"]) as Hnd
    by (apply NoDup_ListNoDup; repeat constructor; simpl; intuition discriminate).
  destruct (run_cycle_async (default_config ["AAPL"; "MSFT"]) constant_model 5%Z
              [("MSFT", quote 400%float)] fetch_first_empty empty_state)
    as [[[]|e] st'] eqn:Hrun.
  - destruct (answers_follow_exported_cycle
                (default_config ["AAPL"; "MSFT"]) constant_model 5%Z
                [("MSFT", quote 400%float)] fetch_first_empty empty_state st'
                1 "MSFT" result Hnd eq_refl Hresult Hrun)
      as (document & snap & Hdoc & Hget & _ & _ & _ & _ & Hprice & _).
    exists document, snap. split; [exact Hdoc|]. split; [exact Hget|].
    rewrite Hprice. reflexivity.
  - exfalso.
    unfold run_cycle_async, analyze_symbol in Hrun.
    change (imap _ (WATCH (default_config ["AAPL"; "MSFT"])))
      with [("AAPL", (analyze constant_model "AAPL" [] []
                              0.65 0.35, @nil string, @nil string));
            ("MSFT", (analyze constant_model "MSFT"
                              ["Microsoft earnings surge"] [] 0.65 0.35,
                      ["Microsoft earnings surge"], @nil string))] in Hrun.
    rewrite Hresult in Hrun.
    change (analyze constant_model "AAPL" [] [] 0.65 0.35) with (@None Analysis)
      in Hrun.
    cbn in Hrun. discriminate Hrun.
Defined.
